(** * manual_finder.py: a shallow embedding and its properties

    The script searches the web for an equipment manual, ranks the results,
    probes the links, downloads the best one and checks that it is a PDF.

    Conventions of the embedding.
    - A Python [str] or [bytes] value is a Rocq [string], read as the UTF-8
      bytes of the text.  The embedding is exact on ASCII text; the glyphs
      of the script's messages are kept as their UTF-8 bytes, for which
      [startswith], [in], [replace] and comparison agree with Python's.
      [str.lower] is the ASCII one; [str.strip] removes the white space of
      [str.isspace], in its UTF-8 bytes.
    - Python integers are [Z] or [nat]; the float score is the rational it
      rounds ([Q]).
    - Library routines the script calls ([urllib.parse], [posixpath],
      [pathlib], [difflib], [requests], [ddgs], [webbrowser], [input],
      [print]) are modelled next to the functions of the script, POSIX
      flavour ([platform.system()] is not ["Windows"]).
    - Exceptions are results [Raise msg], where [msg] is [str(e)]. *)

From Stdlib Require Import ZArith QArith String Ascii List Lia.
From stdpp Require Import base option list gmap strings sorting.

Open Scope string_scope.
Set Warnings "-clear-no-such-hyp".

(** ** Results of fallible code *)

Inductive result (A : Type) : Type :=
| Ok (a : A)
| Raise (msg : string).
Arguments Ok {A} a.
Arguments Raise {A} msg.

(** ** Python string methods *)

Module Str.

Definition code (c : ascii) : nat := nat_of_ascii c.

Definition is_upper (c : ascii) : bool := (65 <=? code c)%nat && (code c <=? 90)%nat.
Definition is_lower (c : ascii) : bool := (97 <=? code c)%nat && (code c <=? 122)%nat.
Definition is_digit (c : ascii) : bool := (48 <=? code c)%nat && (code c <=? 57)%nat.
Definition is_alpha (c : ascii) : bool := is_upper c || is_lower c.

Definition lower_char (c : ascii) : ascii :=
  if is_upper c then ascii_of_nat (code c + 32) else c.

(** [s.lower()] *)
Fixpoint lower (s : string) : string :=
  match s with
  | EmptyString => EmptyString
  | String c s' => String (lower_char c) (lower s')
  end.

(** [s.startswith(p)] *)
Fixpoint startswith (p s : string) : bool :=
  match p, s with
  | EmptyString, _ => true
  | String a p', String b s' => Ascii.eqb a b && startswith p' s'
  | String _ _, EmptyString => false
  end.

(** [sub in s] *)
Fixpoint contains (sub s : string) : bool :=
  startswith sub s
  || match s with
     | EmptyString => false
     | String _ s' => contains sub s'
     end.

(** [s.endswith(suf)] *)
Fixpoint endswith (suf s : string) : bool :=
  String.eqb suf s
  || match s with
     | EmptyString => false
     | String _ s' => endswith suf s'
     end.

(** [c in s] for a single character. *)
Fixpoint has_char (c : ascii) (s : string) : bool :=
  match s with
  | EmptyString => false
  | String d s' => Ascii.eqb c d || has_char c s'
  end.

Fixpoint forall_chars (p : ascii -> bool) (s : string) : bool :=
  match s with
  | EmptyString => true
  | String c s' => p c && forall_chars p s'
  end.

(** [s[n:]] and [s[:n]] for [0 <= n]. *)
Fixpoint drop (n : nat) (s : string) : string :=
  match n, s with
  | O, _ => s
  | S n', String _ s' => drop n' s'
  | S _, EmptyString => EmptyString
  end.

Fixpoint take (n : nat) (s : string) : string :=
  match n, s with
  | O, _ => EmptyString
  | S n', String c s' => String c (take n' s')
  | S _, EmptyString => EmptyString
  end.

(** [s.find(c)], with [None] for Python's [-1]. *)
Fixpoint find (p : ascii -> bool) (s : string) : option nat :=
  match s with
  | EmptyString => None
  | String c s' => if p c then Some O else S <$> find p s'
  end.

(** [s.rfind(c)], with [None] for Python's [-1]. *)
Fixpoint rfind (p : ascii -> bool) (s : string) : option nat :=
  match s with
  | EmptyString => None
  | String c s' =>
      match rfind p s' with
      | Some i => Some (S i)
      | None => if p c then Some O else None
      end
  end.

(** [s.lstrip(chars)] over a class of one-byte characters. *)
Fixpoint lstrip (p : ascii -> bool) (s : string) : string :=
  match s with
  | EmptyString => EmptyString
  | String c s' => if p c then lstrip p s' else s
  end.

(** [s[::-1]], byte by byte, and [''.join(ws)]. *)
Fixpoint reverse (s : string) : string :=
  match s with
  | EmptyString => EmptyString
  | String c s' => reverse s' ++ String c EmptyString
  end.

Definition join (ws : list string) : string := foldr String.append EmptyString ws.

(** The characters of [str.isspace], which [str.strip()] removes, as code
    points: tab, LF, VT, FF, CR, the separators 0x1c-0x1f and the space;
    U+0085, U+00A0, U+1680, U+2000 to U+200A, U+2028, U+2029, U+202F,
    U+205F and U+3000. *)
Definition whitespace_points : list N :=
  [0x9; 0xa; 0xb; 0xc; 0xd; 0x1c; 0x1d; 0x1e; 0x1f; 0x20; 0x85; 0xa0; 0x1680;
   0x2000; 0x2001; 0x2002; 0x2003; 0x2004; 0x2005; 0x2006; 0x2007; 0x2008;
   0x2009; 0x200a; 0x2028; 0x2029; 0x202f; 0x205f; 0x3000]%N.

(** The UTF-8 bytes of a code point below U+10000. *)
Definition utf8 (n : N) : string :=
  if (n <? 0x80)%N then String (ascii_of_N n) EmptyString
  else if (n <? 0x800)%N then
    String (ascii_of_N (0xc0 + n / 64))
      (String (ascii_of_N (0x80 + n mod 64)) EmptyString)
  else
    String (ascii_of_N (0xe0 + n / 4096))
      (String (ascii_of_N (0x80 + (n / 64) mod 64))
         (String (ascii_of_N (0x80 + n mod 64)) EmptyString)).

Definition whitespace : list string := map utf8 whitespace_points.

(** [t] is a white space character; and the same for the bytes of [t] read
    backwards. *)
Definition is_white (t : string) : bool := existsb (String.eqb t) whitespace.
Definition is_white_back (t : string) : bool := is_white (reverse t).

(** Drop the characters that [white] accepts from the front of [s]: a
    white space character has one, two or three bytes. *)
Fixpoint drop_white (white : string -> bool) (s : string) : string :=
  match s with
  | EmptyString => EmptyString
  | String c s1 =>
      if white (String c EmptyString) then drop_white white s1
      else
        match s1 with
        | EmptyString => s
        | String d s2 =>
            if white (String c (String d EmptyString)) then drop_white white s2
            else
              match s2 with
              | EmptyString => s
              | String e s3 =>
                  if white (String c (String d (String e EmptyString)))
                  then drop_white white s3
                  else s
              end
        end
  end.

(** [s.lstrip()], [s.rstrip()] and [s.strip()] *)
Definition lstrip_white (s : string) : string := drop_white is_white s.
Definition rstrip_white (s : string) : string :=
  reverse (drop_white is_white_back (reverse s)).
Definition strip (s : string) : string := rstrip_white (lstrip_white s).

(** [s.replace(c, r)] for a one-character pattern [c]. *)
Fixpoint replace (c : ascii) (r : string) (s : string) : string :=
  match s with
  | EmptyString => EmptyString
  | String d s' =>
      if Ascii.eqb c d then r ++ replace c r s' else String d (replace c r s')
  end.


(** Truthiness of a string: [bool(s)]. *)
Definition truthy (s : string) : bool :=
  match s with
  | EmptyString => false
  | String _ _ => true
  end.

(** Truthiness of a value that may be [None]. *)
Definition truthy_opt (o : option string) : bool :=
  match o with
  | None => false
  | Some s => truthy s
  end.

(** [str(n)] for an integer. *)
Definition of_Z (n : Z) : string := pretty.pretty n.

End Str.

(** ** urllib.parse *)

Module Urllib.

Record ParseResult := {
  scheme : string;
  netloc : string;
  path : string;
  params : string;
  query : string;
  fragment : string
}.

Definition scheme_char (c : ascii) : bool :=
  Str.is_alpha c || Str.is_digit c || Str.has_char c "+-.".

Definition uses_params : list string :=
  [""; "ftp"; "hdl"; "prospero"; "http"; "imap"; "https"; "shttp"; "rtsp";
   "rtspu"; "sip"; "sips"; "mms"; "sftp"; "tel"].

(** The leading characters [urlsplit] strips and the ones it removes. *)
Definition c0_or_space (c : ascii) : bool := (Str.code c <=? 32)%nat.
Definition unsafe_byte (c : ascii) : bool :=
  (Str.code c =? 9)%nat || (Str.code c =? 13)%nat || (Str.code c =? 10)%nat.

Fixpoint remove_unsafe (s : string) : string :=
  match s with
  | EmptyString => EmptyString
  | String c s' => if unsafe_byte c then remove_unsafe s' else String c (remove_unsafe s')
  end.

(** [url.split(c, 1)] when [c] occurs in [url]. *)
Definition split_once (c : ascii) (url : string) : option (string * string) :=
  i ← Str.find (Ascii.eqb c) url;
  Some (Str.take i url, Str.drop (S i) url).

(** [_splitnetloc(url, 2)]: the netloc ends at the first of ['/'], ['?'],
    ['#'] found from position 2 on. *)
Definition splitnetloc (url : string) : string * string :=
  let rest := Str.drop 2 url in
  match Str.find (fun c => Str.has_char c "/?#") rest with
  | Some d => (Str.take d rest, Str.drop d rest)
  | None => (rest, "")
  end.

(** [urlsplit(url)].  [ValueError] is raised for a netloc with one bracket
    but not the other.  The validation of a bracketed IP literal that
    recent CPython releases add, and the NFKC check of a non-ASCII netloc,
    are left out: the model is exact for ASCII URLs whose netloc has no
    bracket. *)
Definition urlsplit (url0 : string) : result (string * string * string * string * string) :=
  let url := Str.lstrip c0_or_space url0 in
  let url := remove_unsafe url in
  let '(scheme, url) :=
    match Str.find (Ascii.eqb ":") url with
    | Some (S i') =>
        let i := S i' in
        if Str.forall_chars Str.is_alpha (Str.take 1 url)
           && Str.forall_chars scheme_char (Str.take i url)
        then (Str.lower (Str.take i url), Str.drop (S i) url)
        else ("", url)
    | _ => ("", url)
    end in
  let step2 :=
    if String.eqb (Str.take 2 url) "//" then
      let '(netloc, url) := splitnetloc url in
      if (Str.has_char "[" netloc && negb (Str.has_char "]" netloc))
         || (Str.has_char "]" netloc && negb (Str.has_char "[" netloc))
      then Raise "Invalid IPv6 URL"
      else Ok (netloc, url)
    else Ok ("", url) in
  match step2 with
  | Raise e => Raise e
  | Ok (netloc, url) =>
      let '(url, fragment) :=
        match split_once "#" url with
        | Some (u, f) => (u, f)
        | None => (url, "")
        end in
      let '(url, query) :=
        match split_once "?" url with
        | Some (u, q) => (u, q)
        | None => (url, "")
        end in
      Ok (scheme, netloc, url, query, fragment)
  end.

(** [_splitparams(url)] *)
Definition splitparams (url : string) : string * string :=
  if Str.has_char "/" url then
    let r := default O (Str.rfind (Ascii.eqb "/") url) in
    match Str.find (Ascii.eqb ";") (Str.drop r url) with
    | None => (url, "")
    | Some k => (Str.take (r + k) url, Str.drop (S (r + k)) url)
    end
  else
    match Str.find (Ascii.eqb ";") url with
    | Some i => (Str.take i url, Str.drop (S i) url)
    | None =>
        (* unreachable from [urlparse]: Python slices with [i = -1] *)
        (Str.take (String.length url - 1) url, url)
    end.

(** [urlparse(url)] *)
Definition urlparse (url : string) : result ParseResult :=
  match urlsplit url with
  | Raise e => Raise e
  | Ok (scheme, netloc, url, query, fragment) =>
      let '(url, params) :=
        if bool_decide (scheme ∈ uses_params) && Str.has_char ";" url
        then splitparams url
        else (url, "") in
      Ok {| scheme := scheme; netloc := netloc; path := url;
            params := params; query := query; fragment := fragment |}
  end.

Definition is_hex (c : ascii) : bool :=
  Str.is_digit c || Str.has_char c "ABCDEFabcdef".

Definition hex_val (c : ascii) : nat :=
  if Str.is_digit c then Str.code c - 48
  else if Str.is_upper c then Str.code c - 55
  else Str.code c - 87.

(** [unquote(s)]: every [%XX] with two hexadecimal digits becomes the byte
    [XX]; any other ['%'] stays.  Python decodes the resulting bytes as
    UTF-8 and replaces ill-formed sequences; the model keeps the bytes, so
    it is exact when they are well-formed UTF-8. *)
Fixpoint unquote (s : string) : string :=
  match s with
  | EmptyString => EmptyString
  | String c s' =>
      match s' with
      | String h (String l s'') =>
          if Ascii.eqb c "%" && is_hex h && is_hex l
          then String (ascii_of_nat (16 * hex_val h + hex_val l)) (unquote s'')
          else String c (unquote s')
      | _ => String c (unquote s')
      end
  end.

End Urllib.

(** ** The scorer *)

Definition TRUSTED_DOMAINS : list string :=
  [".trane.com"; ".carrier.com"; ".daikin.com"; ".york.com"; ".lg.com"].

(** [domain_score(url, make)] *)
Definition domain_score (url make : string) : result Z :=
  match Urllib.urlparse url with
  | Raise e => Raise e
  | Ok p =>
      let domain := Urllib.netloc p in
      let score := 0%Z in
      let score :=
        if existsb (fun manuf => Str.contains manuf domain) TRUSTED_DOMAINS
        then (score + 3)%Z else score in
      let score :=
        if Str.contains (Str.lower make) (Str.lower domain)
        then (score + 2)%Z else score in
      Ok score
  end.

(** ** posixpath and pathlib *)

Module Posixpath.

(** [os.path.basename(p)]: [p[p.rfind('/') + 1:]] *)
Definition basename (p : string) : string :=
  let i :=
    match Str.rfind (Ascii.eqb "/") p with
    | Some r => S r
    | None => O
    end in
  Str.drop i p.

End Posixpath.

Module Pathlib.

(** An absolute POSIX path, as its components from the root. *)
Definition Path := list string.

(** The components of a string, cut at every ['/']. *)
Fixpoint split_slash (cur : string) (s : string) : list string :=
  match s with
  | EmptyString => [cur]
  | String c s' =>
      if Ascii.eqb c "/" then cur :: split_slash "" s'
      else split_slash (cur ++ String c "") s'
  end.

(** pathlib drops empty components and ["."] when it parses a segment. *)
Definition parse (seg : string) : list string :=
  filter (fun c => c ≠ "" ∧ c ≠ ".") (split_slash "" seg).

(** [p / seg]: an absolute segment replaces [p].  (pathlib keeps a leading
    ["//"] of exactly two slashes, which Linux reads as ["/"]; the model
    writes one.) *)
Definition joinpath (p : Path) (seg : string) : Path :=
  if Str.startswith "/" seg then parse seg else (p ++ parse seg)%list.

Fixpoint join_str (comps : list string) : string :=
  match comps with
  | [] => ""
  | c :: rest => "/" ++ c ++ join_str rest
  end.

(** [str(p)] *)
Definition str (p : Path) : string :=
  match p with
  | [] => "/"
  | _ => join_str p
  end.

(** [p.resolve()] where no component is a symbolic link: [".."] steps back
    to the parent, and stays at the root there. *)
Definition resolve_step (acc : Path) (c : string) : Path :=
  if String.eqb c ".." then removelast acc else (acc ++ [c])%list.

Definition resolve (p : Path) : Path := foldl resolve_step [] p.

(** The name by which the file system knows the file. *)
Definition key (p : Path) : string := str (resolve p).

Definition parent (p : Path) : Path := removelast (resolve p).

(** All the ancestors of [p] and [p] itself, from the top. *)
Definition ancestors (p : Path) : list Path :=
  map (fun n => firstn n p) (seq 1 (length p)).

End Pathlib.

(** ** difflib.SequenceMatcher(None, a, b) *)

Module Difflib.

Section SequenceMatcher.

Variables a b : list ascii.

(** [__chain_b]: the positions of every element of [b]. *)
Definition chain_b_step (b2j : gmap ascii (list nat)) (ie : nat * ascii)
  : gmap ascii (list nat) :=
  let '(i, elt) := ie in
  <[elt := (default [] (b2j !! elt) ++ [i])%list]> b2j.

Definition b2j_all : gmap ascii (list nat) :=
  foldl chain_b_step ∅ (imap pair b).

(** With [isjunk = None] no element is junk; with [autojunk] on, the
    elements that occur more than [n // 100 + 1] times in a [b] of 200
    elements or more are dropped from [b2j]. *)
Definition b2j : gmap ascii (list nat) :=
  let n := length b in
  if (200 <=? n)%nat then
    let ntest := (n / 100 + 1)%nat in
    filter (fun kv => ¬ (ntest < length kv.2)%nat) b2j_all
  else b2j_all.

Definition Match : Type := nat * nat * nat.

(** The inner loop of [find_longest_match], over the positions [js] of
    [a[i]] in [b].  [j2len.get(j-1, 0)] is [0] for [j = 0]: [-1] is never a
    key. *)
Fixpoint inner_loop (i blo bhi : nat) (j2len : gmap nat nat) (js : list nat)
    (newj2len : gmap nat nat) (best : Match) : gmap nat nat * Match :=
  match js with
  | [] => (newj2len, best)
  | j :: js' =>
      if (j <? blo)%nat then inner_loop i blo bhi j2len js' newj2len best
      else if (bhi <=? j)%nat then (newj2len, best)
      else
        let k :=
          (match j with
           | O => O
           | S j' => default O (j2len !! j')
           end + 1)%nat in
        let newj2len := <[j := k]> newj2len in
        let best :=
          if (best.2 <? k)%nat then ((i + 1 - k)%nat, (j + 1 - k)%nat, k) else best in
        inner_loop i blo bhi j2len js' newj2len best
  end.

(** One round of the outer loop, [for i in range(alo, ahi)].  [a[i]] is
    in range for the calls [get_matching_blocks] makes. *)
Definition outer_step (blo bhi : nat) (st : gmap nat nat * Match) (i : nat)
  : gmap nat nat * Match :=
  let '(j2len, best) := st in
  let js :=
    match a !! i with
    | Some x => default [] (b2j !! x)
    | None => []
    end in
  inner_loop i blo bhi j2len js ∅ best.

(** The first [while]: extend the match to the left. *)
Fixpoint extend_left (alo blo besti bestj bestsize : nat) : Match :=
  match besti with
  | O => (besti, bestj, bestsize)
  | S i' =>
      if (alo <? besti)%nat && (blo <? bestj)%nat
         && bool_decide (is_Some (a !! i') ∧ a !! i' = b !! (bestj - 1)%nat)
      then extend_left alo blo i' (bestj - 1)%nat (bestsize + 1)%nat
      else (besti, bestj, bestsize)
  end.

(** The second [while]: extend it to the right; [n] bounds the rounds by
    the room left, [ahi - (besti + bestsize)]. *)
Fixpoint extend_right (n : nat) (ahi bhi besti bestj bestsize : nat) : nat :=
  match n with
  | O => bestsize
  | S n' =>
      if (besti + bestsize <? ahi)%nat && (bestj + bestsize <? bhi)%nat
         && bool_decide (is_Some (a !! (besti + bestsize)%nat)
                         ∧ a !! (besti + bestsize)%nat = b !! (bestj + bestsize)%nat)
      then extend_right n' ahi bhi besti bestj (bestsize + 1)%nat
      else bestsize
  end.

(** [find_longest_match(alo, ahi, blo, bhi)].  The last two [while] loops
    of the routine extend over junk only, and there is none. *)
Definition find_longest_match (alo ahi blo bhi : nat) : Match :=
  let '(_, (besti, bestj, bestsize)) :=
    foldl (outer_step blo bhi) (∅, (alo, blo, O)) (seq alo (ahi - alo)) in
  let '(besti, bestj, bestsize) := extend_left alo blo besti bestj bestsize in
  let bestsize :=
    extend_right (ahi - (besti + bestsize)) ahi bhi besti bestj bestsize in
  (besti, bestj, bestsize).

(** The [while queue:] loop of [get_matching_blocks].  The queue is the
    Python list used as a stack, top first; [None] when [fuel] rounds do
    not empty it. *)
Fixpoint matching_loop (fuel : nat) (queue : list (nat * nat * nat * nat))
    (matching_blocks : list Match) : option (list Match) :=
  match queue with
  | [] => Some matching_blocks
  | (alo, ahi, blo, bhi) :: queue =>
      match fuel with
      | O => None
      | S fuel' =>
          let '(i, j, k) := find_longest_match alo ahi blo bhi in
          if (k =? 0)%nat then matching_loop fuel' queue matching_blocks
          else
            let queue :=
              if (alo <? i)%nat && (blo <? j)%nat
              then (alo, i, blo, j) :: queue else queue in
            let queue :=
              if (i + k <? ahi)%nat && (j + k <? bhi)%nat
              then ((i + k)%nat, ahi, (j + k)%nat, bhi) :: queue else queue in
            matching_loop fuel' queue (matching_blocks ++ [(i, j, k)])%list
      end
  end.

(** Tuple order of [matching_blocks.sort()]. *)
Definition match_le (x y : Match) : Prop :=
  (x.1.1 < y.1.1)%nat
  ∨ (x.1.1 = y.1.1 ∧ ((x.1.2 < y.1.2)%nat ∨ (x.1.2 = y.1.2 ∧ (x.2 <= y.2)%nat))).

#[local] Instance match_le_dec (x y : Match) : Decision (match_le x y) :=
  ltac:(unfold match_le; apply _).

(** The loop that merges adjacent blocks. *)
Fixpoint collapse (blocks : list Match) (i1 j1 k1 : nat) (non_adjacent : list Match)
  : list Match :=
  match blocks with
  | [] => if (k1 =? 0)%nat then non_adjacent else (non_adjacent ++ [(i1, j1, k1)])%list
  | (i2, j2, k2) :: rest =>
      if (i1 + k1 =? i2)%nat && (j1 + k1 =? j2)%nat
      then collapse rest i1 j1 (k1 + k2)%nat non_adjacent
      else
        collapse rest i2 j2 k2
          (if (k1 =? 0)%nat then non_adjacent else (non_adjacent ++ [(i1, j1, k1)])%list)
  end.

(** [get_matching_blocks()]; a block is examined for every element of [a]
    at most, and an empty range ends its branch, so [2 * len(a) + 1]
    rounds are enough. *)
Definition get_matching_blocks : option (list Match) :=
  let la := length a in
  let lb := length b in
  blocks ← matching_loop (2 * la + 1) [(O, la, O, lb)] [];
  let blocks := merge_sort match_le blocks in
  Some (collapse blocks O O O [] ++ [(la, lb, O)])%list.

(** [_calculate_ratio(matches, length)] *)
Definition calculate_ratio (matches length : nat) : Q :=
  if (length =? 0)%nat then 1%Q
  else Qmake (2 * Z.of_nat matches) (Pos.of_nat length).

(** [ratio()].  The list of blocks is always there: the rounds given to
    the queue loop are enough ([get_matching_blocks_ok] below). *)
Definition ratio : Q :=
  let matches := sum_list (map snd (default [] get_matching_blocks)) in
  calculate_ratio matches (length a + length b).

End SequenceMatcher.

End Difflib.

(** [file_score(title, make, model)] *)
Definition file_score (title make model : string) : Q :=
  let combined := Str.lower (make ++ " " ++ model) in
  Difflib.ratio (list_ascii_of_string combined)
                (list_ascii_of_string (Str.lower title)).

(** ** The world the script runs in *)

(** What an observer sees the script do, in order. *)
Inductive Event : Type :=
| EvPrint (text : string)          (* print(text) *)
| EvInput (prompt : string)        (* input(prompt) *)
| EvSearch (query : string)        (* DDGS().text(query, max_results=15) *)
| EvHead (url : string)            (* requests.head(url, ...) *)
| EvGet (url : string)             (* requests.get(url, ...) *)
| EvOpenWrite (file : string)      (* open(file, "wb") *)
| EvUnlink (file : string)         (* file.unlink(missing_ok=True) *)
| EvBrowser (url : string).        (* webbrowser.open(url) *)

(** The answer to a GET request. *)
Record Response := {
  status_code : Z;
  http_error : string;            (* str of the HTTPError of raise_for_status *)
  chunks : list string;           (* what iter_content(1024) yields *)
  stream_error : option string    (* the exception that ends the stream, if any *)
}.

(** A search result is a dict of strings. *)
Definition SearchResult : Type := gmap string string.

(** The network answers by the number of requests made so far, so that the
    same URL may be answered differently later; the file system holds the
    regular files by name and the names of the directories; [stdin] is
    what the user will type, line by line. *)
Record World := {
  ddgs_text : nat -> string -> result (list SearchResult);
  requests_head : nat -> string -> result Z;
  requests_get : nat -> string -> result Response;
  clock : nat;
  files : gmap string string;
  dirs : gset string;
  stdin : list string;
  trace : list Event
}.

Definition log (e : Event) (w : World) : World :=
  {| ddgs_text := ddgs_text w; requests_head := requests_head w;
     requests_get := requests_get w; clock := clock w; files := files w;
     dirs := dirs w; stdin := stdin w; trace := (trace w ++ [e])%list |}.

Definition tick (w : World) : World :=
  {| ddgs_text := ddgs_text w; requests_head := requests_head w;
     requests_get := requests_get w; clock := S (clock w); files := files w;
     dirs := dirs w; stdin := stdin w; trace := trace w |}.

Definition set_files (f : gmap string string) (w : World) : World :=
  {| ddgs_text := ddgs_text w; requests_head := requests_head w;
     requests_get := requests_get w; clock := clock w; files := f;
     dirs := dirs w; stdin := stdin w; trace := trace w |}.

Definition set_dirs (d : gset string) (w : World) : World :=
  {| ddgs_text := ddgs_text w; requests_head := requests_head w;
     requests_get := requests_get w; clock := clock w; files := files w;
     dirs := d; stdin := stdin w; trace := trace w |}.

Definition set_stdin (l : list string) (w : World) : World :=
  {| ddgs_text := ddgs_text w; requests_head := requests_head w;
     requests_get := requests_get w; clock := clock w; files := files w;
     dirs := dirs w; stdin := l; trace := trace w |}.

(** ** Computations with effects and exceptions *)

Definition M (A : Type) : Type := World -> result A * World.

Definition ret {A} (a : A) : M A := fun w => (Ok a, w).

Definition raise {A} (msg : string) : M A := fun w => (Raise msg, w).

Definition bind {A B} (m : M A) (k : A -> M B) : M B :=
  fun w =>
    match m w with
    | (Ok a, w') => k a w'
    | (Raise e, w') => (Raise e, w')
    end.

(** [try: m  except Exception as e: h(e)] *)
Definition try_except {A} (m : M A) (h : string -> M A) : M A :=
  fun w =>
    match m w with
    | (Ok a, w') => (Ok a, w')
    | (Raise e, w') => h e w'
    end.

Definition lift {A} (r : result A) : M A := fun w => (r, w).

Notation "x <- m ;; k" := (bind m (fun x => k))
  (at level 100, m at next level, right associativity).
Notation "m ;; k" := (bind m (fun _ => k))
  (at level 100, right associativity).

Definition nl : string := String (ascii_of_nat 10) "".
Definition nul : ascii := ascii_of_nat 0.

(** [print(text)] *)
Definition print (text : string) : M unit :=
  fun w => (Ok tt, log (EvPrint text) w).

(** [input(prompt)]: the next line of [stdin], [EOFError] when there is
    none. *)
Definition input (prompt : string) : M string :=
  fun w =>
    let w := log (EvInput prompt) w in
    match stdin w with
    | [] => (Raise "EOF when reading a line", w)
    | line :: rest => (Ok line, set_stdin rest w)
    end.

(** [webbrowser.open(url)] *)
Definition webbrowser_open (url : string) : M unit :=
  fun w => (Ok tt, log (EvBrowser url) w).

(** [list(DDGS().text(query, max_results=15))] *)
Definition search_text (query : string) : M (list SearchResult) :=
  fun w =>
    let w := log (EvSearch query) w in
    (ddgs_text w (clock w) query, tick w).

(** [requests.head(url, timeout=10, allow_redirects=True).status_code] *)
Definition head_status (url : string) : M Z :=
  fun w =>
    let w := log (EvHead url) w in
    (requests_head w (clock w) url, tick w).

(** [requests.get(url, stream=True, timeout=10)] *)
Definition http_get (url : string) : M Response :=
  fun w =>
    let w := log (EvGet url) w in
    (requests_get w (clock w) url, tick w).

(** [r.raise_for_status()]: an error for the statuses 400 to 599. *)
Definition raise_for_status (r : Response) : M unit :=
  if ((400 <=? status_code r) && (status_code r <? 600))%Z
  then raise (http_error r) else ret tt.

Definition is_dir (w : World) (p : Pathlib.Path) : bool :=
  match p with
  | [] => true
  | _ => bool_decide (Pathlib.str p ∈ dirs w)
  end.

(** What [target.mkdir(parents=True, exist_ok=True)] does at [p], an
    ancestor of [target] or [target] itself: a directory that is there is
    kept and a missing one is made; a regular file in the place of
    [target] is [FileExistsError], and one in the place of an ancestor
    makes the [os.mkdir] of [target] fail with [NotADirectoryError]. *)
Definition mkdir_one (target p : Pathlib.Path) : M unit :=
  fun w =>
    if is_dir w p then (Ok tt, w)
    else if bool_decide (is_Some (files w !! Pathlib.str p))
    then
      if bool_decide (p = target)
      then (Raise ("[Errno 17] File exists: '" ++ Pathlib.str target ++ "'"), w)
      else (Raise ("[Errno 20] Not a directory: '" ++ Pathlib.str target ++ "'"), w)
    else (Ok tt, set_dirs ({[Pathlib.str p]} ∪ dirs w) w).

Fixpoint mkdir_all (target : Pathlib.Path) (ps : list Pathlib.Path) : M unit :=
  match ps with
  | [] => ret tt
  | p :: rest => mkdir_one target p ;; mkdir_all target rest
  end.

(** [p.mkdir(parents=True, exist_ok=True)] *)
Definition mkdir_parents (p : Pathlib.Path) : M unit :=
  mkdir_all p (Pathlib.ancestors p).

(** [open(p, "wb")]: the file is created or emptied; a name with a NUL, a
    directory, or a parent that is a regular file or is missing is an
    error.  A [".."] in [p] is taken to step out of a directory that is
    there. *)
Definition open_wb (p : Pathlib.Path) : M string :=
  fun w =>
    let file := Pathlib.key p in
    let w := log (EvOpenWrite file) w in
    if Str.has_char nul file then (Raise "embedded null byte", w)
    else if is_dir w (Pathlib.resolve p)
    then (Raise ("[Errno 21] Is a directory: '" ++ Pathlib.str p ++ "'"), w)
    else if negb (is_dir w (Pathlib.parent p))
    then
      if bool_decide (is_Some (files w !! Pathlib.str (Pathlib.parent p)))
      then (Raise ("[Errno 20] Not a directory: '" ++ Pathlib.str p ++ "'"), w)
      else (Raise ("[Errno 2] No such file or directory: '" ++ Pathlib.str p ++ "'"), w)
    else (Ok file, set_files (<[file := ""]> (files w)) w).

(** [f.write(chunk)] on the file opened as [file]. *)
Definition write (file : string) (chunk : string) : M unit :=
  fun w =>
    (Ok tt, set_files (<[file := default "" (files w !! file) ++ chunk]> (files w)) w).

(** [for chunk in r.iter_content(1024): f.write(chunk)] *)
Fixpoint write_chunks (file : string) (cs : list string) (err : option string) : M unit :=
  match cs with
  | [] =>
      match err with
      | Some e => raise e
      | None => ret tt
      end
  | c :: rest => write file c ;; write_chunks file rest err
  end.

(** [p.unlink(missing_ok=True)] *)
Definition unlink (p : Pathlib.Path) : M unit :=
  fun w =>
    let file := Pathlib.key p in
    let w := log (EvUnlink file) w in
    if is_dir w (Pathlib.resolve p)
    then (Raise ("[Errno 21] Is a directory: '" ++ Pathlib.str p ++ "'"), w)
    else (Ok tt, set_files (delete file (files w)) w).

(** ** The accessibility checker *)

(** [is_accessible_url(url)] *)
Definition is_accessible_url (url : string) : M (bool * option string) :=
  try_except
    (status <- head_status url ;;
     if (status =? 200)%Z then ret (true, None)
     else if (status =? 403)%Z
     then ret (false, Some "🔒 Access forbidden (login required)")
     else if (status =? 404)%Z
     then ret (false, Some "❌ File not found (404)")
     else ret (false, Some ("⚠️ HTTP " ++ Str.of_Z status ++ " returned")))
    (fun e => ret (false, Some ("⚠️ Error checking link: " ++ e))).

(** ** The downloader *)

Definition OUTPUT_DIR : Pathlib.Path := ["mnt"; "data"].

(** [is_valid_pdf(path)]: the file cannot be read when it is not there,
    and then the bare [except] answers [False]. *)
Definition is_valid_pdf (path : Pathlib.Path) (w : World) : bool :=
  match files w !! Pathlib.key path with
  | Some content => String.eqb (Str.take 4 content) "%PDF"
  | None => false
  end.

(** [offer_open_in_browser(url)] *)
Definition offer_open_in_browser (url : string) : M unit :=
  line <- input "🌐 Open the manual link in your browser? (y/n): " ;;
  let answer := Str.lower (Str.strip line) in
  if String.eqb answer "y" then
    webbrowser_open url ;;
    print "🌐 Browser opened."
  else ret tt.

(** The name [download_file] saves under: its lines from [if not filename]
    to [safe_filename = ...]. *)
Definition safe_filename (url : string) (filename : option string) : result string :=
  let step :=
    if negb (Str.truthy_opt filename) then
      match Urllib.urlparse url with
      | Raise e => Raise e
      | Ok p => Ok (Posixpath.basename (Urllib.path p))
      end
    else Ok (default "" filename) in
  match step with
  | Raise e => Raise e
  | Ok filename =>
      let filename :=
        Urllib.unquote (if Str.truthy filename then filename else "manual.pdf") in
      Ok (Str.replace ")" "" (Str.replace "(" "" (Str.replace " " "_" filename)))
  end.

(** [download_file(url, filename)].  The [Content-Type] header the
    function reads is not used afterwards and is left out. *)
Definition download_file (url : string) (filename : option string) : M string :=
  try_except
    (r <- http_get url ;;
     raise_for_status r ;;
     safe_filename <- lift (safe_filename url filename) ;;
     mkdir_parents OUTPUT_DIR ;;
     let path := Pathlib.joinpath OUTPUT_DIR safe_filename in
     f <- open_wb path ;;
     write_chunks f (chunks r) (stream_error r) ;;
     valid <- (fun w => (Ok (is_valid_pdf path w), w)) ;;
     if negb valid then
       print "❌ File downloaded but is NOT a valid PDF (likely a web page)." ;;
       unlink path ;;
       offer_open_in_browser url ;;
       ret "⚠️ Invalid PDF content"
     else ret (Pathlib.key path))
    (fun e => ret ("⚠️ Download failed: " ++ e)).

(** ** The interactive controller *)

(** How one round of the [while True] loop ends. *)
Inductive Step : Type :=
| Continue (make model : option string)
| Return (value : string).

Definition Candidate : Type := Q * string * string.

(** [r.get("href") or r.get("url")] *)
Definition result_url (r : SearchResult) : option string :=
  if Str.truthy_opt (r !! "href") then r !! "href" else r !! "url".

(** [r.get("title") or ""] *)
Definition result_title (r : SearchResult) : string :=
  if Str.truthy_opt (r !! "title") then default "" (r !! "title") else "".

(** The text of [f"{reason}"]. *)
Definition format_reason (reason : option string) : string :=
  default "None" reason.

(** The first [for r in results] loop: the accessible results, scored. *)
Fixpoint score_results (results : list SearchResult) (make model : string)
    (scored : list Candidate) : M (list Candidate) :=
  match results with
  | [] => ret scored
  | r :: rest =>
      let url := result_url r in
      let title := result_title r in
      if negb (Str.truthy_opt url) then score_results rest make model scored
      else
        let url := default "" url in
        probe <- is_accessible_url url ;;
        let '(accessible, reason) := probe in
        if negb accessible then score_results rest make model scored
        else
          d <- lift (domain_score url make) ;;
          let score := (file_score title make model + inject_Z d)%Q in
          score_results rest make model (scored ++ [(score, title, url)])%list
  end.

(** The second [for r in results] loop, run when nothing was scored.  Its
    [continue] resumes this loop, not the [while] loop. *)
Fixpoint report_blocked (results : list SearchResult) (make model : option string)
  : M Step :=
  match results with
  | [] =>
      print "❌ No accessible manuals found." ;;
      ret (Return "❌ No accessible manuals found.")
  | r :: rest =>
      let url := result_url r in
      let title := result_title r in
      if negb (Str.truthy_opt url) then report_blocked rest make model
      else
        let url := default "" url in
        probe <- is_accessible_url url ;;
        let '(accessible, reason) := probe in
        if negb accessible then
          print ("⚠️ Closest result was blocked: " ++ title ++ nl ++ format_reason reason) ;;
          print ("🔗 Raw URL: " ++ url) ;;
          line <- input "🔁 Try a different Make/Model? (y/n): " ;;
          let retry := Str.lower line in
          if String.eqb retry "y" then report_blocked rest None None
          else ret (Return "⚠️ No accessible manuals found. Exiting.")
        else report_blocked rest make model
  end.

(** Tuple order of [scored.sort(reverse=True)]. *)
Definition candidate_lt (x y : Candidate) : bool :=
  let '(s1, t1, u1) := x in
  let '(s2, t2, u2) := y in
  match (s1 ?= s2)%Q with
  | Lt => true
  | Gt => false
  | Eq =>
      match String.compare t1 t2 with
      | Lt => true
      | Gt => false
      | Eq =>
          match String.compare u1 u2 with
          | Lt => true
          | _ => false
          end
      end
  end.

Fixpoint insert_desc (x : Candidate) (l : list Candidate) : list Candidate :=
  match l with
  | [] => [x]
  | y :: l' => if candidate_lt x y then y :: insert_desc x l' else x :: l
  end.

Definition sort_desc (l : list Candidate) : list Candidate :=
  foldr insert_desc [] l.

(** An argument that is [None] or empty is asked for. *)
Definition ask_if_missing (value : option string) (prompt : string) : M string :=
  if negb (Str.truthy_opt value) then
    line <- input prompt ;;
    ret (Str.strip line)
  else ret (default "" value).

(** What follows [scored.sort(reverse=True)] for the best candidate. *)
Definition handle_best (best : Candidate) : M Step :=
  let '(best_score, best_title, best_url) := best in
  let close_match :=
    match (best_score ?= 1 # 2)%Q with
    | Gt => true
    | _ => false
    end in
  print ("✅ Best match: " ++ best_title ++ nl ++ "🔗 " ++ best_url ++ nl) ;;
  if close_match then
    line <- input "📥 Download this manual? (y/n): " ;;
    let confirm := Str.lower line in
    if String.eqb confirm "y" then
      saved <- download_file best_url None ;;
      if Str.startswith "⚠️" saved then
        line <- input "🔁 Try a different Make/Model? (y/n): " ;;
        let retry := Str.lower line in
        if String.eqb retry "y" then ret (Continue None None)
        else ret (Return saved)
      else
        print ("✅ File saved to: " ++ saved) ;;
        ret (Return saved)
    else
      print "📎 Here's the link to check it yourself:" ;;
      print best_url ;;
      offer_open_in_browser best_url ;;
      ret (Return best_url)
  else
    print "⚠️ Could not find an exact match, but this might help:" ;;
    print best_url ;;
    offer_open_in_browser best_url ;;
    ret (Return best_url).

(** One round of the [while True] loop of [find_manual]. *)
Definition find_manual_round (make model : option string) : M Step :=
  make <- ask_if_missing make "Enter the Make (e.g., Trane): " ;;
  model <- ask_if_missing model "Enter the Model (e.g., RTU-1234): " ;;
  let query := make ++ " " ++ model ++ " operations and maintenance manual" in
  print (nl ++ "🔎 Searching for: " ++ query ++ nl) ;;
  results <- search_text query ;;
  match results with
  | [] =>
      let msg := "❌ No results found." in
      print msg ;;
      line <- input "🔁 Try a different Make/Model? (y/n): " ;;
      let retry := Str.lower line in
      if String.eqb retry "y" then ret (Continue None None)
      else ret (Return msg)
  | _ :: _ =>
      scored <- score_results results make model [] ;;
      match scored with
      | [] => report_blocked results (Some make) (Some model)
      | _ :: _ =>
          match sort_desc scored with
          | best :: _ => handle_best best
          | [] => raise "list index out of range"
          end
      end
  end.

(** The [while True] loop, [fuel] rounds of it; [None] when they are used
    up. *)
Fixpoint find_manual_loop (fuel : nat) (make model : option string)
  : World -> option (result string * World) :=
  fun w =>
    match fuel with
    | O => None
    | S fuel' =>
        match find_manual_round make model w with
        | (Raise e, w') => Some (Raise e, w')
        | (Ok (Return v), w') => Some (Ok v, w')
        | (Ok (Continue make' model'), w') => find_manual_loop fuel' make' model' w'
        end
    end.

(** [find_manual(make, model)].  A round that loops has read a line of
    [stdin], so one round more than there are lines is enough. *)
Definition find_manual (make model : option string) (w : World)
  : option (result string * World) :=
  find_manual_loop (S (length (stdin w))) make model w.

(** ** Vocabulary of the statements *)

(** [sub] occurs in [s] as a contiguous run of characters. *)
Definition occurs_in (sub s : string) : Prop :=
  exists pre post, s = pre ++ sub ++ post.

(** [s] ends with [suf]. *)
Definition suffix_of (suf s : string) : Prop :=
  exists pre, s = pre ++ suf.

(** The two bonuses of [domain_score], for a network location. *)
Definition trusted_bonus (domain : string) : Z :=
  if existsb (fun manuf => Str.contains manuf domain) TRUSTED_DOMAINS then 3 else 0.

Definition make_bonus (make domain : string) : Z :=
  if Str.contains (Str.lower make) (Str.lower domain) then 2 else 0.

(** The score as the specification words it: the trusted domains are
    matched as suffixes of the host. *)
Definition spec_domain_score (url make : string) : result Z :=
  match Urllib.urlparse url with
  | Raise e => Raise e
  | Ok p =>
      let host := Urllib.netloc p in
      Ok (3 * Z.b2z (existsb (fun d => Str.endswith d host) TRUSTED_DOMAINS)
          + 2 * Z.b2z (Str.contains (Str.lower make) (Str.lower host)))%Z
  end.

(** What the sanitising step does to one character. *)
Definition sanitize_char (c : ascii) : string :=
  if Ascii.eqb c " " then "_"
  else if Ascii.eqb c "(" || Ascii.eqb c ")" then ""
  else String c "".

Fixpoint sanitize (s : string) : string :=
  match s with
  | EmptyString => EmptyString
  | String c s' => sanitize_char c ++ sanitize s'
  end.

(** The sanitising step as the specification words it: spaces and
    parentheses are stripped. *)
Fixpoint spec_strip (s : string) : string :=
  match s with
  | EmptyString => EmptyString
  | String c s' =>
      if Ascii.eqb c " " || Ascii.eqb c "(" || Ascii.eqb c ")"
      then spec_strip s' else String c (spec_strip s')
  end.

Definition spec_safe_filename (url : string) : result string :=
  match Urllib.urlparse url with
  | Raise e => Raise e
  | Ok p => Ok (spec_strip (Urllib.unquote (Posixpath.basename (Urllib.path p))))
  end.

(** The files a trace opens for writing, and the URLs it downloads. *)
Definition opened (t : list Event) : list string :=
  omap (fun e => match e with EvOpenWrite f => Some f | _ => None end) t.

Definition downloads (t : list Event) : list string :=
  omap (fun e => match e with EvGet u => Some u | _ => None end) t.

(** The content a stream of chunks leaves in the file. *)
Definition body_of (cs : list string) : string := foldr String.append "" cs.

(** [raise_for_status] lets the status pass. *)
Definition status_passes (r : Response) : Prop :=
  (status_code r < 400 \/ 600 <= status_code r)%Z.

(** [w'] continues the run of [w]: its trace extends the trace of [w]. *)
Definition extends (w w' : World) : Prop :=
  exists evs, trace w' = (trace w ++ evs)%list.

(** No line of input has come back. *)
Definition consumes (w w' : World) : Prop :=
  (length (stdin w') <= length (stdin w))%nat.

(** A computation whose final world is always related to its first. *)
Definition respects {A} (R : World -> World -> Prop) (m : M A) : Prop :=
  forall w, R w (m w).2.

(** The run goes on: the trace grows and no input comes back. *)
Definition progress (w w' : World) : Prop := extends w w' /\ consumes w w'.

(** A round that asks for another round has read a line of input. *)
Definition strict (m : M Step) : Prop :=
  forall w,
    consumes w (m w).2
    /\ forall make model,
         (m w).1 = Ok (Continue make model) ->
         (length (stdin (m w).2) < length (stdin w))%nat.

(** The prompts of the controller. *)
Definition make_prompt : string := "Enter the Make (e.g., Trane): ".
Definition model_prompt : string := "Enter the Model (e.g., RTU-1234): ".
Definition download_prompt : string := "📥 Download this manual? (y/n): ".
Definition browser_prompt : string := "🌐 Open the manual link in your browser? (y/n): ".
Definition retry_prompt : string := "🔁 Try a different Make/Model? (y/n): ".

(** The search phrase for a make and a model. *)
Definition query_of (make model : string) : string :=
  make ++ " " ++ model ++ " operations and maintenance manual".

(** The world once the search phrase is printed and the search is made. *)
Definition searched (make model : string) (w : World) : World :=
  tick (log (EvSearch (query_of make model))
          (log (EvPrint (nl ++ "🔎 Searching for: " ++ query_of make model ++ nl)) w)).

(** The combined score of a candidate. *)
Definition score_of (c : Candidate) : Q := c.1.1.

(** The world once the best match is printed. *)
Definition best_shown (best_title best_url : string) (w : World) : World :=
  log (EvPrint ("✅ Best match: " ++ best_title ++ nl ++ "🔗 " ++ best_url ++ nl)) w.

(** What is seen when the user declines the download, when the match is
    weak, and when the user has the browser opened. *)
Definition declined_events (url : string) : list Event :=
  [EvInput download_prompt; EvPrint "📎 Here's the link to check it yourself:";
   EvPrint url; EvInput browser_prompt].

Definition weak_events (url : string) : list Event :=
  [EvPrint "⚠️ Could not find an exact match, but this might help:";
   EvPrint url; EvInput browser_prompt].

Definition browser_events (url : string) : list Event :=
  [EvBrowser url; EvPrint "🌐 Browser opened."].

(** How the browser prompt ends, by what is left to read: the result of
    the round and the events after the prompt. *)
Definition browser_outcome (url : string) (lines : list string)
  : result Step * list Event :=
  match lines with
  | [] => (Raise "EOF when reading a line", [])
  | answer :: _ =>
      (Ok (Return url),
       if (Str.lower (Str.strip answer) =? "y")%string then browser_events url else [])
  end.

(** The invariants of the block matcher.  A row of [j2len] made before
    row [i] holds run lengths that fit between the lower bounds and the
    positions they end at; a block lies within its ranges. *)
Definition j2len_ok (alo blo bhi i : nat) (m : gmap nat nat) : Prop :=
  forall j k, m !! j = Some k ->
    (1 <= k /\ alo + k <= i /\ blo + k <= j + 1 /\ j < bhi)%nat.

Definition block_in (alo ahi blo bhi : nat) (x : Difflib.Match) : Prop :=
  (alo <= x.1.1 /\ x.1.1 + x.2 <= ahi /\ blo <= x.1.2 /\ x.1.2 + x.2 <= bhi)%nat.

Definition range_ok (q : nat * nat * nat * nat) : Prop :=
  let '(alo, ahi, blo, bhi) := q in (alo <= ahi /\ blo <= bhi)%nat.

Definition span_a (q : nat * nat * nat * nat) : nat :=
  let '(alo, ahi, _, _) := q in (ahi - alo)%nat.

Definition span_b (q : nat * nat * nat * nat) : nat :=
  let '(_, _, blo, bhi) := q in (bhi - blo)%nat.

(** The rounds a queue can still cost, and the elements it still covers. *)
Definition queue_weight (queue : list (nat * nat * nat * nat)) : nat :=
  sum_list (map (fun q => (2 * span_a q + 1)%nat) queue).

Definition queue_a (queue : list (nat * nat * nat * nat)) : nat :=
  sum_list (map span_a queue).

Definition queue_b (queue : list (nat * nat * nat * nat)) : nat :=
  sum_list (map span_b queue).

(** The number of matched elements of a list of blocks. *)
Definition total_size (blocks : list Difflib.Match) : nat :=
  sum_list (map snd blocks).

(** The block [x] is a common run of [a] and [b]: from its two starts on,
    the sequences agree element by element over its size. *)
Definition is_match (a b : list ascii) (x : Difflib.Match) : Prop :=
  forall t, (t < x.2)%nat ->
    is_Some (a !! (x.1.1 + t)%nat) /\ a !! (x.1.1 + t)%nat = b !! (x.1.2 + t)%nat.

(** Every run length of a row of [j2len] made before row [i] is the length
    of a common run that ends just before [i] in [a] and at its key in
    [b]. *)
Definition j2len_match (a b : list ascii) (i : nat) (m : gmap nat nat) : Prop :=
  forall j k, m !! j = Some k -> is_match a b ((i - k)%nat, (j + 1 - k)%nat, k).

(** The positions [b2j] lists for an element hold that element. *)
Definition b2j_ok (b : list ascii) (m : gmap ascii (list nat)) : Prop :=
  forall x js j, m !! x = Some js -> In j js -> b !! j = Some x.

(** ** The similarity ratio in the specification's words

    The "longest matching blocks" ratio of two texts: take the longest
    block that the two texts share (of the longest ones, the one that
    starts earliest in the first text, and of those the one that starts
    earliest in the second); count its elements; go on in the same way with
    what is left of the block in both texts, and with what is right of it.
    The ratio is twice the count over the sum of the two lengths. *)




Section SpecRatio.

Variables a b : list ascii.















End SpecRatio.


(** The searches and the probes of a trace, and the files it removes. *)
Definition searches (t : list Event) : list string :=
  omap (fun e => match e with EvSearch q => Some q | _ => None end) t.

Definition heads (t : list Event) : list string :=
  omap (fun e => match e with EvHead u => Some u | _ => None end) t.

Definition unlinked (t : list Event) : list string :=
  omap (fun e => match e with EvUnlink f => Some f | _ => None end) t.

(** No search, no download and no change to a file between two worlds. *)
Definition quiet (w w' : World) : Prop :=
  searches (trace w') = searches (trace w)
  /\ downloads (trace w') = downloads (trace w)
  /\ opened (trace w') = opened (trace w)
  /\ files w' = files w.

(** The URL a search result is probed with: none when it has neither a
    non-empty [href] nor a non-empty [url]. *)
Definition probed_url (r : SearchResult) : option string :=
  if Str.truthy_opt (result_url r) then result_url r else None.

(** The candidate [c] was made from one of [results]: its URL and title
    are those of the result, and its score is the title score plus the
    domain score. *)
Definition scored_from (results : list SearchResult) (make model : string)
    (c : Candidate) : Prop :=
  exists r d,
    In r results
    /\ result_url r = Some c.2 /\ Str.truthy c.2 = true
    /\ c.1.2 = result_title r
    /\ domain_score c.2 make = Ok d
    /\ c.1.1 = (file_score c.1.2 make model + inject_Z d)%Q.

(** The text [download_file] returns for an exception. *)
Definition download_failed (e : string) : string := "⚠️ Download failed: " ++ e.

(** The make and the model are there, given or typed: [mk] and [md], and
    the world is then [w2]. *)
Definition asked (make model : option string) (w : World) (mk md : string)
    (w2 : World) : Prop :=
  exists w1,
    ask_if_missing make make_prompt w = (Ok mk, w1)
    /\ ask_if_missing model model_prompt w1 = (Ok md, w2).

(** The round that starts in [w] ranks its candidates, [best] first, and
    the world is then [w3]. *)
Definition reaches_best (make model : option string) (w : World) (best : Candidate)
    (w3 : World) : Prop :=
  exists mk md w2 results scored others,
    asked make model w mk md w2
    /\ ddgs_text w (clock w) (query_of mk md) = Ok results
    /\ results <> []
    /\ score_results results mk md [] (searched mk md w2) = (Ok scored, w3)
    /\ sort_desc scored = best :: others.

(** The world once the user has answered a prompt. *)
Definition answered (prompt : string) (rest : list string) (w : World) : World :=
  set_stdin rest (log (EvInput prompt) w).

(** A text of white space characters only. *)
Definition blank (s : string) : Prop :=
  exists ws, Forall (fun t => t ∈ Str.whitespace) ws /\ s = Str.join ws.

(** ** Sample worlds *)

Definition sample_result : SearchResult :=
  {[ "href" := "https://www.trane.com/docs/RTU-1234%20manual.pdf";
     "title" := "Trane RTU-1234 manual" ]}.

Definition weak_result : SearchResult :=
  {[ "href" := "https://forum.example.org/thread/77";
     "title" := "Unrelated Page" ]}.

Definition sample_response (body : string) : Response :=
  {| status_code := 200; http_error := ""; chunks := [body]; stream_error := None |}.

(** A world where every probe answers [status], every download yields
    [body], the search yields [results], and the user types [lines]. *)
Definition sample_world (results : list SearchResult) (status : Z) (body : string)
    (lines : list string) : World :=
  {| ddgs_text := fun _ _ => Ok results;
     requests_head := fun _ _ => Ok status;
     requests_get := fun _ _ => Ok (sample_response body);
     clock := 0; files := ∅; dirs := ∅; stdin := lines; trace := [] |}.

(** A world whose network is down. *)
Definition offline_world : World :=
  {| ddgs_text := fun _ _ => Raise "timed out";
     requests_head := fun _ _ => Raise "timed out";
     requests_get := fun _ _ => Raise "timed out";
     clock := 0; files := ∅; dirs := ∅; stdin := []; trace := [] |}.

(** A world whose downloads are answered by [get] and whose probes are
    answered by [status]. *)
Definition world_with (results : list SearchResult) (status : Z)
    (get : result Response) (lines : list string) : World :=
  {| ddgs_text := fun _ _ => Ok results;
     requests_head := fun _ _ => Ok status;
     requests_get := fun _ _ => get;
     clock := 0; files := ∅; dirs := ∅; stdin := lines; trace := [] |}.

(** A download whose stream breaks after the first chunk. *)
Definition broken_response : Response :=
  {| status_code := 200; http_error := ""; chunks := ["%PDF-1.7 first part"];
     stream_error := Some "Connection broken" |}.

(** A download that the server refuses. *)
Definition refused_response : Response :=
  {| status_code := 404;
     http_error := "404 Client Error: Not Found for url: https://www.trane.com/docs/gone.pdf";
     chunks := []; stream_error := None |}.

(** A search result whose URL [urlparse] rejects: a stray bracket in the
    user part of the authority. *)
Definition malformed_result : SearchResult :=
  {[ "href" := "https://user[@www.trane.com/manual.pdf"; "title" := "Broken link" ]}.


(** A search result without a link. *)
Definition linkless_result : SearchResult :=
  {[ "title" := "No link here" ]}.

(** * Properties *)

(** ** Strings *)

Lemma startswith_spec (p s : string) :
  Str.startswith p s = true <-> exists post, s = p ++ post.
Proof.
  revert s. induction p as [|a p IH]; intros s; simpl.
  - split; [intros _; by exists s | done].
  - destruct s as [|b s].
    + split; [done | intros [post H]; discriminate].
    + rewrite andb_true_iff, Ascii.eqb_eq, IH. split.
      * intros [-> [post ->]]. by exists post.
      * intros [post H]. injection H as -> ->. split; [done | by exists post].
Qed.

Lemma contains_spec (sub s : string) :
  Str.contains sub s = true <-> occurs_in sub s.
Proof.
  unfold occurs_in. induction s as [|c s IH].
  - simpl. rewrite orb_false_r, startswith_spec. split.
    + intros [post H]. by exists "", post.
    + intros [pre [post H]]. destruct pre; [by exists post | discriminate].
  - cbn [Str.contains]. rewrite orb_true_iff, startswith_spec, IH. split.
    + intros [[post H] | [pre [post H]]].
      * by exists "", post.
      * exists (String c pre), post. simpl. by rewrite H.
    + intros [pre [post H]]. destruct pre as [|d pre].
      * left. by exists post.
      * right. simpl in H. injection H as _ H. by exists pre, post.
Qed.

Lemma append_cons (c : ascii) (s t : string) : String c s ++ t = String c (s ++ t).
Proof. reflexivity. Qed.

Lemma append_empty_r (s : string) : s ++ "" = s.
Proof. induction s as [|c s IH]; [done | by rewrite append_cons, IH]. Qed.

Lemma append_assoc (s t u : string) : (s ++ t) ++ u = s ++ t ++ u.
Proof. induction s as [|c s IH]; [done | by rewrite !append_cons, IH]. Qed.

Lemma contains_middle (pre sub post : string) :
  Str.contains sub (pre ++ sub ++ post) = true.
Proof. apply contains_spec. by exists pre, post. Qed.

Lemma endswith_spec (suf s : string) :
  Str.endswith suf s = true <-> suffix_of suf s.
Proof.
  unfold suffix_of. induction s as [|c s IH].
  - simpl. rewrite orb_false_r, String.eqb_eq. split.
    + intros ->. by exists "".
    + intros [pre H]. destruct pre; [done | discriminate].
  - cbn [Str.endswith]. rewrite orb_true_iff, String.eqb_eq, IH. split.
    + intros [-> | [pre ->]]; [by exists "" | by exists (String c pre)].
    + intros [pre H]. destruct pre as [|d pre].
      * by left.
      * right. simpl in H. injection H as _ H. by exists pre.
Qed.

(** ** The scorer: [domain_score] *)

Lemma domain_score_bonuses (url make : string) (p : Urllib.ParseResult) :
  Urllib.urlparse url = Ok p ->
  domain_score url make
  = Ok (trusted_bonus (Urllib.netloc p) + make_bonus make (Urllib.netloc p))%Z.
Proof.
  intros Hp. unfold domain_score, trusted_bonus, make_bonus. rewrite Hp.
  destruct (existsb _ TRUSTED_DOMAINS), (Str.contains _ _); reflexivity.
Qed.

Lemma trusted_match_spec (domain : string) :
  existsb (fun manuf => Str.contains manuf domain) TRUSTED_DOMAINS = true
  <-> exists d, In d TRUSTED_DOMAINS /\ occurs_in d domain.
Proof.
  rewrite existsb_exists. split; intros [d [Hd H]]; exists d; split; try done;
    by apply contains_spec.
Qed.

(** C1, as amended.  For every URL that [urlparse] accepts,
    [domain_score(url, make)] is 3 times [some entry of the trusted list
    occurs somewhere in the network location of the URL] plus 2 times [the
    lowercase make occurs in the lowercase network location]; so a trusted
    match adds exactly 3, a make match exactly 2, both 5.  A URL that
    [urlparse] rejects makes the function raise.  The function is pure: it
    takes and returns values only. *)
Theorem domain_score_value (url make : string) :
  (forall p, Urllib.urlparse url = Ok p ->
     exists t m : bool,
       domain_score url make = Ok (3 * Z.b2z t + 2 * Z.b2z m)%Z
       /\ (t = true <->
           exists d, In d TRUSTED_DOMAINS /\ occurs_in d (Urllib.netloc p))
       /\ (m = true <->
           occurs_in (Str.lower make) (Str.lower (Urllib.netloc p))))
  /\ (forall e, Urllib.urlparse url = Raise e -> domain_score url make = Raise e).
Proof.
  split.
  - intros p Hp.
    exists (existsb (fun manuf => Str.contains manuf (Urllib.netloc p)) TRUSTED_DOMAINS),
      (Str.contains (Str.lower make) (Str.lower (Urllib.netloc p))).
    split; [|split].
    + unfold domain_score. rewrite Hp.
      destruct (existsb _ TRUSTED_DOMAINS), (Str.contains _ _); reflexivity.
    + apply trusted_match_spec.
    + apply contains_spec.
  - intros e He. unfold domain_score. by rewrite He.
Qed.

Lemma domain_score_value_witness :
  exists t m : bool,
    domain_score "https://www.trane.com/docs/manual.pdf" "Trane"
    = Ok (3 * Z.b2z t + 2 * Z.b2z m)%Z
    /\ (t = true <->
        exists d, In d TRUSTED_DOMAINS /\ occurs_in d "www.trane.com")
    /\ (m = true <-> occurs_in (Str.lower "Trane") (Str.lower "www.trane.com")).
Proof.
  exact (proj1 (domain_score_value "https://www.trane.com/docs/manual.pdf" "Trane")
               _ eq_refl).
Defined.

(** C1, as the specification states it, fails: a trusted domain in the
    middle of the host earns the 3 points although the host does not end
    with it. *)
Lemma domain_score_not_suffix_match :
  domain_score "https://www.trane.com.evil.example/manual.pdf" "acme" = Ok 3%Z
  /\ spec_domain_score "https://www.trane.com.evil.example/manual.pdf" "acme" = Ok 0%Z
  /\ ~ (forall url make, domain_score url make = spec_domain_score url make).
Proof.
  split; [reflexivity | split; [reflexivity |]].
  intros H.
  specialize (H "https://www.trane.com.evil.example/manual.pdf" "acme").
  vm_compute in H. discriminate.
Qed.

(** C9.  The trusted-domain bonus needs an entry of the list, all of them
    lowercase, to occur in the network location letter for letter, so
    ["WWW.TRANE.COM"] earns nothing; the make bonus depends on the make and
    the network location only up to letter case; and two URLs that differ
    in the case of the host only score 2 and 5. *)
Theorem trusted_bonus_case_sensitive :
  (forall url make p, Urllib.urlparse url = Ok p ->
     domain_score url make
     = Ok (trusted_bonus (Urllib.netloc p) + make_bonus make (Urllib.netloc p))%Z)
  /\ (forall domain,
        (trusted_bonus domain = 3%Z /\
         exists d, In d TRUSTED_DOMAINS /\ occurs_in d domain)
        \/ (trusted_bonus domain = 0%Z /\
            ~ exists d, In d TRUSTED_DOMAINS /\ occurs_in d domain))
  /\ (forall d, In d TRUSTED_DOMAINS -> Str.lower d = d)
  /\ trusted_bonus "WWW.TRANE.COM" = 0%Z
  /\ trusted_bonus "www.trane.com" = 3%Z
  /\ (forall make1 make2 domain1 domain2,
        Str.lower make1 = Str.lower make2 ->
        Str.lower domain1 = Str.lower domain2 ->
        make_bonus make1 domain1 = make_bonus make2 domain2)
  /\ Str.lower "https://WWW.TRANE.COM/manual.pdf" = "https://www.trane.com/manual.pdf"
  /\ domain_score "https://WWW.TRANE.COM/manual.pdf" "Trane" = Ok 2%Z
  /\ domain_score "https://www.trane.com/manual.pdf" "Trane" = Ok 5%Z.
Proof.
  split; [exact domain_score_bonuses |].
  split.
  { intros domain. unfold trusted_bonus.
    destruct (existsb _ TRUSTED_DOMAINS) eqn:E.
    - left. split; [done |]. by apply trusted_match_spec.
    - right. split; [done |]. intros H. apply trusted_match_spec in H. congruence. }
  split.
  { intros d Hd. simpl in Hd.
    repeat (destruct Hd as [<- | Hd]; [reflexivity |]). destruct Hd. }
  split; [reflexivity |]. split; [reflexivity |].
  split.
  { intros make1 make2 domain1 domain2 Hm Hd. unfold make_bonus. by rewrite Hm, Hd. }
  split; [reflexivity |]. split; reflexivity.
Qed.

Lemma trusted_bonus_case_sensitive_witness :
  domain_score "https://WWW.TRANE.COM/manual.pdf" "TRANE"
  = Ok (trusted_bonus "WWW.TRANE.COM" + make_bonus "TRANE" "WWW.TRANE.COM")%Z
  /\ make_bonus "TRANE" "WWW.TRANE.COM" = make_bonus "trane" "www.trane.com".
Proof.
  destruct trusted_bonus_case_sensitive as (Hscore & _ & _ & _ & _ & Hmake & _).
  split.
  - exact (Hscore "https://WWW.TRANE.COM/manual.pdf" "TRANE" _ eq_refl).
  - apply Hmake; reflexivity.
Defined.

(** ** PDF validation: [is_valid_pdf] *)

Lemma take_length (n : nat) (s : string) :
  String.length (Str.take n s) = Nat.min n (String.length s).
Proof.
  revert s. induction n as [|n IH]; intros [|c s]; simpl; try done.
  by rewrite IH.
Qed.

Lemma take4_signature (content : string) :
  Str.take 4 content = "%PDF" <-> exists rest, content = "%PDF" ++ rest.
Proof.
  split.
  - destruct content as [|c1 [|c2 [|c3 [|c4 rest]]]]; simpl; try discriminate.
    intros H. injection H as -> -> -> ->. by exists rest.
  - intros [rest ->]. reflexivity.
Qed.

(** C2.  [is_valid_pdf(path)] is true exactly when the file is there and
    its first four bytes are [%PDF]; it is false for an empty file, for a
    page that starts with [<htm], for a file of fewer than four bytes, and
    for a file that cannot be opened. *)
Theorem is_valid_pdf_signature (path : Pathlib.Path) (w : World) :
  (is_valid_pdf path w = true <->
   exists content, files w !! Pathlib.key path = Some content
                   /\ Str.take 4 content = "%PDF")
  /\ (is_valid_pdf path w = true <->
      exists rest, files w !! Pathlib.key path = Some ("%PDF" ++ rest))
  /\ (files w !! Pathlib.key path = Some "" -> is_valid_pdf path w = false)
  /\ (forall content,
        files w !! Pathlib.key path = Some content ->
        Str.startswith "<htm" content = true -> is_valid_pdf path w = false)
  /\ (forall content,
        files w !! Pathlib.key path = Some content ->
        (String.length content < 4)%nat -> is_valid_pdf path w = false)
  /\ (files w !! Pathlib.key path = None -> is_valid_pdf path w = false).
Proof.
  unfold is_valid_pdf.
  assert (Hiff : match files w !! Pathlib.key path with
                 | Some content => (Str.take 4 content =? "%PDF")%string
                 | None => false
                 end = true <->
                 exists content, files w !! Pathlib.key path = Some content
                                 /\ Str.take 4 content = "%PDF").
  { destruct (files w !! Pathlib.key path) as [content|].
    - rewrite String.eqb_eq. split; [intros H; by exists content |].
      intros [c [Hc H]]. by injection Hc as ->.
    - split; [done | intros [c [Hc _]]; discriminate]. }
  split; [exact Hiff |]. split.
  { rewrite Hiff. split.
    - intros [content [Hc H]]. apply take4_signature in H as [rest ->]. by exists rest.
    - intros [rest H]. exists ("%PDF" ++ rest). split; [done | reflexivity]. }
  split; [intros ->; reflexivity |]. split.
  { intros content -> H. apply startswith_spec in H as [post ->]. reflexivity. }
  split.
  { intros content -> Hlen. apply String.eqb_neq. intros H.
    apply (f_equal String.length) in H. rewrite take_length in H.
    change (String.length "%PDF") with 4%nat in H. lia. }
  intros ->. reflexivity.
Qed.

Lemma is_valid_pdf_signature_witness :
  is_valid_pdf ["mnt"; "data"; "page.pdf"]
    (set_files {[ "/mnt/data/page.pdf" := "<html><body>Sign in</body></html>" ]} offline_world)
  = false
  /\ is_valid_pdf ["mnt"; "data"; "cut.pdf"]
       (set_files {[ "/mnt/data/cut.pdf" := "%PD" ]} offline_world)
     = false
  /\ is_valid_pdf ["mnt"; "data"; "empty.pdf"]
       (set_files {[ "/mnt/data/empty.pdf" := "" ]} offline_world)
     = false.
Proof.
  split; [|split].
  - apply (proj1 (proj2 (proj2 (proj2 (is_valid_pdf_signature _ _))))
             "<html><body>Sign in</body></html>"); reflexivity.
  - apply (proj1 (proj2 (proj2 (proj2 (proj2 (is_valid_pdf_signature _ _)))))
             "%PD"); [reflexivity | simpl; lia].
  - apply (proj1 (proj2 (proj2 (is_valid_pdf_signature _ _)))). reflexivity.
Defined.

(** ** The accessibility checker: [is_accessible_url] *)

(** C4.  [is_accessible_url(url)] makes one HEAD request and answers
    [(True, None)] on status 200, [(False, reason)] with a reason that
    names the forbidden access on 403, one that contains [404] on 404, one
    that contains the status code on any other status, and [(False,
    reason)] with the text of the exception when the request raises; it
    never raises itself. *)
Theorem is_accessible_url_cases (url : string) (w : World) :
  let probe := requests_head w (clock w) url in
  let w' := tick (log (EvHead url) w) in
  (probe = Ok 200%Z -> is_accessible_url url w = (Ok (true, None), w'))
  /\ (probe = Ok 403%Z ->
      exists reason, is_accessible_url url w = (Ok (false, Some reason), w')
                     /\ occurs_in "forbidden" reason)
  /\ (probe = Ok 404%Z ->
      exists reason, is_accessible_url url w = (Ok (false, Some reason), w')
                     /\ occurs_in "404" reason)
  /\ (forall status, probe = Ok status ->
        status <> 200%Z -> status <> 403%Z -> status <> 404%Z ->
        exists reason, is_accessible_url url w = (Ok (false, Some reason), w')
                       /\ occurs_in (Str.of_Z status) reason)
  /\ (forall e, probe = Raise e ->
        exists reason, is_accessible_url url w = (Ok (false, Some reason), w')
                       /\ occurs_in e reason)
  /\ (exists answer, is_accessible_url url w = (Ok answer, w')).
Proof.
  intros probe w'.
  assert (Hrun : is_accessible_url url w
                 = match probe with
                   | Ok status =>
                       if (status =? 200)%Z then (Ok (true, None), w')
                       else if (status =? 403)%Z
                       then (Ok (false, Some "🔒 Access forbidden (login required)"), w')
                       else if (status =? 404)%Z
                       then (Ok (false, Some "❌ File not found (404)"), w')
                       else (Ok (false, Some ("⚠️ HTTP " ++ Str.of_Z status ++ " returned")), w')
                   | Raise e => (Ok (false, Some ("⚠️ Error checking link: " ++ e)), w')
                   end).
  { unfold is_accessible_url, try_except, bind, head_status. simpl.
    fold probe. destruct probe as [status | e]; [| reflexivity].
    destruct (status =? 200)%Z; [reflexivity |].
    destruct (status =? 403)%Z; [reflexivity |].
    destruct (status =? 404)%Z; reflexivity. }
  rewrite Hrun. repeat split.
  - intros ->. reflexivity.
  - intros ->. eexists. split; [reflexivity |]. by apply contains_spec.
  - intros ->. eexists. split; [reflexivity |]. by apply contains_spec.
  - intros status -> H200 H403 H404.
    apply Z.eqb_neq in H200, H403, H404. rewrite H200, H403, H404.
    eexists. split; [reflexivity |]. by exists "⚠️ HTTP ", " returned".
  - intros e ->. eexists. split; [reflexivity |].
    exists "⚠️ Error checking link: ", "". by rewrite append_empty_r.
  - destruct probe as [status | e]; [| by eexists].
    destruct (status =? 200)%Z; [by eexists |].
    destruct (status =? 403)%Z; [by eexists |].
    destruct (status =? 404)%Z; by eexists.
Qed.

Lemma is_accessible_url_cases_witness :
  (exists reason,
     is_accessible_url "https://www.trane.com/docs/manual.pdf"
       (sample_world [] 404 "" [])
     = (Ok (false, Some reason),
        tick (log (EvHead "https://www.trane.com/docs/manual.pdf")
                  (sample_world [] 404 "" [])))
     /\ occurs_in "404" reason)
  /\ is_accessible_url "https://www.trane.com/docs/manual.pdf"
       (sample_world [] 200 "" [])
     = (Ok (true, None),
        tick (log (EvHead "https://www.trane.com/docs/manual.pdf")
                  (sample_world [] 200 "" [])))
  /\ (exists reason,
        is_accessible_url "https://www.trane.com/docs/manual.pdf"
          (sample_world [] 503 "" [])
        = (Ok (false, Some reason),
           tick (log (EvHead "https://www.trane.com/docs/manual.pdf")
                     (sample_world [] 503 "" [])))
        /\ occurs_in "503" reason)
  /\ (exists reason,
        is_accessible_url "https://www.trane.com/docs/manual.pdf" offline_world
        = (Ok (false, Some reason),
           tick (log (EvHead "https://www.trane.com/docs/manual.pdf") offline_world))
        /\ occurs_in "timed out" reason).
Proof.
  split; [|split; [|split]].
  - apply (proj1 (proj2 (proj2
             (is_accessible_url_cases "https://www.trane.com/docs/manual.pdf"
                (sample_world [] 404 "" []))))). reflexivity.
  - apply (proj1
             (is_accessible_url_cases "https://www.trane.com/docs/manual.pdf"
                (sample_world [] 200 "" []))). reflexivity.
  - apply (proj1 (proj2 (proj2 (proj2
             (is_accessible_url_cases "https://www.trane.com/docs/manual.pdf"
                (sample_world [] 503 "" [])))) ) 503%Z); [reflexivity | lia | lia | lia].
  - apply (proj1 (proj2 (proj2 (proj2 (proj2
             (is_accessible_url_cases "https://www.trane.com/docs/manual.pdf"
                offline_world))))) "timed out"). reflexivity.
Defined.


(** ** The file system and the console *)

Lemma set_files_id (w : World) : set_files (files w) w = w.
Proof. by destruct w. Qed.

Lemma set_dirs_id (w : World) : set_dirs (dirs w) w = w.
Proof. by destruct w. Qed.

Lemma bind_ok_inv {A B} (m : M A) (k : A -> M B) (w w2 : World) (b : B) :
  (x <- m ;; k x) w = (Ok b, w2) ->
  exists a w1, m w = (Ok a, w1) /\ k a w1 = (Ok b, w2).
Proof.
  unfold bind. destruct (m w) as [[a | e] w1]; [| discriminate].
  intros H. by exists a, w1.
Qed.

Lemma str_starts_with_slash (p : Pathlib.Path) :
  Str.startswith "/" (Pathlib.str p) = true.
Proof. destruct p; reflexivity. Qed.

Lemma mkdir_one_inv (target p : Pathlib.Path) (w w' : World) :
  mkdir_one target p w = (Ok tt, w') ->
  exists d, w' = set_dirs d w /\ dirs w ⊆ d.
Proof.
  unfold mkdir_one. destruct (is_dir w p).
  - intros [= <-]. exists (dirs w). by rewrite set_dirs_id.
  - case_bool_decide; [case_bool_decide; discriminate |]. intros [= <-].
    eexists. split; [reflexivity | set_solver].
Qed.

Lemma mkdir_one_raise (target p : Pathlib.Path) (w w' : World) (e : string) :
  mkdir_one target p w = (Raise e, w') -> w' = w.
Proof.
  unfold mkdir_one. destruct (is_dir w p); [discriminate |].
  case_bool_decide; [| discriminate]. case_bool_decide; by intros [= _ <-].
Qed.

Lemma mkdir_all_inv (target : Pathlib.Path) (ps : list Pathlib.Path) (w w' : World) :
  mkdir_all target ps w = (Ok tt, w') ->
  exists d, w' = set_dirs d w /\ dirs w ⊆ d.
Proof.
  revert w. induction ps as [|p ps IH]; intros w; cbn [mkdir_all].
  - intros [= <-]. exists (dirs w). by rewrite set_dirs_id.
  - intros H. apply bind_ok_inv in H as ([] & w1 & H1 & H2).
    apply mkdir_one_inv in H1 as (d1 & -> & Hd1).
    apply IH in H2 as (d2 & -> & Hd2).
    exists d2. split; [reflexivity | set_solver].
Qed.

Lemma mkdir_all_raise (target : Pathlib.Path) (ps : list Pathlib.Path)
    (w w' : World) (e : string) :
  mkdir_all target ps w = (Raise e, w') ->
  trace w' = trace w /\ stdin w' = stdin w.
Proof.
  revert w. induction ps as [|p ps IH]; intros w; cbn [mkdir_all].
  - discriminate.
  - unfold bind. destruct (mkdir_one target p w) as [[[] | e1] w1] eqn:E1.
    + apply mkdir_one_inv in E1 as (d1 & -> & _). intros H. by apply IH in H.
    + intros [= _ <-]. by apply mkdir_one_raise in E1 as ->.
Qed.

Lemma open_wb_inv (p : Pathlib.Path) (w w' : World) (f : string) :
  open_wb p w = (Ok f, w') ->
  f = Pathlib.key p
  /\ is_dir w (Pathlib.resolve p) = false
  /\ w' = set_files (<[Pathlib.key p := ""]> (files w)) (log (EvOpenWrite (Pathlib.key p)) w).
Proof.
  unfold open_wb.
  destruct (Str.has_char nul (Pathlib.key p)); [discriminate |].
  change (is_dir (log (EvOpenWrite (Pathlib.key p)) w)) with (is_dir w).
  destruct (is_dir w (Pathlib.resolve p)); [discriminate |].
  destruct (is_dir w (Pathlib.parent p)); [| cbn [negb]; case_bool_decide; discriminate].
  by intros [= <- <-].
Qed.

Lemma write_chunks_ok (file : string) (cs : list string) (w : World) (old : string) :
  files w !! file = Some old ->
  write_chunks file cs None w
  = (Ok tt, set_files (<[file := old ++ body_of cs]> (files w)) w).
Proof.
  revert w old. induction cs as [|c cs IH]; intros w old Hold; cbn [write_chunks body_of foldr].
  - rewrite append_empty_r, insert_id by done. by rewrite set_files_id.
  - unfold bind, write at 1. rewrite Hold. cbn [default].
    erewrite IH by apply lookup_insert_eq.
    cbn [files set_files]. by rewrite insert_insert_eq, append_assoc.
Qed.

Lemma write_chunks_trace (file : string) (cs : list string) (err : option string)
    (w : World) :
  trace (write_chunks file cs err w).2 = trace w.
Proof.
  revert w. induction cs as [|c cs IH]; intros w; cbn [write_chunks].
  - by destruct err.
  - unfold bind, write at 1. by rewrite IH.
Qed.

(** What [offer_open_in_browser] does, by what the user types. *)
Lemma offer_open_in_browser_cases (url : string) (w : World) :
  let asked := log (EvInput "🌐 Open the manual link in your browser? (y/n): ") w in
  offer_open_in_browser url w
  = match stdin w with
    | [] => (Raise "EOF when reading a line", asked)
    | line :: rest =>
        if (Str.lower (Str.strip line) =? "y")%string
        then (Ok tt, log (EvPrint "🌐 Browser opened.")
                       (log (EvBrowser url) (set_stdin rest asked)))
        else (Ok tt, set_stdin rest asked)
    end.
Proof.
  unfold offer_open_in_browser, bind, input. cbn [stdin log].
  destruct (stdin w) as [|line rest]; [reflexivity |].
  by destruct (Str.lower (Str.strip line) =? "y")%string.
Qed.

Lemma offer_open_in_browser_frame (url : string) (w : World) :
  let w' := (offer_open_in_browser url w).2 in
  files w' = files w /\ dirs w' = dirs w
  /\ exists tail,
       trace w' = (trace w ++ EvInput "🌐 Open the manual link in your browser? (y/n): "
                          :: tail)%list
       /\ (tail = [] \/ tail = [EvBrowser url; EvPrint "🌐 Browser opened."]).
Proof.
  rewrite offer_open_in_browser_cases.
  destruct (stdin w) as [|line rest]; cbn.
  - repeat split. exists []. split; [done | by left].
  - destruct (Str.lower (Str.strip line) =? "y")%string; cbn.
    + repeat split. eexists. split; [| by right]. by rewrite <- !app_assoc.
    + repeat split. exists []. split; [done | by left].
Qed.

(** ** The downloader: [download_file] *)

Lemma raise_for_status_passes (r : Response) (w : World) :
  status_passes r -> raise_for_status r w = (Ok tt, w).
Proof.
  unfold status_passes, raise_for_status. intros H.
  destruct (400 <=? status_code r)%Z eqn:E1, (status_code r <? 600)%Z eqn:E2;
    try reflexivity.
  apply Z.leb_le in E1. apply Z.ltb_lt in E2. lia.
Qed.

Lemma is_dir_dirs (w w' : World) (p : Pathlib.Path) :
  dirs w = dirs w' -> is_dir w p = is_dir w' p.
Proof. intros H. unfold is_dir. by rewrite H. Qed.

(** C3.  When the GET request succeeds, its status passes
    [raise_for_status], the stream ends normally and the file could be
    opened and written, but the content does not start with [%PDF], then
    [download_file] removes the file and returns a string that begins with
    the warning glyph and is the text of no path: ["⚠️ Invalid PDF content"],
    or the text of the [except] branch when the browser prompt cannot read
    an answer. *)
Theorem download_file_invalid_pdf (url : string) (filename : option string) (w : World)
    (r : Response) (name f : string) (w2 : World) :
  requests_get w (clock w) url = Ok r ->
  status_passes r ->
  stream_error r = None ->
  safe_filename url filename = Ok name ->
  let path := Pathlib.joinpath OUTPUT_DIR name in
  (mkdir_parents OUTPUT_DIR ;; open_wb path) (tick (log (EvGet url) w)) = (Ok f, w2) ->
  Str.take 4 (body_of (chunks r)) <> "%PDF" ->
  exists msg w',
    download_file url filename w = (Ok msg, w')
    /\ Str.startswith "⚠️" msg = true
    /\ (forall p, msg <> Pathlib.str p)
    /\ (stdin w <> [] -> msg = "⚠️ Invalid PDF content")
    /\ files w' !! Pathlib.key path = None
    /\ In (EvUnlink (Pathlib.key path)) (trace w').
Proof.
  intros Hget Hst Hstream Hname path Hopen Hsig.
  apply bind_ok_inv in Hopen as ([] & w1 & Hmk & Hop).
  pose proof Hop as Hop'. apply open_wb_inv in Hop' as (-> & Hnodir & ->).
  pose proof Hmk as Hmk'. apply mkdir_all_inv in Hmk' as (d & Hw1 & Hd).
  unfold download_file, try_except.
  unfold bind at 1. unfold http_get at 1. cbn [requests_get log clock]. rewrite Hget.
  unfold bind at 1. rewrite raise_for_status_passes by done.
  unfold bind at 1. unfold lift at 1. rewrite Hname.
  unfold bind at 1. rewrite Hmk.
  unfold bind at 1. fold path. rewrite Hop.
  unfold bind at 1. rewrite Hstream.
  rewrite (write_chunks_ok _ _ _ "") by apply lookup_insert_eq.
  unfold bind at 1. unfold is_valid_pdf at 1. cbn [files set_files].
  rewrite insert_insert_eq, lookup_insert_eq.
  change ("" ++ body_of (chunks r)) with (body_of (chunks r)).
  apply String.eqb_neq in Hsig. rewrite Hsig. cbn [negb].
  unfold bind at 1. unfold print at 1.
  unfold bind at 1. unfold unlink at 1.
  rewrite (is_dir_dirs _ w1) by reflexivity. rewrite Hnodir.
  unfold bind at 1. rewrite offer_open_in_browser_cases.
  cbn [stdin log set_files files]. subst w1. cbn [stdin set_dirs tick log].
  assert (Hnopath : forall (msg : string) (p : Pathlib.Path),
             Str.startswith "/" msg = false -> msg <> Pathlib.str p).
  { intros msg p Hmsg ->. by rewrite str_starts_with_slash in Hmsg. }
  destruct (stdin w) as [|line rest].
  - do 2 eexists. split; [reflexivity |]. cbn [trace files log set_files].
    split; [reflexivity |]. split; [intros p; by apply Hnopath |]. split; [done |].
    split; [apply lookup_delete_eq |].
    rewrite !in_app_iff. left. right. by left.
  - destruct (Str.lower (Str.strip line) =? "y")%string.
    + do 2 eexists. split; [reflexivity |]. cbn [trace files log set_files set_stdin].
      split; [reflexivity |]. split; [intros p; by apply Hnopath |]. split; [done |].
      split; [apply lookup_delete_eq |].
      rewrite !in_app_iff. do 3 left. right. by left.
    + do 2 eexists. split; [reflexivity |]. cbn [trace files log set_files set_stdin].
      split; [reflexivity |]. split; [intros p; by apply Hnopath |]. split; [done |].
      split; [apply lookup_delete_eq |].
      rewrite !in_app_iff. left. right. by left.
Qed.

Lemma download_file_invalid_pdf_witness :
  exists msg w',
    download_file "https://www.trane.com/docs/RTU-1234%20manual.pdf" None
      (sample_world [] 200 "<html><body>Sign in</body></html>" ["n"])
    = (Ok msg, w')
    /\ Str.startswith "⚠️" msg = true
    /\ (forall p, msg <> Pathlib.str p)
    /\ (["n"] <> [] -> msg = "⚠️ Invalid PDF content")
    /\ files w' !! "/mnt/data/RTU-1234_manual.pdf" = None
    /\ In (EvUnlink "/mnt/data/RTU-1234_manual.pdf") (trace w').
Proof.
  eapply (download_file_invalid_pdf
            "https://www.trane.com/docs/RTU-1234%20manual.pdf" None
            (sample_world [] 200 "<html><body>Sign in</body></html>" ["n"])
            (sample_response "<html><body>Sign in</body></html>")
            "RTU-1234_manual.pdf").
  - reflexivity.
  - left. simpl. lia.
  - reflexivity.
  - reflexivity.
  - reflexivity.
  - discriminate.
Defined.

Lemma append_empty_l (s : string) : "" ++ s = s.
Proof. reflexivity. Qed.

Lemma replace_sanitize (s : string) :
  Str.replace ")" "" (Str.replace "(" "" (Str.replace " " "_" s)) = sanitize s.
Proof.
  induction s as [|c s IH]; [reflexivity |].
  cbn [Str.replace sanitize]. unfold sanitize_char.
  destruct (Ascii.eqb " " c) eqn:E1.
  - apply Ascii.eqb_eq in E1 as <-.
    rewrite append_cons, append_empty_l. cbn [Str.replace Ascii.eqb Bool.eqb].
    cbn [andb]. by rewrite IH.
  - rewrite (Ascii.eqb_sym c " "), E1. cbn [Str.replace].
    destruct (Ascii.eqb "(" c) eqn:E2.
    + apply Ascii.eqb_eq in E2 as <-. cbn [orb Ascii.eqb Bool.eqb andb].
      by rewrite !append_empty_l, IH.
    + rewrite (Ascii.eqb_sym c "("), E2. cbn [Str.replace orb].
      destruct (Ascii.eqb ")" c) eqn:E3.
      * apply Ascii.eqb_eq in E3 as <-. cbn [Ascii.eqb Bool.eqb andb].
        by rewrite !append_empty_l, IH.
      * rewrite (Ascii.eqb_sym c ")"), E3. by rewrite append_cons, append_empty_l, IH.
Qed.

Lemma sanitize_clean (c : ascii) (s : string) :
  In c [" "; "("; ")"]%char -> Str.has_char c (sanitize s) = false.
Proof.
  intros Hc. induction s as [|d s IH]; [reflexivity |].
  cbn [sanitize]. unfold sanitize_char.
  destruct (Ascii.eqb d " ") eqn:E1.
  - rewrite append_cons, append_empty_l. cbn [Str.has_char]. rewrite IH.
    destruct Hc as [<- | [<- | [<- | []]]]; reflexivity.
  - destruct (Ascii.eqb d "(") eqn:E2; [by rewrite append_empty_l |].
    destruct (Ascii.eqb d ")") eqn:E3; [by rewrite append_empty_l |].
    cbn [orb]. rewrite append_cons, append_empty_l. cbn [Str.has_char]. rewrite IH.
    destruct Hc as [<- | [<- | [<- | []]]]; rewrite Ascii.eqb_sym;
      by rewrite ?E1, ?E2, ?E3.
Qed.

Lemma opened_app (t1 t2 : list Event) : opened (t1 ++ t2) = (opened t1 ++ opened t2)%list.
Proof. apply omap_app. Qed.

Lemma open_wb_trace (p : Pathlib.Path) (w : World) :
  trace (open_wb p w).2 = (trace w ++ [EvOpenWrite (Pathlib.key p)])%list.
Proof.
  unfold open_wb.
  destruct (Str.has_char nul (Pathlib.key p)); [reflexivity |].
  destruct (is_dir _ (Pathlib.resolve p)); [reflexivity |].
  destruct (is_dir _ (Pathlib.parent p)); [reflexivity |].
  cbn [negb]. by case_bool_decide.
Qed.

Lemma mkdir_all_trace (target : Pathlib.Path) (ps : list Pathlib.Path) (w : World) :
  trace (mkdir_all target ps w).2 = trace w.
Proof.
  destruct (mkdir_all target ps w) as [[[] | e] w'] eqn:E.
  - apply mkdir_all_inv in E as (d & -> & _). reflexivity.
  - by apply mkdir_all_raise in E as [? _].
Qed.

(** What [download_file] does once the file is open: nothing more is
    opened for writing. *)
Lemma validate_opened (url : string) (path : Pathlib.Path) (w : World) :
  opened (trace
    ((valid <- (fun w => (Ok (is_valid_pdf path w), w)) ;;
      if negb valid then
        print "❌ File downloaded but is NOT a valid PDF (likely a web page)." ;;
        unlink path ;;
        offer_open_in_browser url ;;
        ret "⚠️ Invalid PDF content"
      else ret (Pathlib.key path)) w).2) = opened (trace w).
Proof.
  unfold bind at 1. destruct (is_valid_pdf path w); cbn [negb]; [reflexivity |].
  unfold bind at 1, print at 1. unfold bind at 1, unlink at 1.
  destruct (is_dir _ (Pathlib.resolve path)).
  - cbn [snd trace log]. rewrite !opened_app. cbn. by rewrite !app_nil_r.
  - unfold bind at 1.
    match goal with
    | |- context [offer_open_in_browser url ?w0] =>
        destruct (offer_open_in_browser_frame url w0) as (_ & _ & tail & Ht & Htail);
        destruct (offer_open_in_browser url w0) as [[[] | e] w1]
    end; unfold bind, ret; cbn [snd] in *; rewrite Ht; cbn [trace log set_files]; rewrite !opened_app;
      destruct Htail as [-> | ->]; cbn; by rewrite !app_nil_r.
Qed.

(** Whatever happens, [download_file] opens for writing at most one file,
    the output directory joined with the derived name. *)
Lemma download_file_opened (url : string) (filename : option string) (w : World) :
  exists l,
    opened (trace (download_file url filename w).2) = (opened (trace w) ++ l)%list
    /\ (l = [] \/
        exists name, safe_filename url filename = Ok name
                     /\ l = [Pathlib.key (Pathlib.joinpath OUTPUT_DIR name)]).
Proof.
  assert (Hexc : forall (m : M string) (w0 : World),
             (try_except m (fun e => ret ("⚠️ Download failed: " ++ e)) w0).2 = (m w0).2).
  { intros m w0. unfold try_except. by destruct (m w0) as [[a | e] w1]. }
  unfold download_file. rewrite Hexc.
  unfold bind at 1, http_get at 1. cbn [requests_get log clock].
  destruct (requests_get w (clock w) url) as [r | e].
  2: { exists []. cbn. rewrite opened_app. cbn. split; [done | by left]. }
  unfold bind at 1. unfold raise_for_status at 1.
  destruct ((400 <=? status_code r)%Z && (status_code r <? 600)%Z).
  { exists []. cbn. rewrite opened_app. cbn. split; [done | by left]. }
  unfold ret at 1. unfold bind at 1, lift at 1.
  destruct (safe_filename url filename) as [name | e].
  2: { exists []. cbn. rewrite opened_app. cbn. split; [done | by left]. }
  unfold bind at 1.
  pose proof (mkdir_all_trace OUTPUT_DIR (Pathlib.ancestors OUTPUT_DIR)
                (tick (log (EvGet url) w))) as Hmk.
  fold (mkdir_parents OUTPUT_DIR) in Hmk.
  destruct (mkdir_parents OUTPUT_DIR (tick (log (EvGet url) w))) as [[[] | e] w1].
  2: { exists []. cbn [snd] in *. rewrite Hmk. cbn. rewrite opened_app. cbn.
       split; [done | by left]. }
  cbn [snd] in Hmk.
  exists [Pathlib.key (Pathlib.joinpath OUTPUT_DIR name)].
  split; [| right; by exists name].
  unfold bind at 1.
  pose proof (open_wb_trace (Pathlib.joinpath OUTPUT_DIR name) w1) as Hop.
  destruct (open_wb (Pathlib.joinpath OUTPUT_DIR name) w1) as [[f | e] w2].
  2: { cbn [snd] in *. rewrite Hop, Hmk. cbn. rewrite !opened_app. cbn.
       by rewrite app_nil_r. }
  cbn [snd] in Hop.
  unfold bind at 1.
  pose proof (write_chunks_trace f (chunks r) (stream_error r) w2) as Hwr.
  destruct (write_chunks f (chunks r) (stream_error r) w2) as [[[] | e] w3].
  2: { cbn [snd] in *. rewrite Hwr, Hop, Hmk. cbn. rewrite !opened_app. cbn.
       by rewrite app_nil_r. }
  cbn [snd] in Hwr.
  rewrite validate_opened, Hwr, Hop, Hmk. cbn. rewrite !opened_app. cbn.
  by rewrite app_nil_r.
Qed.

Lemma split_slash_plain (cur s : string) :
  Str.has_char "/" s = false -> Pathlib.split_slash cur s = [cur ++ s].
Proof.
  revert cur. induction s as [|c s IH]; intros cur H; cbn [Pathlib.split_slash].
  - by rewrite append_empty_r.
  - cbn [Str.has_char] in H. apply orb_false_iff in H as [Hc Hs].
    rewrite Ascii.eqb_sym, Hc, IH by done. by rewrite append_assoc.
Qed.

(** A name without a slash that is not empty, ["."] or [".."] lands right
    under the output directory. *)
Lemma plain_name_target (name : string) :
  Str.has_char "/" name = false -> name <> "" -> name <> "." -> name <> ".." ->
  Pathlib.key (Pathlib.joinpath OUTPUT_DIR name) = "/mnt/data/" ++ name.
Proof.
  intros Hslash Hne Hdot Hdd.
  assert (Hstart : Str.startswith "/" name = false).
  { destruct name as [|c name]; [done |]. cbn in Hslash |- *.
    apply orb_false_iff in Hslash as [Hc _]. by rewrite Hc. }
  unfold Pathlib.joinpath. rewrite Hstart.
  unfold Pathlib.parse. rewrite split_slash_plain by done.
  rewrite append_empty_l, filter_cons_True, filter_nil by done.
  unfold Pathlib.key, Pathlib.resolve, OUTPUT_DIR. cbn [app foldl].
  unfold Pathlib.resolve_step at 1. cbn [String.eqb Ascii.eqb Bool.eqb andb app].
  apply String.eqb_neq in Hdd.
  unfold Pathlib.resolve_step at 1. rewrite Hdd.
  cbn [Pathlib.resolve_step String.eqb Ascii.eqb Bool.eqb andb app].
  unfold Pathlib.str, Pathlib.join_str. by rewrite append_empty_r.
Qed.

(** C8, as amended.  Without a filename argument, [download_file] takes
    the basename of the path of the URL (["manual.pdf"] when it is empty),
    percent-decodes it, replaces every space by an underscore and removes
    every parenthesis; the result has no space and no parenthesis.  The
    only file [download_file] opens for writing is the output directory
    joined with that name, which lies directly under the output directory
    when the name has no slash and is not empty, ["."] or [".."]. *)
Theorem download_file_name_derivation (url : string) (filename : option string)
    (p : Urllib.ParseResult) (w : World) :
  Str.truthy_opt filename = false ->
  Urllib.urlparse url = Ok p ->
  let base := Posixpath.basename (Urllib.path p) in
  let decoded := Urllib.unquote (if Str.truthy base then base else "manual.pdf") in
  let name := sanitize decoded in
  let target := Pathlib.key (Pathlib.joinpath OUTPUT_DIR name) in
  safe_filename url filename = Ok name
  /\ (forall c, In c [" "; "("; ")"]%char -> Str.has_char c name = false)
  /\ (exists l,
        opened (trace (download_file url filename w).2) = (opened (trace w) ++ l)%list
        /\ (l = [] \/ l = [target]))
  /\ (Str.has_char "/" name = false -> name <> "" -> name <> "." -> name <> ".." ->
      target = "/mnt/data/" ++ name).
Proof.
  intros Hfn Hp base decoded name target.
  assert (Hname : safe_filename url filename = Ok name).
  { unfold safe_filename. rewrite Hfn, Hp. cbn [negb]. by rewrite replace_sanitize. }
  split; [exact Hname |]. split; [intros c Hc; by apply sanitize_clean |].
  split; [| apply plain_name_target].
  destruct (download_file_opened url filename w) as (l & Hl & [-> | (n & Hn & ->)]).
  - exists []. split; [done | by left].
  - rewrite Hname in Hn. injection Hn as <-. eexists. split; [exact Hl | by right].
Qed.

Lemma download_file_name_derivation_witness :
  safe_filename "https://example.com/docs/user%20guide%20(v2).pdf" None
  = Ok "user_guide_v2.pdf"
  /\ (exists l,
        opened (trace (download_file "https://example.com/docs/user%20guide%20(v2).pdf" None
                         (sample_world [] 200 "%PDF-1.7" [])).2)
        = (opened (trace (sample_world [] 200 "%PDF-1.7" [])) ++ l)%list
        /\ (l = [] \/ l = ["/mnt/data/user_guide_v2.pdf"])).
Proof.
  pose proof (download_file_name_derivation
                "https://example.com/docs/user%20guide%20(v2).pdf" None _
                (sample_world [] 200 "%PDF-1.7" []) eq_refl eq_refl)
    as (Hname & _ & Hopened & _).
  split; [exact Hname | exact Hopened].
Defined.

(** C8, as the specification states it, fails: the spaces are replaced by
    underscores, not stripped; and a decoded name that is an absolute path
    is not written under the output directory. *)
Lemma safe_filename_not_stripped :
  safe_filename "https://example.com/docs/user%20guide%20(v2).pdf" None
  = Ok "user_guide_v2.pdf"
  /\ spec_safe_filename "https://example.com/docs/user%20guide%20(v2).pdf"
     = Ok "userguidev2.pdf"
  /\ safe_filename "https://example.com/docs/user%20guide%20(v2).pdf" None
     <> spec_safe_filename "https://example.com/docs/user%20guide%20(v2).pdf"
  /\ safe_filename "https://example.com/%2Ftmp%2Fx.pdf" None = Ok "/tmp/x.pdf"
  /\ Pathlib.key (Pathlib.joinpath OUTPUT_DIR "/tmp/x.pdf") = "/tmp/x.pdf"
  /\ opened (trace (download_file "https://example.com/%2Ftmp%2Fx.pdf" None
                      (set_dirs {[ "/tmp" ]} (sample_world [] 200 "%PDF-1.7" []))).2)
     = ["/tmp/x.pdf"].
Proof.
  split; [reflexivity |]. split; [reflexivity |]. split; [by vm_compute |].
  split; [reflexivity |]. split; [reflexivity |]. by vm_compute.
Qed.

Lemma rfind_trailing (s : string) :
  Str.rfind (Ascii.eqb "/") (s ++ "/") = Some (String.length s).
Proof.
  induction s as [|c s IH]; [reflexivity |].
  rewrite append_cons. cbn [Str.rfind String.length]. by rewrite IH.
Qed.

Lemma drop_all (s t : string) : Str.drop (String.length s) (s ++ t) = t.
Proof. induction s as [|c s IH]; [by destruct t | by rewrite append_cons]. Qed.

(** A path that ends with a slash has an empty basename. *)
Lemma basename_trailing_slash (dir : string) : Posixpath.basename (dir ++ "/") = "".
Proof.
  unfold Posixpath.basename. rewrite rfind_trailing.
  change (S (String.length dir)) with (String.length (String "/" dir)).
  replace (dir ++ "/") with ((dir ++ "/") ++ "") by apply append_empty_r.
  assert (H : String.length (String "/" dir) = String.length (dir ++ "/")).
  { clear. induction dir as [|c dir IH]; [done |]. rewrite append_cons. cbn in *.
    by rewrite <- IH. }
  rewrite H. apply drop_all.
Qed.

(** Where no regular file is in the way, the output directory is made. *)
Lemma mkdir_output_dir (w : World) :
  files w !! "/mnt" = None -> files w !! "/mnt/data" = None ->
  exists d, mkdir_parents OUTPUT_DIR w = (Ok tt, set_dirs d w)
            /\ "/mnt/data" ∈ d /\ d ⊆ dirs w ∪ {[ "/mnt"; "/mnt/data" ]}.
Proof.
  intros H1 H2. unfold mkdir_parents.
  change (Pathlib.ancestors OUTPUT_DIR) with [["mnt"]; ["mnt"; "data"]].
  cbn [mkdir_all]. unfold bind, ret, mkdir_one.
  change (Pathlib.str ["mnt"]) with "/mnt".
  change (Pathlib.str ["mnt"; "data"]) with "/mnt/data".
  unfold is_dir.
  change (Pathlib.str ["mnt"]) with "/mnt".
  change (Pathlib.str ["mnt"; "data"]) with "/mnt/data".
  assert (Hnone : forall (A : Type) (x y : result unit * A),
             (if bool_decide (is_Some (@None string)) then x else y) = y).
  { intros A x y. rewrite bool_decide_eq_false_2; [done |]. intros [? ?]; discriminate. }
  rewrite H1, Hnone.
  destruct (decide ("/mnt" ∈ dirs w)) as [Hmnt | Hmnt].
  - rewrite (bool_decide_eq_true_2 _ Hmnt), H2, Hnone.
    destruct (decide ("/mnt/data" ∈ dirs w)) as [Hdata | Hdata].
    + rewrite (bool_decide_eq_true_2 _ Hdata). exists (dirs w).
      rewrite set_dirs_id. split; [done |]. split; [done | set_solver].
    + rewrite (bool_decide_eq_false_2 _ Hdata).
      eexists. split; [reflexivity |]. clear. set_solver.
  - rewrite (bool_decide_eq_false_2 _ Hmnt). cbn [dirs set_dirs files].
    rewrite H2, Hnone.
    destruct (decide ("/mnt/data" ∈ {["/mnt"]} ∪ dirs w)) as [Hdata | Hdata].
    + rewrite (bool_decide_eq_true_2 _ Hdata).
      eexists. split; [reflexivity |]. split; [done |]. clear. set_solver.
    + rewrite (bool_decide_eq_false_2 _ Hdata).
      eexists. split; [reflexivity |]. clear. set_solver.
Qed.

(** C10.  Without a filename argument and with an empty basename of the
    URL's path (as when the path ends with a slash), the name is
    ["manual.pdf"]: no other file is opened for writing than
    [/mnt/data/manual.pdf], and where the file system allows it and the
    content is a PDF, the content is saved there and that path is
    returned. *)
Theorem download_file_default_name (url : string) (filename : option string)
    (p : Urllib.ParseResult) (w : World) :
  Str.truthy_opt filename = false ->
  Urllib.urlparse url = Ok p ->
  Posixpath.basename (Urllib.path p) = "" ->
  safe_filename url filename = Ok "manual.pdf"
  /\ (exists l,
        opened (trace (download_file url filename w).2) = (opened (trace w) ++ l)%list
        /\ (l = [] \/ l = ["/mnt/data/manual.pdf"]))
  /\ (forall r,
        requests_get w (clock w) url = Ok r ->
        status_passes r ->
        stream_error r = None ->
        files w !! "/mnt" = None ->
        files w !! "/mnt/data" = None ->
        "/mnt/data/manual.pdf" ∉ dirs w ->
        Str.take 4 (body_of (chunks r)) = "%PDF" ->
        exists w',
          download_file url filename w = (Ok "/mnt/data/manual.pdf", w')
          /\ files w' !! "/mnt/data/manual.pdf" = Some (body_of (chunks r))
          /\ opened (trace w') = (opened (trace w) ++ ["/mnt/data/manual.pdf"])%list).
Proof.
  intros Hfn Hp Hbase.
  assert (Hname : safe_filename url filename = Ok "manual.pdf").
  { unfold safe_filename. rewrite Hfn, Hp, Hbase. reflexivity. }
  split; [exact Hname |]. split.
  { destruct (download_file_opened url filename w) as (l & Hl & [-> | (n & Hn & ->)]).
    - exists []. split; [done | by left].
    - rewrite Hname in Hn. injection Hn as <-. eexists. split; [exact Hl | by right]. }
  intros r Hget Hst Hstream Hmnt Hdata Hnodir Hsig.
  destruct (mkdir_output_dir (tick (log (EvGet url) w)) Hmnt Hdata) as (d & Hmk & Hin & Hsub).
  cbn [dirs tick log] in Hsub.
  set (path := ["mnt"; "data"; "manual.pdf"]).
  assert (Hop : open_wb path (set_dirs d (tick (log (EvGet url) w)))
                = (Ok "/mnt/data/manual.pdf",
                   set_files (<["/mnt/data/manual.pdf" := ""]> (files w))
                     (log (EvOpenWrite "/mnt/data/manual.pdf")
                        (set_dirs d (tick (log (EvGet url) w)))))).
  { unfold open_wb.
    change (Pathlib.key path) with "/mnt/data/manual.pdf".
    change (Pathlib.resolve path) with path.
    change (Pathlib.parent path) with ["mnt"; "data"].
    change (Str.has_char nul "/mnt/data/manual.pdf") with false.
    unfold is_dir. cbn [dirs log set_dirs].
    change (Pathlib.str path) with "/mnt/data/manual.pdf".
    change (Pathlib.str ["mnt"; "data"]) with "/mnt/data".
    rewrite bool_decide_eq_false_2
      by (clear -Hsub Hnodir; intros Hin'; apply Hsub in Hin'; set_solver).
    rewrite bool_decide_eq_true_2 by done. reflexivity. }
  unfold download_file, try_except.
  unfold bind at 1. unfold http_get at 1. cbn [requests_get log clock]. rewrite Hget.
  unfold bind at 1. rewrite raise_for_status_passes by done.
  unfold bind at 1. unfold lift at 1. rewrite Hname.
  unfold bind at 1. rewrite Hmk.
  change (Pathlib.joinpath OUTPUT_DIR "manual.pdf") with path.
  unfold bind at 1. rewrite Hop.
  unfold bind at 1. rewrite Hstream.
  rewrite (write_chunks_ok _ _ _ "") by apply lookup_insert_eq.
  unfold bind at 1. unfold is_valid_pdf at 1. cbn [files set_files].
  change (Pathlib.key path) with "/mnt/data/manual.pdf".
  rewrite insert_insert_eq, lookup_insert_eq, append_empty_l.
  apply String.eqb_eq in Hsig. rewrite Hsig. cbn [negb]. unfold ret.
  eexists. split; [reflexivity |]. cbn [files set_files trace log set_dirs tick].
  split; [apply lookup_insert_eq |].
  rewrite !opened_app. cbn. by rewrite app_nil_r.
Qed.

Lemma download_file_default_name_witness :
  safe_filename "https://www.trane.com/docs/" None = Ok "manual.pdf"
  /\ exists w',
       download_file "https://www.trane.com/docs/" None
         (sample_world [] 200 "%PDF-1.7 manual" [])
       = (Ok "/mnt/data/manual.pdf", w')
       /\ files w' !! "/mnt/data/manual.pdf" = Some "%PDF-1.7 manual"
       /\ opened (trace w') = ["/mnt/data/manual.pdf"].
Proof.
  pose proof (download_file_default_name "https://www.trane.com/docs/" None _
                (sample_world [] 200 "%PDF-1.7 manual" []) eq_refl eq_refl eq_refl)
    as (Hname & _ & Hsave).
  split; [exact Hname |].
  apply (Hsave (sample_response "%PDF-1.7 manual")).
  - reflexivity.
  - left. simpl. lia.
  - reflexivity.
  - reflexivity.
  - reflexivity.
  - vm_compute. discriminate.
  - reflexivity.
Defined.

(** ** The interactive controller: [find_manual] *)

Lemma ask_if_missing_inv (value : option string) (prompt : string) (w w1 : World)
    (v : string) :
  ask_if_missing value prompt w = (Ok v, w1) ->
  (w1 = w /\ value = Some v /\ Str.truthy v = true)
  \/ (exists line rest,
        stdin w = line :: rest /\ v = Str.strip line
        /\ w1 = set_stdin rest (log (EvInput prompt) w)).
Proof.
  unfold ask_if_missing, bind, input, ret. cbn [stdin log].
  destruct value as [s |]; cbn [Str.truthy_opt].
  - destruct (Str.truthy s) eqn:Hs; cbn [negb].
    + intros [= <- <-]. by left.
    + destruct (stdin w) as [|line rest]; [discriminate |].
      intros [= <- <-]. right. by exists line, rest.
  - cbn [negb]. destruct (stdin w) as [|line rest]; [discriminate |].
    intros [= <- <-]. right. by exists line, rest.
Qed.

(** Asking for an argument leaves the network, the clock and the files
    alone and downloads nothing. *)
Lemma ask_if_missing_frame (value : option string) (prompt : string) (w w1 : World)
    (v : string) :
  ask_if_missing value prompt w = (Ok v, w1) ->
  ddgs_text w1 = ddgs_text w /\ clock w1 = clock w /\ files w1 = files w
  /\ exists evs, trace w1 = (trace w ++ evs)%list /\ downloads evs = [] /\ opened evs = [].
Proof.
  intros H. apply ask_if_missing_inv in H as [(-> & _) | (line & rest & _ & _ & ->)].
  - repeat split. exists []. by rewrite app_nil_r.
  - repeat split. by eexists.
Qed.

(** One round as far as the search. *)
Lemma find_manual_round_search (make model : option string) (w w1 w2 : World)
    (mk md : string) :
  ask_if_missing make make_prompt w = (Ok mk, w1) ->
  ask_if_missing model model_prompt w1 = (Ok md, w2) ->
  find_manual_round make model w
  = match ddgs_text w2 (clock w2) (query_of mk md) with
    | Raise e => (Raise e, searched mk md w2)
    | Ok [] =>
        (print "❌ No results found." ;;
         line <- input retry_prompt ;;
         if (Str.lower line =? "y")%string then ret (Continue None None)
         else ret (Return "❌ No results found.")) (searched mk md w2)
    | Ok (r :: results) =>
        (scored <- score_results (r :: results) mk md [] ;;
         match scored with
         | [] => report_blocked (r :: results) (Some mk) (Some md)
         | _ :: _ =>
             match sort_desc scored with
             | best :: _ => handle_best best
             | [] => raise "list index out of range"
             end
         end) (searched mk md w2)
    end.
Proof.
  intros Hmk Hmd. unfold find_manual_round.
  unfold bind at 1. fold make_prompt. rewrite Hmk.
  unfold bind at 1. fold model_prompt. rewrite Hmd.
  unfold bind at 1, print at 1. unfold bind at 1, search_text at 1.
  cbn [ddgs_text clock log]. fold (query_of mk md). fold (searched mk md w2).
  destruct (ddgs_text w2 (clock w2) (query_of mk md)) as [[|r results] | e]; reflexivity.
Qed.

(** C7.  When the search finds nothing and the user does not answer [y]
    to the retry prompt, [find_manual] returns ["❌ No results found."];
    nothing is downloaded, no file is opened for writing, and the files
    are as before. *)
Theorem find_manual_no_results (make model : option string) (w w1 w2 : World)
    (mk md line : string) (rest : list string) :
  ask_if_missing make make_prompt w = (Ok mk, w1) ->
  ask_if_missing model model_prompt w1 = (Ok md, w2) ->
  ddgs_text w (clock w) (query_of mk md) = Ok [] ->
  stdin w2 = line :: rest ->
  Str.lower line <> "y" ->
  exists w',
    find_manual make model w = Some (Ok "❌ No results found.", w')
    /\ files w' = files w
    /\ exists evs,
         trace w' = (trace w ++ evs)%list
         /\ downloads evs = [] /\ opened evs = []
         /\ In (EvSearch (query_of mk md)) evs.
Proof.
  intros Hmk Hmd Hsearch Hin Hno.
  destruct (ask_if_missing_frame _ _ _ _ _ Hmk) as (Hd1 & Hc1 & Hf1 & evs1 & Ht1 & Hg1 & Ho1).
  destruct (ask_if_missing_frame _ _ _ _ _ Hmd) as (Hd2 & Hc2 & Hf2 & evs2 & Ht2 & Hg2 & Ho2).
  unfold find_manual. cbn [find_manual_loop].
  rewrite (find_manual_round_search _ _ _ _ _ _ _ Hmk Hmd).
  rewrite Hd2, Hd1, Hc2, Hc1, Hsearch.
  unfold bind at 1, print at 1. unfold bind at 1, input at 1.
  cbn [stdin log searched tick]. rewrite Hin.
  apply String.eqb_neq in Hno. rewrite Hno. unfold ret.
  eexists. split; [reflexivity |]. cbn [files trace set_stdin log tick searched].
  split; [by rewrite Hf2, Hf1 |].
  rewrite Ht2, Ht1. rewrite <- !app_assoc.
  eexists. split; [reflexivity |].
  unfold downloads, opened in *. rewrite !omap_app, Hg1, Hg2, Ho1, Ho2.
  split; [reflexivity |]. split; [reflexivity |].
  rewrite !in_app_iff. do 2 right. cbn. tauto.
Qed.

Lemma find_manual_no_results_witness :
  exists w',
    find_manual None None (sample_world [] 200 "" ["Trane"; "RTU-1234"; "n"])
    = Some (Ok "❌ No results found.", w')
    /\ files w' = files (sample_world [] 200 "" ["Trane"; "RTU-1234"; "n"])
    /\ exists evs,
         trace w' = (trace (sample_world [] 200 "" ["Trane"; "RTU-1234"; "n"]) ++ evs)%list
         /\ downloads evs = [] /\ opened evs = []
         /\ In (EvSearch (query_of "Trane" "RTU-1234")) evs.
Proof.
  eapply (find_manual_no_results None None
            (sample_world [] 200 "" ["Trane"; "RTU-1234"; "n"]) _ _
            "Trane" "RTU-1234" "n" []).
  - reflexivity.
  - reflexivity.
  - reflexivity.
  - reflexivity.
  - discriminate.
Defined.

(** ** Relations that every step of a computation keeps *)

Section Respects.

Variable R : World -> World -> Prop.
Hypothesis R_refl : forall w, R w w.
Hypothesis R_trans : forall w1 w2 w3, R w1 w2 -> R w2 w3 -> R w1 w3.

Lemma respects_ret {A} (a : A) : respects R (ret a).
Proof. intros w. apply R_refl. Qed.

Lemma respects_raise {A} (e : string) : respects R (@raise A e).
Proof. intros w. apply R_refl. Qed.

Lemma respects_lift {A} (r : result A) : respects R (lift r).
Proof. intros w. apply R_refl. Qed.

Lemma respects_bind {A B} (m : M A) (k : A -> M B) :
  respects R m -> (forall a, respects R (k a)) -> respects R (x <- m ;; k x).
Proof.
  intros Hm Hk w. unfold bind. specialize (Hm w).
  destruct (m w) as [[a | e] w1]; cbn [snd] in *; [| done].
  eapply R_trans; [exact Hm | apply Hk].
Qed.

Lemma respects_try {A} (m : M A) (h : string -> M A) :
  respects R m -> (forall e, respects R (h e)) -> respects R (try_except m h).
Proof.
  intros Hm Hh w. unfold try_except. specialize (Hm w).
  destruct (m w) as [[a | e] w1]; cbn [snd] in *; [done |].
  eapply R_trans; [exact Hm | apply Hh].
Qed.

End Respects.

Lemma progress_refl (w : World) : progress w w.
Proof. split; [exists []; by rewrite app_nil_r | unfold consumes; lia]. Qed.

Lemma progress_trans (w1 w2 w3 : World) :
  progress w1 w2 -> progress w2 w3 -> progress w1 w3.
Proof.
  intros [[e1 H1] C1] [[e2 H2] C2]. split.
  - exists (e1 ++ e2)%list. by rewrite H2, H1, app_assoc.
  - unfold consumes in *. lia.
Qed.

Ltac progress_step :=
  first
    [ apply (respects_bind progress progress_trans); [| intros ?]
    | apply (respects_try progress progress_trans); [| intros ?]
    | apply (respects_ret progress progress_refl)
    | apply (respects_raise progress progress_refl)
    | apply (respects_lift progress progress_refl) ].

Ltac progress_here :=
  split;
  [ first [ by (exists []; rewrite app_nil_r) | by eexists ]
  | unfold consumes; cbn; lia ].

Ltac progress_prim := intros ?; progress_here.

Lemma progress_print (text : string) : respects progress (print text).
Proof. progress_prim. Qed.

Lemma progress_input (prompt : string) : respects progress (input prompt).
Proof.
  intros w. unfold input. cbn [stdin log].
  destruct (stdin w) as [|line rest] eqn:E; split;
    try (by eexists); unfold consumes; cbn; rewrite ?E; cbn; lia.
Qed.

Lemma progress_webbrowser_open (url : string) : respects progress (webbrowser_open url).
Proof. progress_prim. Qed.

Lemma progress_search_text (query : string) : respects progress (search_text query).
Proof. progress_prim. Qed.

Lemma progress_head_status (url : string) : respects progress (head_status url).
Proof. progress_prim. Qed.

Lemma progress_http_get (url : string) : respects progress (http_get url).
Proof. progress_prim. Qed.

Lemma progress_raise_for_status (r : Response) : respects progress (raise_for_status r).
Proof.
  unfold raise_for_status.
  destruct ((400 <=? status_code r)%Z && (status_code r <? 600)%Z); progress_step.
Qed.

Lemma progress_mkdir_parents (p : Pathlib.Path) : respects progress (mkdir_parents p).
Proof.
  intros w. unfold mkdir_parents.
  destruct (mkdir_all p (Pathlib.ancestors p) w) as [[[] | e] w'] eqn:E; cbn [snd].
  - apply mkdir_all_inv in E as (d & -> & _). split;
      [exists []; by rewrite app_nil_r | unfold consumes; cbn; lia].
  - apply mkdir_all_raise in E as [Ht Hs]. split;
      [exists []; by rewrite app_nil_r, Ht | unfold consumes; rewrite Hs; lia].
Qed.

Lemma progress_open_wb (p : Pathlib.Path) : respects progress (open_wb p).
Proof.
  intros w. unfold open_wb.
  destruct (Str.has_char nul (Pathlib.key p)); [by progress_here |].
  destruct (is_dir _ (Pathlib.resolve p)); [by progress_here |].
  destruct (is_dir _ (Pathlib.parent p)); [by progress_here |].
  cbn [negb]. case_bool_decide; by progress_here.
Qed.

Lemma progress_write_chunks (file : string) (cs : list string) (err : option string) :
  respects progress (write_chunks file cs err).
Proof.
  induction cs as [|c cs IH]; cbn [write_chunks].
  - destruct err; progress_step.
  - progress_step; [progress_prim | exact IH].
Qed.

Lemma progress_unlink (p : Pathlib.Path) : respects progress (unlink p).
Proof.
  intros w. unfold unlink.
  destruct (is_dir _ (Pathlib.resolve p)); by progress_here.
Qed.

Lemma progress_offer_open_in_browser (url : string) :
  respects progress (offer_open_in_browser url).
Proof.
  unfold offer_open_in_browser. progress_step; [apply progress_input |].
  destruct (_ =? _)%string; [| progress_step].
  progress_step; [apply progress_webbrowser_open | apply progress_print].
Qed.

Lemma progress_is_accessible_url (url : string) : respects progress (is_accessible_url url).
Proof.
  unfold is_accessible_url. progress_step; [| progress_step].
  progress_step; [apply progress_head_status |].
  repeat (destruct (_ =? _)%Z; [progress_step |]). progress_step.
Qed.

Lemma progress_download_file (url : string) (filename : option string) :
  respects progress (download_file url filename).
Proof.
  unfold download_file. progress_step; [| progress_step].
  progress_step; [apply progress_http_get |].
  progress_step; [apply progress_raise_for_status |].
  progress_step; [progress_step |].
  progress_step; [apply progress_mkdir_parents |].
  progress_step; [apply progress_open_wb |].
  progress_step; [apply progress_write_chunks |].
  progress_step; [progress_prim |].
  destruct (negb _); [| progress_step].
  progress_step; [apply progress_print |].
  progress_step; [apply progress_unlink |].
  progress_step; [apply progress_offer_open_in_browser | progress_step].
Qed.

Lemma progress_score_results (results : list SearchResult) (make model : string)
    (scored : list Candidate) :
  respects progress (score_results results make model scored).
Proof.
  revert scored. induction results as [|r results IH]; intros scored;
    cbn [score_results]; [progress_step |].
  destruct (negb (Str.truthy_opt (result_url r))); [apply IH |].
  progress_step; [apply progress_is_accessible_url |].
  destruct a as [accessible reason]. destruct (negb accessible); [apply IH |].
  progress_step; [progress_step | apply IH].
Qed.

Lemma progress_report_blocked (results : list SearchResult) (make model : option string) :
  respects progress (report_blocked results make model).
Proof.
  revert make model. induction results as [|r results IH]; intros make model;
    cbn [report_blocked].
  - progress_step; [apply progress_print | progress_step].
  - destruct (negb (Str.truthy_opt (result_url r))); [apply IH |].
    progress_step; [apply progress_is_accessible_url |].
    destruct a as [accessible reason]. destruct (negb accessible); [| apply IH].
    progress_step; [apply progress_print |].
    progress_step; [apply progress_print |].
    progress_step; [apply progress_input |].
    destruct (_ =? _)%string; [apply IH | progress_step].
Qed.

(** What [handle_best] does after the download prompt is answered. *)
Lemma progress_after_confirm (best_url line : string) :
  respects progress
    (if (Str.lower line =? "y")%string then
       saved <- download_file best_url None ;;
       if Str.startswith "⚠️" saved then
         line <- input "🔁 Try a different Make/Model? (y/n): " ;;
         if (Str.lower line =? "y")%string then ret (Continue None None)
         else ret (Return saved)
       else
         print ("✅ File saved to: " ++ saved) ;;
         ret (Return saved)
     else
       print "📎 Here's the link to check it yourself:" ;;
       print best_url ;;
       offer_open_in_browser best_url ;;
       ret (Return best_url)).
Proof.
  destruct (Str.lower line =? "y")%string.
  - progress_step; [apply progress_download_file |].
    destruct (Str.startswith _ a).
    + progress_step; [apply progress_input |].
      destruct (_ =? _)%string; progress_step.
    + progress_step; [apply progress_print | progress_step].
  - progress_step; [apply progress_print |].
    progress_step; [apply progress_print |].
    progress_step; [apply progress_offer_open_in_browser | progress_step].
Qed.

(** One round as far as the best match. *)
Lemma find_manual_round_best (make model : option string) (w w1 w2 w3 : World)
    (mk md : string) (results : list SearchResult) (scored others : list Candidate)
    (best : Candidate) :
  ask_if_missing make make_prompt w = (Ok mk, w1) ->
  ask_if_missing model model_prompt w1 = (Ok md, w2) ->
  ddgs_text w (clock w) (query_of mk md) = Ok results ->
  results <> [] ->
  score_results results mk md [] (searched mk md w2) = (Ok scored, w3) ->
  sort_desc scored = best :: others ->
  find_manual_round make model w = handle_best best w3.
Proof.
  intros Hmk Hmd Hsearch Hres Hscore Hbest.
  destruct (ask_if_missing_frame _ _ _ _ _ Hmk) as (Hd1 & Hc1 & _).
  destruct (ask_if_missing_frame _ _ _ _ _ Hmd) as (Hd2 & Hc2 & _).
  rewrite (find_manual_round_search _ _ _ _ _ _ _ Hmk Hmd).
  rewrite Hd2, Hd1, Hc2, Hc1, Hsearch.
  destruct results as [|r results]; [done |].
  unfold bind at 1. rewrite Hscore.
  destruct scored as [|c scored]; [discriminate |]. by rewrite Hbest.
Qed.

(** The ranking: the first candidate after the sort is one of the
    candidates and no candidate has a higher score. *)
Lemma candidate_lt_score (x y : Candidate) :
  if candidate_lt x y then (score_of x <= score_of y)%Q
  else (score_of y <= score_of x)%Q.
Proof.
  destruct x as [[s1 t1] u1], y as [[s2 t2] u2]. unfold candidate_lt, score_of.
  cbn [fst snd]. destruct (s1 ?= s2)%Q eqn:E.
  - apply Qeq_alt in E.
    destruct (t1 ?= t2)%string; [destruct (u1 ?= u2)%string | |];
      rewrite E; apply Qle_refl.
  - apply Qlt_alt in E. by apply Qlt_le_weak.
  - apply Qgt_alt in E. by apply Qlt_le_weak.
Qed.

Lemma insert_desc_perm (x : Candidate) (l : list Candidate) :
  insert_desc x l ≡ₚ x :: l.
Proof.
  induction l as [|y l IH]; cbn [insert_desc]; [done |].
  destruct (candidate_lt x y); [| done].
  rewrite IH. apply perm_swap.
Qed.

Lemma sort_desc_perm (l : list Candidate) : sort_desc l ≡ₚ l.
Proof.
  unfold sort_desc. induction l as [|x l IH]; cbn [foldr]; [done |].
  by rewrite insert_desc_perm, IH.
Qed.

Lemma insert_desc_head_max (x : Candidate) (l : list Candidate) (h : Candidate)
    (t : list Candidate) :
  (forall h0 t0, l = h0 :: t0 -> Forall (fun c => (score_of c <= score_of h0)%Q) t0) ->
  insert_desc x l = h :: t ->
  Forall (fun c => (score_of c <= score_of h)%Q) t.
Proof.
  destruct l as [|y l]; cbn [insert_desc].
  - intros _ [= <- <-]. constructor.
  - intros Hl. specialize (Hl y l eq_refl).
    pose proof (candidate_lt_score x y) as Hxy.
    destruct (candidate_lt x y).
    + intros [= <- <-].
      eapply Permutation_Forall; [symmetry; apply insert_desc_perm |].
      by constructor.
    + intros [= <- <-]. constructor; [done |].
      eapply Forall_impl; [exact Hl |]. intros c Hc. cbn in Hc.
      by eapply Qle_trans.
Qed.

Lemma sort_desc_head_max (l : list Candidate) (h : Candidate) (t : list Candidate) :
  sort_desc l = h :: t ->
  In h l /\ forall c, In c l -> (score_of c <= score_of h)%Q.
Proof.
  intros Hs.
  assert (Hmax : forall l h t, sort_desc l = h :: t ->
                   Forall (fun c => (score_of c <= score_of h)%Q) t).
  { clear. induction l as [|x l IH]; intros h t; [discriminate |].
    unfold sort_desc. cbn [foldr]. fold (sort_desc l).
    apply insert_desc_head_max. intros h0 t0 E. by eapply IH. }
  pose proof (sort_desc_perm l) as Hp. rewrite Hs in Hp.
  split.
  - apply list_elem_of_In. rewrite <- Hp. by left.
  - intros c Hc. apply list_elem_of_In in Hc. rewrite <- Hp in Hc.
    apply elem_of_cons in Hc as [-> | Hc]; [apply Qle_refl |].
    specialize (Hmax l h t Hs). rewrite Forall_forall in Hmax. by apply Hmax.
Qed.

(** The browser prompt, as [browser_outcome] tells it. *)
Lemma offer_then_return (url : string) (w : World) :
  let run := (offer_open_in_browser url ;; ret (Return url)) w in
  run.1 = (browser_outcome url (stdin w)).1
  /\ trace run.2
     = (trace w ++ EvInput browser_prompt :: (browser_outcome url (stdin w)).2)%list.
Proof.
  unfold bind at 1. rewrite offer_open_in_browser_cases. unfold browser_outcome.
  destruct (stdin w) as [|answer rest]; [by split |].
  destruct (Str.lower (Str.strip answer) =? "y")%string; split; try reflexivity.
  cbn. by rewrite <- !app_assoc.
Qed.

Lemma print_print_offer (text url : string) (w : World) :
  (print text ;; print url ;; offer_open_in_browser url ;; ret (Return url)) w
  = (offer_open_in_browser url ;; ret (Return url))
      (log (EvPrint url) (log (EvPrint text) w)).
Proof. reflexivity. Qed.

(** The two ways [handle_best] goes, by the score. *)
Lemma handle_best_cases (best_score : Q) (best_title best_url : string) (w3 : World) :
  let shown := best_shown best_title best_url w3 in
  handle_best (best_score, best_title, best_url) w3
  = match (best_score ?= 1 # 2)%Q with
    | Gt =>
        match stdin w3 with
        | [] => (Raise "EOF when reading a line", log (EvInput download_prompt) shown)
        | line :: rest =>
            (if (Str.lower line =? "y")%string then
               saved <- download_file best_url None ;;
               if Str.startswith "⚠️" saved then
                 line <- input "🔁 Try a different Make/Model? (y/n): " ;;
                 if (Str.lower line =? "y")%string then ret (Continue None None)
                 else ret (Return saved)
               else
                 print ("✅ File saved to: " ++ saved) ;;
                 ret (Return saved)
             else
               print "📎 Here's the link to check it yourself:" ;;
               print best_url ;;
               offer_open_in_browser best_url ;;
               ret (Return best_url))
              (set_stdin rest (log (EvInput download_prompt) shown))
        end
    | _ =>
        (offer_open_in_browser best_url ;; ret (Return best_url))
          (log (EvPrint best_url)
             (log (EvPrint "⚠️ Could not find an exact match, but this might help:")
                shown))
    end.
Proof.
  intros shown. unfold handle_best. unfold bind at 1, print at 1.
  fold (best_shown best_title best_url w3). fold shown.
  destruct (best_score ?= 1 # 2)%Q; try reflexivity.
  unfold bind at 1, input at 1. fold download_prompt.
  change (stdin (log (EvInput download_prompt) shown)) with (stdin w3).
  by destruct (stdin w3).
Qed.

(** C6.  In a round of [find_manual] that ranks at least one candidate,
    the best candidate is the first after the sort, and none has a higher
    score;
    when the best score is above 0.5 the download prompt follows the best
    match, and when the user does not answer [y] the link is printed, the
    browser prompt is offered and the link is returned; when the best score
    is 0.5 or less no download prompt is made, the link is printed, the
    browser prompt is offered and the link is returned. *)
Theorem find_manual_threshold (make model : option string) (w w1 w2 w3 : World)
    (mk md : string) (results : list SearchResult) (scored others : list Candidate)
    (best_score : Q) (best_title best_url : string) :
  ask_if_missing make make_prompt w = (Ok mk, w1) ->
  ask_if_missing model model_prompt w1 = (Ok md, w2) ->
  ddgs_text w (clock w) (query_of mk md) = Ok results ->
  results <> [] ->
  score_results results mk md [] (searched mk md w2) = (Ok scored, w3) ->
  sort_desc scored = (best_score, best_title, best_url) :: others ->
  let shown := best_shown best_title best_url w3 in
  let round := find_manual_round make model w in
  ((1 # 2 < best_score)%Q ->
     (exists tail,
        trace round.2 = (trace shown ++ EvInput download_prompt :: tail)%list)
     /\ (forall line rest,
           stdin w3 = line :: rest -> Str.lower line <> "y" ->
           round.1 = (browser_outcome best_url rest).1
           /\ trace round.2
              = (trace shown ++ declined_events best_url
                   ++ (browser_outcome best_url rest).2)%list))
  /\ ((best_score <= 1 # 2)%Q ->
        round.1 = (browser_outcome best_url (stdin w3)).1
        /\ trace round.2
           = (trace shown ++ weak_events best_url
                ++ (browser_outcome best_url (stdin w3)).2)%list)
  /\ (In (best_score, best_title, best_url) scored
      /\ forall c, In c scored -> (score_of c <= best_score)%Q).
Proof.
  intros Hmk Hmd Hsearch Hres Hscore Hbest shown round.
  refine ((fun Hab => conj (proj1 Hab)
                        (conj (proj2 Hab) (sort_desc_head_max _ _ _ Hbest))) _).
  assert (Hround : round = handle_best (best_score, best_title, best_url) w3)
    by (by eapply find_manual_round_best).
  rewrite Hround, handle_best_cases. clear Hround round. fold shown.
  split.
  - intros Hgt. apply Qgt_alt in Hgt. rewrite Hgt.
    destruct (stdin w3) as [|line0 rest0]; [split; [by exists [] | done] |].
    split.
    + destruct (progress_after_confirm best_url line0
                  (set_stdin rest0 (log (EvInput download_prompt) shown)))
        as [[tail Htail] _].
      exists tail. rewrite Htail. cbn [trace set_stdin log]. by rewrite <- app_assoc.
    + intros line rest [= <- <-] Hno. apply String.eqb_neq in Hno. rewrite Hno.
      rewrite print_print_offer.
      match goal with
      | |- context [(offer_open_in_browser best_url ;; ret (Return best_url)) ?w0] =>
          destruct (offer_then_return best_url w0) as [Hres1 Htr1]
      end.
      cbn [stdin log set_stdin] in Hres1, Htr1.
      rewrite Hres1, Htr1. split; [reflexivity |].
      cbn [trace log set_stdin]. unfold declined_events. by rewrite <- !app_assoc.
  - intros Hle. apply Qle_alt in Hle.
    match goal with
    | |- context [(offer_open_in_browser best_url ;; ret (Return best_url)) ?w0] =>
        destruct (offer_then_return best_url w0) as [Hres1 Htr1]
    end.
    cbn [stdin log] in Hres1, Htr1.
    destruct (best_score ?= 1 # 2)%Q eqn:Hcmp; [| | done];
      rewrite Hres1, Htr1; (split; [reflexivity |]);
      cbn [trace log]; unfold weak_events; by rewrite <- !app_assoc.
Qed.

Lemma find_manual_threshold_witness :
  (let w := sample_world [sample_result] 200 "" ["n"; "y"] in
   let w3 := (score_results [sample_result] "Trane" "RTU-1234" []
                (searched "Trane" "RTU-1234" w)).2 in
   let url := "https://www.trane.com/docs/RTU-1234%20manual.pdf" in
   let round := find_manual_round (Some "Trane") (Some "RTU-1234") w in
   round.1 = Ok (Return url)
   /\ trace round.2
      = (trace (best_shown "Trane RTU-1234 manual" url w3)
           ++ declined_events url ++ browser_events url)%list)
  /\ (let w := sample_world [weak_result] 200 "" ["n"] in
      let w3 := (score_results [weak_result] "Trane" "RTU-1234" []
                   (searched "Trane" "RTU-1234" w)).2 in
      let url := "https://forum.example.org/thread/77" in
      let round := find_manual_round (Some "Trane") (Some "RTU-1234") w in
      round.1 = Ok (Return url)
      /\ trace round.2
         = (trace (best_shown "Unrelated Page" url w3) ++ weak_events url ++ [])%list).
Proof.
  split.
  - intros w w3 url round.
    assert (Hscore : score_results [sample_result] "Trane" "RTU-1234" []
                       (searched "Trane" "RTU-1234" w)
                     = (Ok [((203 # 35)%Q, "Trane RTU-1234 manual", url)], w3))
      by (vm_compute; reflexivity).
    refine (proj2 (proj1 (find_manual_threshold (Some "Trane") (Some "RTU-1234")
                            w w w w3 "Trane" "RTU-1234" [sample_result] _ []
                            (203 # 35)%Q "Trane RTU-1234 manual" url
                            eq_refl eq_refl eq_refl _ Hscore eq_refl) _)
                   "n" ["y"] eq_refl _).
    + discriminate.
    + reflexivity.
    + discriminate.
  - intros w w3 url round.
    assert (Hscore : score_results [weak_result] "Trane" "RTU-1234" []
                       (searched "Trane" "RTU-1234" w)
                     = (Ok [((6 # 28)%Q, "Unrelated Page", url)], w3))
      by (vm_compute; reflexivity).
    refine (proj1 (proj2 (find_manual_threshold (Some "Trane") (Some "RTU-1234")
                            w w w w3 "Trane" "RTU-1234" [weak_result] _ []
                            (6 # 28)%Q "Unrelated Page" url
                            eq_refl eq_refl eq_refl _ Hscore eq_refl)) _).
    + discriminate.
    + discriminate.
Defined.

(** ** [find_manual] returns *)

Lemma consumes_of_progress {A} (m : M A) : respects progress m -> respects consumes m.
Proof. intros H w. apply H. Qed.

Lemma progress_ask_if_missing (value : option string) (prompt : string) :
  respects progress (ask_if_missing value prompt).
Proof.
  unfold ask_if_missing. destruct (negb _); [| progress_step].
  progress_step; [apply progress_input | progress_step].
Qed.

Lemma strict_bind {A} (m : M A) (k : A -> M Step) :
  respects consumes m -> (forall a, strict (k a)) -> strict (x <- m ;; k x).
Proof.
  intros Hm Hk w. unfold bind. specialize (Hm w).
  destruct (m w) as [[a | e] w1]; cbn [fst snd] in *.
  - destruct (Hk a w1) as [Hc Hs]. unfold consumes in *. split; [lia |].
    intros make model H. specialize (Hs make model H). lia.
  - split; [done | discriminate].
Qed.

Lemma strict_input (prompt : string) (k : string -> M Step) :
  (forall line, respects consumes (k line)) -> strict (line <- input prompt ;; k line).
Proof.
  intros Hk w. unfold bind, input. cbn [stdin log].
  destruct (stdin w) as [|line rest] eqn:E; cbn [fst snd].
  - split; [unfold consumes; cbn; rewrite E; cbn; lia | discriminate].
  - specialize (Hk line (set_stdin rest (log (EvInput prompt) w))).
    unfold consumes in *. cbn [stdin set_stdin] in Hk. rewrite E. cbn [length].
    split; [lia | intros; lia].
Qed.

Lemma strict_return (m : M Step) :
  respects consumes m ->
  (forall w make model, (m w).1 <> Ok (Continue make model)) ->
  strict m.
Proof. intros Hm Hno w. split; [apply Hm | intros make model H; by apply Hno in H]. Qed.

Lemma report_blocked_returns (results : list SearchResult) (make model : option string)
    (w : World) (make' model' : option string) :
  (report_blocked results make model w).1 <> Ok (Continue make' model').
Proof.
  revert make model w. induction results as [|r results IH]; intros make model w;
    cbn [report_blocked].
  - discriminate.
  - destruct (negb (Str.truthy_opt (result_url r))); [apply IH |].
    unfold bind at 1.
    destruct (is_accessible_url _ w) as [[[accessible reason] | e] w1]; [| discriminate].
    destruct (negb accessible); [| apply IH].
    unfold bind at 1, print at 1. unfold bind at 1, print at 1.
    unfold bind at 1, input at 1. cbn [stdin log].
    destruct (stdin w1) as [|line rest]; [discriminate |].
    destruct (_ =? _)%string; [apply IH | discriminate].
Qed.

Lemma strict_handle_best (best : Candidate) : strict (handle_best best).
Proof.
  destruct best as [[best_score best_title] best_url]. unfold handle_best.
  apply strict_bind; [apply consumes_of_progress, progress_print | intros _].
  destruct (best_score ?= 1 # 2)%Q.
  1,2: apply strict_return;
    [ apply consumes_of_progress;
      progress_step; [apply progress_print |];
      progress_step; [apply progress_print |];
      progress_step; [apply progress_offer_open_in_browser | progress_step]
    | intros w make model; rewrite print_print_offer; unfold bind;
      by destruct (offer_open_in_browser _ _) as [[[] | e] w1] ].
  apply strict_input. intros line.
  apply consumes_of_progress, progress_after_confirm.
Qed.

Lemma strict_find_manual_round (make model : option string) :
  strict (find_manual_round make model).
Proof.
  unfold find_manual_round.
  apply strict_bind; [apply consumes_of_progress, progress_ask_if_missing | intros mk].
  apply strict_bind; [apply consumes_of_progress, progress_ask_if_missing | intros md].
  apply strict_bind; [apply consumes_of_progress, progress_print | intros _].
  apply strict_bind; [apply consumes_of_progress, progress_search_text | intros results].
  destruct results as [|r results].
  - apply strict_bind; [apply consumes_of_progress, progress_print | intros _].
    apply strict_input. intros line. apply consumes_of_progress.
    destruct (_ =? _)%string; progress_step.
  - apply strict_bind; [apply consumes_of_progress, progress_score_results | intros scored].
    destruct scored as [|c scored].
    + apply strict_return;
        [apply consumes_of_progress, progress_report_blocked
        | intros w ? ?; apply report_blocked_returns].
    + destruct (sort_desc (c :: scored)); [| apply strict_handle_best].
      apply strict_return; [apply consumes_of_progress; progress_step | discriminate].
Qed.

Lemma find_manual_loop_returns (fuel : nat) (make model : option string) (w : World) :
  (length (stdin w) < fuel)%nat ->
  exists r w', find_manual_loop fuel make model w = Some (r, w').
Proof.
  revert make model w. induction fuel as [|fuel IH]; intros make model w Hfuel; [lia |].
  cbn [find_manual_loop].
  destruct (strict_find_manual_round make model w) as [_ Hs].
  destruct (find_manual_round make model w) as [[[make' model' | v] | e] w1];
    cbn [fst snd] in Hs; [| by eauto | by eauto].
  apply IH. specialize (Hs make' model' eq_refl). lia.
Qed.

(** [find_manual] always comes to an end: with a value or an exception,
    never by running out of rounds. *)
Lemma find_manual_returns (make model : option string) (w : World) :
  exists r w', find_manual make model w = Some (r, w').
Proof. apply find_manual_loop_returns. lia. Qed.

(** ** The scorer: [file_score] and the block matcher *)

Section MatcherBounds.

Variables a b : list ascii.

Lemma inner_loop_ok (alo ahi blo bhi i : nat) (j2len : gmap nat nat) (js : list nat)
    (newj2len : gmap nat nat) (best : Difflib.Match) :
  (alo <= i < ahi)%nat ->
  j2len_ok alo blo bhi i j2len ->
  j2len_ok alo blo bhi (S i) newj2len ->
  block_in alo ahi blo bhi best ->
  let out := Difflib.inner_loop i blo bhi j2len js newj2len best in
  j2len_ok alo blo bhi (S i) out.1 /\ block_in alo ahi blo bhi out.2.
Proof.
  intros Hi Hprev. revert newj2len best.
  induction js as [|j js IH]; intros newj2len best Hnew Hbest; cbn [Difflib.inner_loop].
  - by split.
  - destruct (j <? blo)%nat eqn:Hlo; [by apply IH |].
    destruct (bhi <=? j)%nat eqn:Hhi; [by split |].
    apply Nat.ltb_ge in Hlo. apply Nat.leb_gt in Hhi.
    set (k := (match j with
               | O => O
               | S j' => default O (j2len !! j')
               end + 1)%nat).
    assert (Hk : (1 <= k /\ alo + k <= S i /\ blo + k <= j + 1)%nat).
    { subst k. destruct j as [|j']; [lia |].
      destruct (j2len !! j') as [k' |] eqn:E; simpl; [| lia].
      destruct (Hprev j' k' E) as (? & ? & ? & ?). lia. }
    apply IH.
    + intros j0 k0. destruct (decide (j = j0)) as [<- | Hne].
      * rewrite lookup_insert_eq. intros [= <-]. lia.
      * rewrite lookup_insert_ne by done. apply Hnew.
    + destruct (best.2 <? k)%nat; [| done].
      unfold block_in. cbn [fst snd]. lia.
Qed.

Lemma outer_loop_ok (alo ahi blo bhi : nat) (n s : nat) (j2len : gmap nat nat)
    (best : Difflib.Match) :
  (alo <= s)%nat -> (s + n <= ahi)%nat ->
  j2len_ok alo blo bhi s j2len ->
  block_in alo ahi blo bhi best ->
  block_in alo ahi blo bhi
    (foldl (Difflib.outer_step a b blo bhi) (j2len, best) (seq s n)).2.
Proof.
  revert s j2len best. induction n as [|n IH]; intros s j2len best Hs Hn Hj Hb;
    cbn [seq foldl]; [done |].
  unfold Difflib.outer_step at 2.
  match goal with
  | |- context [Difflib.inner_loop s blo bhi j2len ?js ∅ best] =>
      destruct (inner_loop_ok alo ahi blo bhi s j2len js ∅ best) as [Hj' Hb'];
        [lia | done | intros j k H; by rewrite lookup_empty in H | done |];
        destruct (Difflib.inner_loop s blo bhi j2len js ∅ best) as [j2len' best']
  end.
  cbn [fst snd] in *. apply IH; [lia | lia | done | done].
Qed.

Lemma extend_left_ok (alo ahi blo bhi besti bestj bestsize : nat) :
  block_in alo ahi blo bhi (besti, bestj, bestsize) ->
  block_in alo ahi blo bhi (Difflib.extend_left a b alo blo besti bestj bestsize).
Proof.
  revert bestj bestsize. induction besti as [|i' IH]; intros bestj bestsize H;
    cbn [Difflib.extend_left]; [done |].
  destruct (alo <? S i')%nat eqn:E1; cbn [andb]; [| done].
  destruct (blo <? bestj)%nat eqn:E2; cbn [andb]; [| done].
  case_bool_decide; [| done].
  apply Nat.ltb_lt in E1, E2. apply IH.
  unfold block_in in *. cbn [fst snd] in *. lia.
Qed.

Lemma extend_right_ok (n alo ahi blo bhi besti bestj bestsize : nat) :
  block_in alo ahi blo bhi (besti, bestj, bestsize) ->
  block_in alo ahi blo bhi
    (besti, bestj, Difflib.extend_right a b n ahi bhi besti bestj bestsize).
Proof.
  revert bestsize. induction n as [|n IH]; intros bestsize H;
    cbn [Difflib.extend_right]; [done |].
  destruct (besti + bestsize <? ahi)%nat eqn:E1; cbn [andb]; [| done].
  destruct (bestj + bestsize <? bhi)%nat eqn:E2; cbn [andb]; [| done].
  case_bool_decide; [| done].
  apply Nat.ltb_lt in E1, E2. apply IH.
  unfold block_in in *. cbn [fst snd] in *. lia.
Qed.

(** The block [find_longest_match] returns lies within the ranges it was
    given. *)
Lemma find_longest_match_ok (alo ahi blo bhi : nat) :
  (alo <= ahi)%nat -> (blo <= bhi)%nat ->
  block_in alo ahi blo bhi (Difflib.find_longest_match a b alo ahi blo bhi).
Proof.
  intros Ha Hb. unfold Difflib.find_longest_match.
  pose proof (outer_loop_ok alo ahi blo bhi (ahi - alo) alo ∅ (alo, blo, O)) as H.
  destruct (foldl _ _ _) as [j2len [[besti bestj] bestsize]].
  cbn [snd] in H.
  assert (H0 : block_in alo ahi blo bhi (besti, bestj, bestsize)).
  { apply H; [lia | lia | intros j k E; by rewrite lookup_empty in E |].
    unfold block_in. cbn. lia. }
  apply (extend_left_ok alo ahi blo bhi) in H0.
  destruct (Difflib.extend_left a b alo blo besti bestj bestsize) as [[i j] k].
  by apply extend_right_ok.
Qed.

End MatcherBounds.

Lemma total_size_app (l1 l2 : list Difflib.Match) :
  total_size (l1 ++ l2) = (total_size l1 + total_size l2)%nat.
Proof.
  unfold total_size. induction l1 as [|x l1 IH]; cbn [app map sum_list]; [done |].
  rewrite IH. lia.
Qed.

Lemma total_size_perm (l1 l2 : list Difflib.Match) :
  l1 ≡ₚ l2 -> total_size l1 = total_size l2.
Proof.
  unfold total_size.
  induction 1 as [| x l1 l2 _ IH | x y l | l1 l2 l3 _ IH1 _ IH2];
    cbn [map sum_list]; lia.
Qed.

Lemma collapse_size (blocks : list Difflib.Match) (i1 j1 k1 : nat)
    (non_adjacent : list Difflib.Match) :
  total_size (Difflib.collapse blocks i1 j1 k1 non_adjacent)
  = (total_size non_adjacent + k1 + total_size blocks)%nat.
Proof.
  revert i1 j1 k1 non_adjacent.
  induction blocks as [|[[i2 j2] k2] blocks IH]; intros i1 j1 k1 non_adjacent;
    cbn [Difflib.collapse].
  - destruct (k1 =? 0)%nat eqn:E.
    + apply Nat.eqb_eq in E. unfold total_size at 3. cbn. lia.
    + rewrite total_size_app. unfold total_size. cbn. lia.
  - destruct ((i1 + k1 =? i2)%nat && (j1 + k1 =? j2)%nat).
    + rewrite IH. unfold total_size. cbn. lia.
    + rewrite IH. destruct (k1 =? 0)%nat eqn:E.
      * apply Nat.eqb_eq in E. unfold total_size. cbn. lia.
      * rewrite total_size_app. unfold total_size. cbn. lia.
Qed.

Lemma queue_weight_cons (alo ahi blo bhi : nat) (queue : list (nat * nat * nat * nat)) :
  queue_weight ((alo, ahi, blo, bhi) :: queue)
  = (2 * (ahi - alo) + 1 + queue_weight queue)%nat.
Proof. reflexivity. Qed.

Lemma queue_a_cons (alo ahi blo bhi : nat) (queue : list (nat * nat * nat * nat)) :
  queue_a ((alo, ahi, blo, bhi) :: queue) = (ahi - alo + queue_a queue)%nat.
Proof. reflexivity. Qed.

Lemma queue_b_cons (alo ahi blo bhi : nat) (queue : list (nat * nat * nat * nat)) :
  queue_b ((alo, ahi, blo, bhi) :: queue) = (bhi - blo + queue_b queue)%nat.
Proof. reflexivity. Qed.

Lemma total_size_snoc (blocks : list Difflib.Match) (i j k : nat) :
  total_size (blocks ++ [(i, j, k)]) = (total_size blocks + k)%nat.
Proof. rewrite total_size_app. unfold total_size at 2. cbn. lia. Qed.

Section MatcherTotal.

Variables a b : list ascii.

(** The queue loop ends within the rounds its queue can cost, and the
    blocks it adds fit in the ranges of the queue. *)
Lemma matching_loop_ok (fuel : nat) (queue : list (nat * nat * nat * nat))
    (blocks : list Difflib.Match) :
  Forall range_ok queue ->
  (queue_weight queue <= fuel)%nat ->
  exists out,
    Difflib.matching_loop a b fuel queue blocks = Some out
    /\ (total_size out <= total_size blocks + queue_a queue)%nat
    /\ (total_size out <= total_size blocks + queue_b queue)%nat.
Proof.
  revert queue blocks. induction fuel as [|fuel IH]; intros queue blocks Hq Hw.
  - destruct queue as [|[[[alo ahi] blo] bhi] queue].
    + exists blocks. cbn. split; [done | lia].
    + rewrite queue_weight_cons in Hw. lia.
  - destruct queue as [|[[[alo ahi] blo] bhi] queue].
    + exists blocks. cbn. split; [done | lia].
    + cbn [Difflib.matching_loop].
      apply Forall_cons in Hq as [[Ha Hb] Hq].
      pose proof (find_longest_match_ok a b alo ahi blo bhi Ha Hb) as Hin.
      destruct (Difflib.find_longest_match a b alo ahi blo bhi) as [[i j] k].
      unfold block_in in Hin. cbn [fst snd] in Hin.
      rewrite queue_weight_cons in Hw. rewrite queue_a_cons, queue_b_cons.
      destruct (k =? 0)%nat eqn:Hk.
      * destruct (IH queue blocks Hq) as (out & Hout & H1 & H2); [lia |].
        exists out. split; [done | lia].
      * apply Nat.eqb_neq in Hk.
        destruct (alo <? i)%nat eqn:E1, (blo <? j)%nat eqn:E2,
          (i + k <? ahi)%nat eqn:E3, (j + k <? bhi)%nat eqn:E4;
          cbn [andb];
          rewrite ?Nat.ltb_lt, ?Nat.ltb_ge in *;
          match goal with
          | |- context [Difflib.matching_loop a b fuel ?q ?bl] =>
              destruct (IH q bl) as (out & Hout & H1 & H2);
                [ repeat (apply Forall_cons; split; [cbn; lia |]); exact Hq
                | rewrite ?queue_weight_cons; lia
                | exists out; split; [exact Hout |];
                  rewrite total_size_snoc, ?queue_a_cons in H1;
                  rewrite total_size_snoc, ?queue_b_cons in H2; lia ]
          end.
Qed.

(** [get_matching_blocks] returns, and its blocks hold no more elements
    than either sequence. *)
Lemma get_matching_blocks_ok :
  exists blocks,
    Difflib.get_matching_blocks a b = Some blocks
    /\ (total_size blocks <= length a)%nat
    /\ (total_size blocks <= length b)%nat.
Proof.
  unfold Difflib.get_matching_blocks.
  destruct (matching_loop_ok (2 * length a + 1) [(O, length a, O, length b)] [])
    as (out & Hout & H1 & H2).
  { constructor; [cbn; lia | constructor]. }
  { rewrite queue_weight_cons. change (queue_weight []) with O. lia. }
  rewrite Hout. cbn [mbind option_bind].
  eexists. split; [reflexivity |].
  rewrite total_size_snoc, collapse_size.
  rewrite (total_size_perm _ _ (merge_sort_Permutation _ out)).
  rewrite queue_a_cons in H1. rewrite queue_b_cons in H2.
  change (total_size []) with O in *. change (queue_a []) with O in H1.
  change (queue_b []) with O in H2. lia.
Qed.

End MatcherTotal.


(** ** The blocks of the matcher are common runs *)

Section MatcherSound.

Variables a b : list ascii.

Lemma chain_b_step_ok (m : gmap ascii (list nat)) (i : nat) (elt : ascii) :
  b !! i = Some elt -> b2j_ok b m -> b2j_ok b (Difflib.chain_b_step m (i, elt)).
Proof.
  intros Hi Hm x js j. unfold Difflib.chain_b_step.
  destruct (decide (elt = x)) as [-> | Hne].
  - rewrite lookup_insert_eq. intros [= <-] Hj. apply in_app_iff in Hj as [Hj | Hj].
    + destruct (m !! x) as [js0 |] eqn:E; [by eapply Hm | destruct Hj].
    + destruct Hj as [<- | []]. exact Hi.
  - rewrite lookup_insert_ne by done. apply Hm.
Qed.

Lemma chain_b_fold_ok (l : list (nat * ascii)) (m : gmap ascii (list nat)) :
  (forall i elt, In (i, elt) l -> b !! i = Some elt) ->
  b2j_ok b m -> b2j_ok b (foldl Difflib.chain_b_step m l).
Proof.
  revert m. induction l as [|[i elt] l IH]; intros m Hl Hm; cbn [foldl]; [done |].
  apply IH; [intros i0 e0 H; apply Hl; by right |].
  apply chain_b_step_ok; [apply Hl; by left | done].
Qed.

Lemma b2j_sound : b2j_ok b (Difflib.b2j b).
Proof.
  assert (Hall : b2j_ok b (Difflib.b2j_all b)).
  { apply chain_b_fold_ok; [| intros x js j H; by rewrite lookup_empty in H].
    intros i elt H. apply list_elem_of_In, elem_of_lookup_imap in H
      as (i' & x' & [= <- <-] & H). exact H. }
  unfold Difflib.b2j. destruct (200 <=? length b)%nat; [| exact Hall].
  intros x js j H. apply map_lookup_filter_Some in H as [H _]. by eapply Hall.
Qed.

Lemma agree_at (n1 m1 n2 m2 : nat) :
  n1 = m1 -> n2 = m2 ->
  is_Some (a !! m1) /\ a !! m1 = b !! m2 ->
  is_Some (a !! n1) /\ a !! n1 = b !! n2.
Proof. by intros -> ->. Qed.

Lemma inner_loop_sound (alo blo bhi i : nat) (j2len : gmap nat nat) (js : list nat)
    (newj2len : gmap nat nat) (best : Difflib.Match) :
  (alo <= i)%nat ->
  j2len_ok alo blo bhi i j2len ->
  j2len_match a b i j2len ->
  (forall j, In j js -> is_Some (a !! i) /\ a !! i = b !! j) ->
  j2len_ok alo blo bhi (S i) newj2len ->
  j2len_match a b (S i) newj2len ->
  is_match a b best ->
  let out := Difflib.inner_loop i blo bhi j2len js newj2len best in
  j2len_ok alo blo bhi (S i) out.1 /\ j2len_match a b (S i) out.1 /\ is_match a b out.2.
Proof.
  intros Hi Hok Hprev. revert newj2len best.
  induction js as [|j js IH]; intros newj2len best Hjs Hnok Hnew Hbest;
    cbn [Difflib.inner_loop].
  - cbn [fst snd]. auto.
  - assert (Hjs' : forall j0, In j0 js -> is_Some (a !! i) /\ a !! i = b !! j0)
      by (intros j0 H; apply Hjs; by right).
    destruct (j <? blo)%nat eqn:Hlo; [by apply IH |].
    destruct (bhi <=? j)%nat eqn:Hhi; [cbn [fst snd]; auto |].
    apply Nat.ltb_ge in Hlo. apply Nat.leb_gt in Hhi.
    set (k := (match j with
               | O => O
               | S j' => default O (j2len !! j')
               end + 1)%nat).
    destruct (Hjs j (or_introl eq_refl)) as [Hai Hab].
    assert (Hk : (1 <= k /\ alo + k <= S i /\ blo + k <= j + 1)%nat
                 /\ is_match a b ((S i - k)%nat, (j + 1 - k)%nat, k)).
    { subst k. destruct j as [|j'].
      - split; [lia |]. intros t Ht. cbn [fst snd] in *.
        refine (agree_at _ _ _ _ _ _ (conj Hai Hab)); lia.
      - destruct (j2len !! j') as [k' |] eqn:E; simpl.
        + destruct (Hok j' k' E) as (? & ? & ? & ?). split; [lia |].
          intros t Ht. cbn [fst snd] in *.
          destruct (decide (t < k')%nat) as [Hlt | Hge].
          * refine (agree_at _ _ _ _ _ _ (Hprev j' k' E t Hlt)); cbn [fst snd]; lia.
          * refine (agree_at _ _ _ _ _ _ (conj Hai Hab)); lia.
        + split; [lia |]. intros t Ht. cbn [fst snd] in *.
          refine (agree_at _ _ _ _ _ _ (conj Hai Hab)); lia. }
    destruct Hk as [Hk Hrun].
    apply IH; [done | | |].
    + intros j0 k0. destruct (decide (j = j0)) as [<- | Hne].
      * rewrite lookup_insert_eq. intros [= <-]. lia.
      * rewrite lookup_insert_ne by done. apply Hnok.
    + intros j0 k0. destruct (decide (j = j0)) as [<- | Hne].
      * rewrite lookup_insert_eq. intros [= <-]. exact Hrun.
      * rewrite lookup_insert_ne by done. apply Hnew.
    + destruct (best.2 <? k)%nat; [| done].
      intros t Ht. refine (agree_at _ _ _ _ _ _ (Hrun t Ht)); cbn [fst snd]; lia.
Qed.

Lemma outer_loop_sound (alo ahi blo bhi : nat) (n s : nat) (j2len : gmap nat nat)
    (best : Difflib.Match) :
  (alo <= s)%nat ->
  j2len_ok alo blo bhi s j2len ->
  j2len_match a b s j2len ->
  is_match a b best ->
  is_match a b (foldl (Difflib.outer_step a b blo bhi) (j2len, best) (seq s n)).2.
Proof.
  revert s j2len best. induction n as [|n IH]; intros s j2len best Hs Hok Hj Hb;
    cbn [seq foldl]; [done |].
  unfold Difflib.outer_step at 2.
  match goal with
  | |- context [Difflib.inner_loop s blo bhi j2len ?js ∅ best] =>
      destruct (inner_loop_sound alo blo bhi s j2len js ∅ best)
        as (Hok' & Hj' & Hb');
        [ done | done | done | | intros j k H; by rewrite lookup_empty in H
        | intros j k H; by rewrite lookup_empty in H | done |];
        [| destruct (Difflib.inner_loop s blo bhi j2len js ∅ best) as [j2len' best'];
           cbn [fst snd] in *; apply IH; [lia | done | done | done] ]
  end.
  intros j Hj0. destruct (a !! s) as [x |] eqn:Ea; [| destruct Hj0].
  split; [by eexists |].
  destruct (Difflib.b2j b !! x) as [js0 |] eqn:Eb; [| destruct Hj0].
  symmetry. by eapply b2j_sound.
Qed.

Lemma extend_left_sound (alo blo besti bestj bestsize : nat) :
  is_match a b (besti, bestj, bestsize) ->
  is_match a b (Difflib.extend_left a b alo blo besti bestj bestsize).
Proof.
  revert bestj bestsize. induction besti as [|i' IH]; intros bestj bestsize H;
    cbn [Difflib.extend_left]; [done |].
  destruct (alo <? S i')%nat; cbn [andb]; [| done].
  destruct (blo <? bestj)%nat eqn:E2; cbn [andb]; [| done].
  case_bool_decide as Hc; [| done].
  apply Nat.ltb_lt in E2. destruct Hc as [Hs Heq]. apply IH.
  intros t Ht. cbn [fst snd] in *. destruct t as [|t].
  - refine (agree_at _ _ _ _ _ _ (conj Hs Heq)); lia.
  - refine (agree_at _ _ _ _ _ _ (H t _)); cbn [fst snd]; lia.
Qed.

Lemma extend_right_sound (n ahi bhi besti bestj bestsize : nat) :
  is_match a b (besti, bestj, bestsize) ->
  is_match a b (besti, bestj, Difflib.extend_right a b n ahi bhi besti bestj bestsize).
Proof.
  revert bestsize. induction n as [|n IH]; intros bestsize H;
    cbn [Difflib.extend_right]; [done |].
  destruct (besti + bestsize <? ahi)%nat; cbn [andb]; [| done].
  destruct (bestj + bestsize <? bhi)%nat; cbn [andb]; [| done].
  case_bool_decide as Hc; [| done]. destruct Hc as [Hs Heq]. apply IH.
  intros t Ht. cbn [fst snd] in *.
  destruct (decide (t < bestsize)%nat) as [Hlt | Hge]; [by apply H |].
  refine (agree_at _ _ _ _ _ _ (conj Hs Heq)); lia.
Qed.

(** The block [find_longest_match] returns is a common run. *)
Lemma find_longest_match_sound (alo ahi blo bhi : nat) :
  is_match a b (Difflib.find_longest_match a b alo ahi blo bhi).
Proof.
  unfold Difflib.find_longest_match.
  pose proof (outer_loop_sound alo ahi blo bhi (ahi - alo) alo ∅ (alo, blo, O)) as H.
  destruct (foldl _ _ _) as [j2len [[besti bestj] bestsize]].
  cbn [snd] in H.
  assert (H0 : is_match a b (besti, bestj, bestsize)).
  { apply H; [lia | intros j k E; by rewrite lookup_empty in E
             | intros j k E; by rewrite lookup_empty in E |].
    intros t Ht. cbn in Ht. lia. }
  apply (extend_left_sound alo blo) in H0.
  destruct (Difflib.extend_left a b alo blo besti bestj bestsize) as [[i j] k].
  by apply extend_right_sound.
Qed.

Lemma matching_loop_sound (fuel : nat) (queue : list (nat * nat * nat * nat))
    (blocks out : list Difflib.Match) :
  Forall (is_match a b) blocks ->
  Difflib.matching_loop a b fuel queue blocks = Some out ->
  Forall (is_match a b) out.
Proof.
  revert queue blocks. induction fuel as [|fuel IH]; intros queue blocks Hb;
    destruct queue as [|[[[alo ahi] blo] bhi] queue]; cbn [Difflib.matching_loop];
    try (by intros [= <-]); try discriminate.
  pose proof (find_longest_match_sound alo ahi blo bhi) as Hm.
  destruct (Difflib.find_longest_match a b alo ahi blo bhi) as [[i j] k].
  destruct (k =? 0)%nat; [by apply IH |].
  apply IH. apply Forall_app. split; [done | by constructor].
Qed.

Lemma collapse_sound (blocks : list Difflib.Match) (i1 j1 k1 : nat)
    (non_adjacent : list Difflib.Match) :
  Forall (is_match a b) blocks ->
  is_match a b (i1, j1, k1) ->
  Forall (is_match a b) non_adjacent ->
  Forall (is_match a b) (Difflib.collapse blocks i1 j1 k1 non_adjacent).
Proof.
  revert i1 j1 k1 non_adjacent.
  induction blocks as [|[[i2 j2] k2] blocks IH]; intros i1 j1 k1 non_adjacent Hb H1 Hn;
    cbn [Difflib.collapse].
  - destruct (k1 =? 0)%nat; [done |]. apply Forall_app. split; [done | by constructor].
  - apply Forall_cons in Hb as [H2 Hb].
    destruct ((i1 + k1 =? i2)%nat && (j1 + k1 =? j2)%nat) eqn:E.
    + apply andb_true_iff in E as [Ei Ej]. apply Nat.eqb_eq in Ei, Ej. subst i2 j2.
      apply IH; [done | | done].
      intros t Ht. cbn [fst snd] in *.
      destruct (decide (t < k1)%nat) as [Hlt | Hge]; [by apply H1 |].
      refine (agree_at _ _ _ _ _ _ (H2 (t - k1)%nat _)); cbn [fst snd]; lia.
    + apply IH; [done | done |].
      destruct (k1 =? 0)%nat; [done |]. apply Forall_app. split; [done | by constructor].
Qed.

(** Every block of [get_matching_blocks] is a common run of [a] and [b]. *)
Lemma get_matching_blocks_sound (blocks : list Difflib.Match) :
  Difflib.get_matching_blocks a b = Some blocks -> Forall (is_match a b) blocks.
Proof.
  unfold Difflib.get_matching_blocks.
  destruct (Difflib.matching_loop a b _ _ _) as [out |] eqn:E; [| discriminate].
  cbn [mbind option_bind]. intros [= <-].
  apply matching_loop_sound in E; [| constructor].
  apply Forall_app. split.
  - apply collapse_sound; [| intros t Ht; cbn in Ht; lia | constructor].
    eapply Permutation_Forall; [| exact E].
    symmetry. apply merge_sort_Permutation.
  - constructor; [| constructor]. intros t Ht. cbn in Ht. lia.
Qed.

End MatcherSound.

Lemma calculate_ratio_bounds (matches length : nat) :
  (2 * matches <= length)%nat ->
  (0 <= Difflib.calculate_ratio matches length <= 1)%Q.
Proof.
  intros H. unfold Difflib.calculate_ratio.
  destruct length as [|n]; cbn [Nat.eqb].
  - split; unfold Qle; cbn; lia.
  - unfold Qle. cbn [Qnum Qden].
    rewrite <- Pos.of_nat_succ, Znat.Zpos_P_of_succ_nat. lia.
Qed.

(** ** The matcher finds the longest matching blocks *)


Section MatcherExact.

Variables a b : list ascii.


































End MatcherExact.






(** The two scores the specification gives as examples: 0.8 for a title
    that holds the make and the model, 3/14 for an unrelated one. *)
Example file_score_close :
  (file_score "Trane RTU-1234 manual" "Trane" "RTU-1234" == 4 # 5)%Q.
Proof. by vm_compute. Qed.

Example file_score_unrelated :
  (file_score "Unrelated Page" "Trane" "RTU-1234" == 3 # 14)%Q.
Proof. by vm_compute. Qed.

(** * Further properties *)

(** ** What [download_file] returns and leaves behind *)

Lemma write_chunks_err (file : string) (cs : list string) (e : string) (w : World)
    (old : string) :
  files w !! file = Some old ->
  write_chunks file cs (Some e) w
  = (Raise e, set_files (<[file := old ++ body_of cs]> (files w)) w).
Proof.
  revert w old. induction cs as [|c cs IH]; intros w old Hold; cbn [write_chunks body_of foldr].
  - rewrite append_empty_r, insert_id by done. by rewrite set_files_id.
  - unfold bind, write at 1. rewrite Hold. cbn [default].
    erewrite IH by apply lookup_insert_eq.
    cbn [files set_files]. by rewrite insert_insert_eq, append_assoc.
Qed.

Lemma slash_not_warning (s : string) :
  Str.startswith "/" s = true -> Str.startswith "⚠️" s = false.
Proof.
  destruct s as [|c s]; [discriminate |]. cbn [Str.startswith].
  rewrite andb_true_r. intros H. apply Ascii.eqb_eq in H as <-. reflexivity.
Qed.

Lemma key_starts_with_slash (p : Pathlib.Path) :
  Str.startswith "/" (Pathlib.key p) = true.
Proof. apply str_starts_with_slash. Qed.

(** The result of [download_file] in every case. *)
Lemma download_file_result (url : string) (filename : option string) (w : World) :
  exists msg w',
    download_file url filename w = (Ok msg, w')
    /\ ((Str.startswith "⚠️" msg = true /\ Str.startswith "/" msg = false)
        \/ (exists name,
              safe_filename url filename = Ok name
              /\ msg = Pathlib.key (Pathlib.joinpath OUTPUT_DIR name)
              /\ Str.startswith "⚠️" msg = false
              /\ Str.startswith "/" msg = true
              /\ is_valid_pdf (Pathlib.joinpath OUTPUT_DIR name) w' = true)).
Proof.
  unfold download_file, try_except.
  unfold bind at 1, http_get at 1. cbn [requests_get log clock].
  destruct (requests_get w (clock w) url) as [r | e];
    [| do 2 eexists; split; [reflexivity | left; by split]].
  unfold bind at 1. unfold raise_for_status at 1.
  destruct ((400 <=? status_code r)%Z && (status_code r <? 600)%Z);
    [do 2 eexists; split; [reflexivity | left; by split] |].
  unfold ret at 1. unfold bind at 1, lift at 1.
  destruct (safe_filename url filename) as [name | e];
    [| do 2 eexists; split; [reflexivity | left; by split]].
  unfold bind at 1.
  destruct (mkdir_parents OUTPUT_DIR _) as [[[] | e] w1];
    [| do 2 eexists; split; [reflexivity | left; by split]].
  unfold bind at 1.
  destruct (open_wb (Pathlib.joinpath OUTPUT_DIR name) w1) as [[f | e] w2];
    [| do 2 eexists; split; [reflexivity | left; by split]].
  unfold bind at 1.
  destruct (write_chunks f (chunks r) (stream_error r) w2) as [[[] | e] w3];
    [| do 2 eexists; split; [reflexivity | left; by split]].
  unfold bind at 1.
  destruct (is_valid_pdf (Pathlib.joinpath OUTPUT_DIR name) w3) eqn:Hvalid; cbn [negb].
  - do 2 eexists. split; [reflexivity |]. right. exists name.
    split; [done |]. split; [done |].
    split; [apply slash_not_warning, key_starts_with_slash |].
    split; [apply key_starts_with_slash | done].
  - unfold bind at 1, print at 1. unfold bind at 1.
    destruct (unlink _ _) as [[[] | e] w4];
      [| do 2 eexists; split; [reflexivity | left; by split]].
    unfold bind at 1.
    destruct (offer_open_in_browser url w4) as [[[] | e] w5];
      do 2 eexists; (split; [reflexivity | left; by split]).
Qed.

(** X1.  [download_file] never raises.  What it returns is either a text
    that begins with the warning glyph and not with a slash, or the
    absolute path of the file it saved, which begins with a slash and not
    with the glyph; and then the file is on disk and begins with [%PDF]. *)
Theorem download_file_outcome (url : string) (filename : option string) (w : World) :
  exists msg w',
    download_file url filename w = (Ok msg, w')
    /\ ((Str.startswith "⚠️" msg = true /\ Str.startswith "/" msg = false)
        \/ (Str.startswith "⚠️" msg = false
            /\ Str.startswith "/" msg = true
            /\ exists name rest,
                 safe_filename url filename = Ok name
                 /\ msg = Pathlib.key (Pathlib.joinpath OUTPUT_DIR name)
                 /\ files w' !! msg = Some ("%PDF" ++ rest))).
Proof.
  destruct (download_file_result url filename w)
    as (msg & w' & Hrun & [Hfail | (name & Hname & -> & Hw & Hs & Hvalid)]).
  - exists msg, w'. split; [done | by left].
  - do 2 eexists. split; [exact Hrun |]. right. split; [done |]. split; [done |].
    unfold is_valid_pdf in Hvalid.
    destruct (files w' !! _) as [content |] eqn:E; [| discriminate].
    apply String.eqb_eq, take4_signature in Hvalid as [rest ->]. by exists name, rest.
Qed.

(** X2.  When the GET request raises, or its status is between 400 and
    599, [download_file] returns the failure text with the message of the
    exception, and has done nothing but the request: no directory is made,
    no file is touched, no input is read. *)
Theorem download_file_request_failure (url : string) (filename : option string)
    (w : World) (e : string) :
  requests_get w (clock w) url = Raise e
  \/ (exists r, requests_get w (clock w) url = Ok r
                /\ (400 <= status_code r < 600)%Z /\ e = http_error r) ->
  download_file url filename w = (Ok (download_failed e), tick (log (EvGet url) w))
  /\ Str.startswith "⚠️" (download_failed e) = true.
Proof.
  intros H. split; [| reflexivity].
  unfold download_file, try_except.
  unfold bind at 1, http_get at 1. cbn [requests_get log clock].
  destruct H as [-> | (r & -> & Hst & ->)]; [reflexivity |].
  unfold bind at 1. unfold raise_for_status at 1.
  replace ((400 <=? status_code r)%Z && (status_code r <? 600)%Z) with true; [reflexivity |].
  symmetry. apply andb_true_iff. split; [apply Z.leb_le | apply Z.ltb_lt]; lia.
Qed.

Lemma download_file_request_failure_witness :
  download_file "https://www.trane.com/docs/gone.pdf" None
    (world_with [] 200 (Ok refused_response) [])
  = (Ok (download_failed (http_error refused_response)),
     tick (log (EvGet "https://www.trane.com/docs/gone.pdf")
             (world_with [] 200 (Ok refused_response) [])))
  /\ Str.startswith "⚠️" (download_failed (http_error refused_response)) = true.
Proof.
  apply download_file_request_failure. right. exists refused_response.
  split; [reflexivity |]. split; [simpl; lia | reflexivity].
Defined.

(** X3.  When the stream of the body breaks after the file was opened,
    [download_file] returns the failure text with the message of the
    exception and leaves the part it has written on disk: the file is not
    removed. *)
Theorem download_file_broken_stream (url : string) (filename : option string)
    (w : World) (r : Response) (name f e : string) (w2 : World) :
  requests_get w (clock w) url = Ok r ->
  status_passes r ->
  stream_error r = Some e ->
  safe_filename url filename = Ok name ->
  let path := Pathlib.joinpath OUTPUT_DIR name in
  (mkdir_parents OUTPUT_DIR ;; open_wb path) (tick (log (EvGet url) w)) = (Ok f, w2) ->
  exists w',
    download_file url filename w = (Ok (download_failed e), w')
    /\ files w' !! Pathlib.key path = Some (body_of (chunks r))
    /\ unlinked (trace w') = unlinked (trace w)
    /\ stdin w' = stdin w.
Proof.
  intros Hget Hst Hstream Hname path Hopen.
  apply bind_ok_inv in Hopen as ([] & w1 & Hmk & Hop).
  pose proof Hop as Hop'. apply open_wb_inv in Hop' as (-> & Hnodir & ->).
  pose proof Hmk as Hmk'. apply mkdir_all_inv in Hmk' as (d & Hw1 & Hd).
  unfold download_file, try_except.
  unfold bind at 1. unfold http_get at 1. cbn [requests_get log clock]. rewrite Hget.
  unfold bind at 1. rewrite raise_for_status_passes by done.
  unfold bind at 1. unfold lift at 1. rewrite Hname.
  unfold bind at 1. rewrite Hmk.
  unfold bind at 1. fold path. rewrite Hop.
  unfold bind at 1. rewrite Hstream.
  rewrite (write_chunks_err _ _ _ _ "") by apply lookup_insert_eq.
  unfold ret. eexists. split; [reflexivity |].
  cbn [files set_files trace log stdin]. rewrite insert_insert_eq, append_empty_l.
  split; [apply lookup_insert_eq |]. subst w1. cbn [trace stdin set_dirs tick log].
  split; [| reflexivity].
  unfold unlinked. rewrite !omap_app. cbn. by rewrite !app_nil_r.
Qed.

Lemma download_file_broken_stream_witness :
  exists w',
    download_file "https://www.trane.com/docs/RTU-1234.pdf" None
      (world_with [] 200 (Ok broken_response) [])
    = (Ok (download_failed "Connection broken"), w')
    /\ files w' !! "/mnt/data/RTU-1234.pdf" = Some "%PDF-1.7 first part"
    /\ unlinked (trace w') = unlinked (trace (world_with [] 200 (Ok broken_response) []))
    /\ stdin w' = stdin (world_with [] 200 (Ok broken_response) []).
Proof.
  eapply (download_file_broken_stream "https://www.trane.com/docs/RTU-1234.pdf" None
            (world_with [] 200 (Ok broken_response) []) broken_response
            "RTU-1234.pdf").
  - reflexivity.
  - left. simpl. lia.
  - reflexivity.
  - reflexivity.
  - reflexivity.
Defined.

(** X4.  When the request succeeds, the stream ends normally, the file can
    be opened and the content begins with [%PDF], [download_file] returns
    the resolved path of the file, whose content is the whole body; it has
    made one request and opened one file, removed nothing and read no
    input. *)
Theorem download_file_saves_pdf (url : string) (filename : option string)
    (w : World) (r : Response) (name f : string) (w2 : World) :
  requests_get w (clock w) url = Ok r ->
  status_passes r ->
  stream_error r = None ->
  safe_filename url filename = Ok name ->
  let path := Pathlib.joinpath OUTPUT_DIR name in
  (mkdir_parents OUTPUT_DIR ;; open_wb path) (tick (log (EvGet url) w)) = (Ok f, w2) ->
  Str.take 4 (body_of (chunks r)) = "%PDF" ->
  exists w',
    download_file url filename w = (Ok (Pathlib.key path), w')
    /\ files w' !! Pathlib.key path = Some (body_of (chunks r))
    /\ trace w' = (trace w ++ [EvGet url; EvOpenWrite (Pathlib.key path)])%list
    /\ stdin w' = stdin w.
Proof.
  intros Hget Hst Hstream Hname path Hopen Hsig.
  apply bind_ok_inv in Hopen as ([] & w1 & Hmk & Hop).
  pose proof Hop as Hop'. apply open_wb_inv in Hop' as (-> & Hnodir & ->).
  pose proof Hmk as Hmk'. apply mkdir_all_inv in Hmk' as (d & Hw1 & Hd).
  unfold download_file, try_except.
  unfold bind at 1. unfold http_get at 1. cbn [requests_get log clock]. rewrite Hget.
  unfold bind at 1. rewrite raise_for_status_passes by done.
  unfold bind at 1. unfold lift at 1. rewrite Hname.
  unfold bind at 1. rewrite Hmk.
  unfold bind at 1. fold path. rewrite Hop.
  unfold bind at 1. rewrite Hstream.
  rewrite (write_chunks_ok _ _ _ "") by apply lookup_insert_eq.
  unfold bind at 1. unfold is_valid_pdf at 1. cbn [files set_files].
  rewrite insert_insert_eq, lookup_insert_eq, append_empty_l.
  apply String.eqb_eq in Hsig. rewrite Hsig. cbn [negb]. unfold ret.
  eexists. split; [reflexivity |]. cbn [files set_files trace log stdin].
  split; [apply lookup_insert_eq |]. subst w1. cbn [trace stdin set_dirs tick log].
  split; [by rewrite <- app_assoc | reflexivity].
Qed.

Lemma download_file_saves_pdf_witness :
  exists w',
    download_file "https://www.trane.com/docs/RTU-1234%20manual.pdf" None
      (sample_world [] 200 "%PDF-1.7 the manual" [])
    = (Ok "/mnt/data/RTU-1234_manual.pdf", w')
    /\ files w' !! "/mnt/data/RTU-1234_manual.pdf" = Some "%PDF-1.7 the manual"
    /\ trace w'
       = (trace (sample_world [] 200 "%PDF-1.7 the manual" [])
            ++ [EvGet "https://www.trane.com/docs/RTU-1234%20manual.pdf";
                EvOpenWrite "/mnt/data/RTU-1234_manual.pdf"])%list
    /\ stdin w' = stdin (sample_world [] 200 "%PDF-1.7 the manual" []).
Proof.
  eapply (download_file_saves_pdf "https://www.trane.com/docs/RTU-1234%20manual.pdf" None
            (sample_world [] 200 "%PDF-1.7 the manual" [])
            (sample_response "%PDF-1.7 the manual") "RTU-1234_manual.pdf").
  - reflexivity.
  - left. simpl. lia.
  - reflexivity.
  - reflexivity.
  - reflexivity.
  - reflexivity.
Defined.

(** ** How the rounds of [find_manual] follow one another *)

Lemma find_manual_loop_fuel (f1 f2 : nat) (make model : option string) (w : World) :
  (length (stdin w) < f1)%nat -> (length (stdin w) < f2)%nat ->
  find_manual_loop f1 make model w = find_manual_loop f2 make model w.
Proof.
  revert f2 make model w. induction f1 as [|f1 IH]; intros f2 make model w H1 H2; [lia |].
  destruct f2 as [|f2]; [lia |]. cbn [find_manual_loop].
  destruct (strict_find_manual_round make model w) as [_ Hs].
  destruct (find_manual_round make model w) as [[[make' model' | v] | e] w1];
    cbn [fst snd] in Hs; try reflexivity.
  specialize (Hs make' model' eq_refl). apply IH; lia.
Qed.

(** A round that asks for another one hands over to a fresh call. *)
Lemma find_manual_continue (make model make' model' : option string) (w w1 : World) :
  find_manual_round make model w = (Ok (Continue make' model'), w1) ->
  find_manual make model w = find_manual make' model' w1.
Proof.
  intros H. unfold find_manual at 1. cbn [find_manual_loop]. rewrite H.
  destruct (strict_find_manual_round make model w) as [_ Hs].
  rewrite H in Hs. cbn [fst snd] in Hs. specialize (Hs make' model' eq_refl).
  unfold find_manual. apply find_manual_loop_fuel; lia.
Qed.

Lemma find_manual_return (make model : option string) (w w1 : World) (v : string) :
  find_manual_round make model w = (Ok (Return v), w1) ->
  find_manual make model w = Some (Ok v, w1).
Proof. intros H. unfold find_manual. cbn [find_manual_loop]. by rewrite H. Qed.

Lemma find_manual_raise (make model : option string) (w w1 : World) (e : string) :
  find_manual_round make model w = (Raise e, w1) ->
  find_manual make model w = Some (Raise e, w1).
Proof. intros H. unfold find_manual. cbn [find_manual_loop]. by rewrite H. Qed.

(** X5.  [find_manual] comes to an end whatever the network answers and
    the user types: it returns a text or raises, at the latest when the
    input runs out; and any number of rounds above the number of lines of
    input gives the same result. *)
Theorem find_manual_terminates (make model : option string) (w : World) :
  (exists r w', find_manual make model w = Some (r, w'))
  /\ (forall fuel, (length (stdin w) < fuel)%nat ->
        find_manual_loop fuel make model w = find_manual make model w).
Proof.
  split; [apply find_manual_returns |].
  intros fuel H. unfold find_manual. apply find_manual_loop_fuel; lia.
Qed.

Lemma find_manual_terminates_witness :
  find_manual_loop 7 None None (sample_world [] 200 "" ["Trane"; "RTU-1234"; "n"])
  = find_manual None None (sample_world [] 200 "" ["Trane"; "RTU-1234"; "n"]).
Proof.
  apply (proj2 (find_manual_terminates None None
                  (sample_world [] 200 "" ["Trane"; "RTU-1234"; "n"])) 7%nat).
  simpl. lia.
Defined.

Lemma round_of_asked (make model : option string) (w w2 : World) (mk md : string) :
  asked make model w mk md w2 ->
  ddgs_text w2 = ddgs_text w /\ clock w2 = clock w
  /\ requests_head w2 = requests_head w
  /\ find_manual_round make model w
     = match ddgs_text w (clock w) (query_of mk md) with
       | Raise e => (Raise e, searched mk md w2)
       | Ok [] =>
           (print "❌ No results found." ;;
            line <- input retry_prompt ;;
            if (Str.lower line =? "y")%string then ret (Continue None None)
            else ret (Return "❌ No results found.")) (searched mk md w2)
       | Ok (r :: results) =>
           (scored <- score_results (r :: results) mk md [] ;;
            match scored with
            | [] => report_blocked (r :: results) (Some mk) (Some md)
            | _ :: _ =>
                match sort_desc scored with
                | best :: _ => handle_best best
                | [] => raise "list index out of range"
                end
            end) (searched mk md w2)
       end.
Proof.
  intros (w1 & Hmk & Hmd).
  assert (Hnet : ddgs_text w2 = ddgs_text w /\ clock w2 = clock w
                 /\ requests_head w2 = requests_head w).
  { apply ask_if_missing_inv in Hmk as [(-> & _) | (? & ? & _ & _ & ->)];
      apply ask_if_missing_inv in Hmd as [(-> & _) | (? & ? & _ & _ & ->)];
      by repeat split. }
  destruct Hnet as (Hd & Hc & Hh). repeat split; try done.
  rewrite (find_manual_round_search _ _ _ _ _ _ _ Hmk Hmd). by rewrite Hd, Hc.
Qed.

(** X6.  When the search finds nothing and the user answers [y] (in
    either case) to the retry prompt, [find_manual] goes on as a fresh call
    without arguments: the make and the model are both asked for again,
    also when they were passed in. *)
Theorem find_manual_retry_no_results (make model : option string) (w w2 : World)
    (mk md line : string) (rest : list string) :
  asked make model w mk md w2 ->
  ddgs_text w (clock w) (query_of mk md) = Ok [] ->
  stdin w2 = line :: rest ->
  Str.lower line = "y" ->
  find_manual make model w
  = find_manual None None
      (answered retry_prompt rest
         (log (EvPrint "❌ No results found.") (searched mk md w2))).
Proof.
  intros Hasked Hsearch Hin Hyes.
  destruct (round_of_asked _ _ _ _ _ _ Hasked) as (_ & _ & _ & Hround).
  apply find_manual_continue. rewrite Hround, Hsearch.
  unfold bind at 1, print at 1. unfold bind at 1, input at 1.
  cbn [stdin log searched tick]. rewrite Hin.
  apply String.eqb_eq in Hyes. by rewrite Hyes.
Qed.

Lemma find_manual_retry_no_results_witness :
  find_manual (Some "Trane") (Some "RTU-1234")
    (sample_world [] 200 "" ["Y"; "Carrier"; "48TC"; "n"])
  = find_manual None None
      (answered retry_prompt ["Carrier"; "48TC"; "n"]
         (log (EvPrint "❌ No results found.")
            (searched "Trane" "RTU-1234"
               (sample_world [] 200 "" ["Y"; "Carrier"; "48TC"; "n"])))).
Proof.
  apply (find_manual_retry_no_results (Some "Trane") (Some "RTU-1234")
           (sample_world [] 200 "" ["Y"; "Carrier"; "48TC"; "n"]) _
           "Trane" "RTU-1234" "Y" ["Carrier"; "48TC"; "n"]).
  - by eexists.
  - reflexivity.
  - reflexivity.
  - reflexivity.
Defined.

(** X7.  An exception of the search is not caught: [find_manual] raises
    it, right after the search, and nothing is probed or downloaded. *)
Theorem find_manual_search_error (make model : option string) (w w2 : World)
    (mk md e : string) :
  asked make model w mk md w2 ->
  ddgs_text w (clock w) (query_of mk md) = Raise e ->
  find_manual make model w = Some (Raise e, searched mk md w2)
  /\ heads (trace (searched mk md w2)) = heads (trace w)
  /\ downloads (trace (searched mk md w2)) = downloads (trace w).
Proof.
  intros Hasked Hsearch.
  destruct (round_of_asked _ _ _ _ _ _ Hasked) as (_ & _ & _ & Hround).
  split; [apply find_manual_raise; by rewrite Hround, Hsearch |].
  destruct Hasked as (w1 & Hmk & Hmd).
  apply ask_if_missing_inv in Hmk as [(-> & _) | (? & ? & _ & _ & ->)];
    apply ask_if_missing_inv in Hmd as [(-> & _) | (? & ? & _ & _ & ->)];
    cbn [trace searched tick log set_stdin]; unfold heads, downloads;
    rewrite !omap_app; cbn; by rewrite !app_nil_r.
Qed.

Lemma find_manual_search_error_witness :
  find_manual (Some "Trane") None
    (set_stdin ["RTU-1234"] offline_world)
  = Some (Raise "timed out",
          searched "Trane" "RTU-1234"
            (answered model_prompt [] (set_stdin ["RTU-1234"] offline_world))).
Proof.
  apply (find_manual_search_error (Some "Trane") None
           (set_stdin ["RTU-1234"] offline_world) _ "Trane" "RTU-1234" "timed out").
  - by eexists.
  - reflexivity.
Defined.

(** ** The scoring loop *)

Lemma is_accessible_url_run (url : string) (w : World) :
  exists answer,
    is_accessible_url url w = (Ok answer, tick (log (EvHead url) w))
    /\ (answer.1 = true <-> requests_head w (clock w) url = Ok 200%Z).
Proof.
  unfold is_accessible_url, try_except, bind, head_status. cbn [requests_head clock log].
  destruct (requests_head w (clock w) url) as [status | e].
  - destruct (status =? 200)%Z eqn:E200.
    + apply Z.eqb_eq in E200 as ->. eexists. split; [reflexivity | done].
    + apply Z.eqb_neq in E200.
      destruct (status =? 403)%Z; [| destruct (status =? 404)%Z];
        (eexists; split; [reflexivity |]; cbn; split; [done | by intros [= ?]]).
  - eexists. split; [reflexivity |]. cbn. split; done.
Qed.

Lemma file_score_bounds (title make model : string) :
  (0 <= file_score title make model <= 1)%Q.
Proof.
  unfold file_score, Difflib.ratio.
  match goal with
  | |- context [Difflib.get_matching_blocks ?a ?b] =>
      destruct (get_matching_blocks_ok a b) as (blocks & -> & Ha & Hb)
  end.
  apply calculate_ratio_bounds. unfold total_size in *. simpl. lia.
Qed.

Lemma domain_score_range (url make : string) (d : Z) :
  domain_score url make = Ok d -> (d = 0 \/ d = 2 \/ d = 3 \/ d = 5)%Z.
Proof.
  unfold domain_score. destruct (Urllib.urlparse url) as [p | e]; [| discriminate].
  destruct (existsb _ TRUSTED_DOMAINS), (Str.contains _ _); intros [= <-]; lia.
Qed.

Lemma scored_from_bounds (results : list SearchResult) (make model : string)
    (c : Candidate) :
  scored_from results make model c -> (0 <= score_of c <= 6)%Q.
Proof.
  intros (r & d & _ & _ & _ & _ & Hd & Hs). unfold score_of. rewrite Hs.
  destruct (file_score_bounds c.1.2 make model) as [H0 H1].
  apply domain_score_range in Hd.
  assert (Hd' : (inject_Z 0 <= inject_Z d <= inject_Z 5)%Q)
    by (split; rewrite <- Zle_Qle; lia).
  destruct Hd' as [Hd0 Hd5]. split.
  - apply (Qplus_le_compat 0 _ (inject_Z 0) _ H0 Hd0).
  - apply (Qplus_le_compat _ 1 _ (inject_Z 5) H1 Hd5).
Qed.

Lemma scored_from_cons (r : SearchResult) (results : list SearchResult)
    (make model : string) (c : Candidate) :
  scored_from results make model c -> scored_from (r :: results) make model c.
Proof.
  intros (r0 & d & Hin & H). exists r0, d. split; [by right | done].
Qed.

Lemma truthy_url (r : SearchResult) :
  Str.truthy_opt (result_url r) = true ->
  exists u, result_url r = Some u /\ Str.truthy u = true /\ probed_url r = Some u.
Proof.
  intros H. unfold probed_url. rewrite H.
  destruct (result_url r) as [u |]; [| discriminate]. by exists u.
Qed.

Lemma probes_cons (r : SearchResult) (results : list SearchResult) :
  omap probed_url (r :: results)
  = match probed_url r with
    | Some u => u :: omap probed_url results
    | None => omap probed_url results
    end.
Proof. reflexivity. Qed.

(** What the scoring loop has done when it ends normally. *)
Lemma score_results_inv (results : list SearchResult) (make model : string)
    (acc scored : list Candidate) (w w' : World) :
  score_results results make model acc w = (Ok scored, w') ->
  exists new,
    scored = (acc ++ new)%list
    /\ Forall (scored_from results make model) new
    /\ (length new <= length results)%nat
    /\ heads (trace w') = (heads (trace w) ++ omap probed_url results)%list
    /\ files w' = files w /\ stdin w' = stdin w
    /\ downloads (trace w') = downloads (trace w).
Proof.
  revert acc w. induction results as [|r results IH]; intros acc w; cbn [score_results].
  - intros [= <- <-]. exists []. rewrite !app_nil_r. repeat split; [constructor | done].
  - destruct (Str.truthy_opt (result_url r)) eqn:Hurl; cbn [negb].
    + destruct (truthy_url r Hurl) as (u & Hu & Htruthy & Hprobe).
      rewrite Hu. change (default "" (Some u)) with u.
      unfold bind at 1.
      destruct (is_accessible_url_run u w) as ([accessible reason] & -> & _).
      assert (Hheads : heads (trace (tick (log (EvHead u) w))) = (heads (trace w) ++ [u])%list)
        by (cbn [trace tick log]; unfold heads; by rewrite omap_app).
      assert (Hdl : downloads (trace (tick (log (EvHead u) w))) = downloads (trace w))
        by (cbn [trace tick log]; unfold downloads; rewrite omap_app; cbn;
            by rewrite app_nil_r).
      destruct accessible; cbn [negb].
      * unfold bind at 1, lift at 1.
        destruct (domain_score u make) as [d | e] eqn:Hd; [| discriminate].
        intros H. apply IH in H as (new & -> & Hall & Hlen & Hh & Hf & Hs & Hg).
        exists (((file_score (result_title r) make model + inject_Z d)%Q,
                 result_title r, u) :: new).
        rewrite <- app_assoc. split; [done |]. split.
        { constructor.
          - exists r, d. cbn [fst snd]. repeat split; try done. by left.
          - eapply Forall_impl; [exact Hall |]. intros c. apply scored_from_cons. }
        split; [cbn; lia |]. rewrite probes_cons, Hprobe.
        cbn [files stdin tick log] in Hf, Hs.
        split; [by rewrite Hh, Hheads, <- app_assoc |].
        split; [done |]. split; [done | by rewrite Hg, Hdl].
      * intros H. apply IH in H as (new & -> & Hall & Hlen & Hh & Hf & Hs & Hg).
        exists new. split; [done |]. split.
        { eapply Forall_impl; [exact Hall |]. intros c. apply scored_from_cons. }
        split; [cbn; lia |]. rewrite probes_cons, Hprobe.
        cbn [files stdin tick log] in Hf, Hs.
        split; [by rewrite Hh, Hheads, <- app_assoc |].
        split; [done |]. split; [done | by rewrite Hg, Hdl].
    + intros H. apply IH in H as (new & -> & Hall & Hlen & Hh & Hf & Hs & Hg).
      exists new. split; [done |]. split.
      { eapply Forall_impl; [exact Hall |]. intros c. apply scored_from_cons. }
      split; [cbn; lia |]. rewrite probes_cons.
      unfold probed_url at 1. by rewrite Hurl.
Qed.

(** X8.  When the scoring loop ends normally, every candidate comes from
    a search result with a non-empty link that was probed, carries its
    title, and has as score the title score plus the domain score, between
    0 and 6; there are no more candidates than results; exactly the
    results with a link were probed, once each and in order; no file was
    touched, nothing was downloaded and no input was read. *)
Theorem score_results_sound (results : list SearchResult) (make model : string)
    (scored : list Candidate) (w w' : World) :
  score_results results make model [] w = (Ok scored, w') ->
  Forall (scored_from results make model) scored
  /\ Forall (fun c => (0 <= score_of c <= 6)%Q) scored
  /\ (length scored <= length results)%nat
  /\ heads (trace w') = (heads (trace w) ++ omap probed_url results)%list
  /\ files w' = files w /\ stdin w' = stdin w
  /\ downloads (trace w') = downloads (trace w).
Proof.
  intros H. apply score_results_inv in H as (new & -> & Hall & Hlen & Hrest).
  cbn [app]. split; [done |]. split; [| by split].
  eapply Forall_impl; [exact Hall |]. intros c. apply scored_from_bounds.
Qed.

Lemma score_results_sound_witness :
  let w := sample_world [linkless_result; sample_result] 200 "" [] in
  let out := score_results [linkless_result; sample_result] "Trane" "RTU-1234" [] w in
  Forall (scored_from [linkless_result; sample_result] "Trane" "RTU-1234")
    [((203 # 35)%Q, "Trane RTU-1234 manual",
      "https://www.trane.com/docs/RTU-1234%20manual.pdf")]
  /\ heads (trace out.2)
     = (heads (trace w)
          ++ omap probed_url [linkless_result; sample_result])%list.
Proof.
  intros w out.
  assert (Hrun : out = (Ok [((203 # 35)%Q, "Trane RTU-1234 manual",
                             "https://www.trane.com/docs/RTU-1234%20manual.pdf")],
                        out.2))
    by (vm_compute; reflexivity).
  pose proof (score_results_sound _ _ _ _ _ _ Hrun) as (Hall & _ & _ & Hheads & _).
  split; [exact Hall | exact Hheads].
Defined.

(** The scoring loop over two lists in a row: the second starts from the
    candidates and the world the first ends with. *)
Lemma score_results_app (before after : list SearchResult) (make model : string)
    (scored : list Candidate) (w : World) :
  score_results (before ++ after) make model scored w
  = match score_results before make model scored w with
    | (Ok scored', w') => score_results after make model scored' w'
    | (Raise e, w') => (Raise e, w')
    end.
Proof.
  revert scored w. induction before as [|r before IH]; intros scored w; [done |].
  cbn [app score_results].
  destruct (negb (Str.truthy_opt (result_url r))); [apply IH |].
  unfold bind, lift.
  destruct (is_accessible_url _ w) as [[[accessible reason] | e] w1]; [| done].
  destruct (negb accessible); [apply IH |].
  destruct (domain_score _ make) as [d | e]; [apply IH | done].
Qed.

(** X9.  A search result, at any place among the results, whose link
    answers 200 to the probe but is rejected by [urlparse] makes
    [domain_score] raise, and the exception is not caught: when the results
    before it were scored normally, [find_manual] raises it after that
    probe, and the results after it are not looked at. *)
Theorem find_manual_malformed_url (make model : option string) (w w2 w3 : World)
    (mk md u e : string) (r : SearchResult) (before after : list SearchResult)
    (scored : list Candidate) :
  asked make model w mk md w2 ->
  ddgs_text w (clock w) (query_of mk md) = Ok (before ++ r :: after)%list ->
  score_results before mk md [] (searched mk md w2) = (Ok scored, w3) ->
  result_url r = Some u ->
  Str.truthy u = true ->
  requests_head w3 (clock w3) u = Ok 200%Z ->
  Urllib.urlparse u = Raise e ->
  find_manual make model w = Some (Raise e, tick (log (EvHead u) w3)).
Proof.
  intros Hasked Hsearch Hbefore Hu Htruthy Hhead Hparse.
  destruct (round_of_asked _ _ _ _ _ _ Hasked) as (_ & _ & _ & Hround).
  apply find_manual_raise. rewrite Hround, Hsearch.
  destruct (before ++ r :: after)%list as [|r0 results] eqn:Hres;
    [by destruct before |].
  rewrite <- Hres. unfold bind at 1. rewrite score_results_app, Hbefore.
  cbn [score_results]. rewrite Hu. cbn [Str.truthy_opt].
  rewrite Htruthy. cbn [negb]. change (default "" (Some u)) with u.
  unfold bind at 1.
  destruct (is_accessible_url_run u w3) as ([accessible reason] & -> & Hacc).
  cbn [fst] in Hacc. apply Hacc in Hhead as ->. cbn [negb].
  unfold bind at 1, lift at 1. unfold domain_score. by rewrite Hparse.
Qed.

Lemma find_manual_malformed_url_witness :
  let w := sample_world [sample_result; malformed_result; weak_result] 200 "" [] in
  let w3 := tick (log (EvHead "https://www.trane.com/docs/RTU-1234%20manual.pdf")
                    (searched "Trane" "RTU-1234" w)) in
  find_manual (Some "Trane") (Some "RTU-1234") w
  = Some (Raise "Invalid IPv6 URL",
          tick (log (EvHead "https://user[@www.trane.com/manual.pdf") w3)).
Proof.
  intros w w3.
  apply (find_manual_malformed_url (Some "Trane") (Some "RTU-1234") w w w3
           "Trane" "RTU-1234" "https://user[@www.trane.com/manual.pdf"
           "Invalid IPv6 URL" malformed_result [sample_result] [weak_result]
           [((203 # 35)%Q, "Trane RTU-1234 manual",
             "https://www.trane.com/docs/RTU-1234%20manual.pdf")]).
  - by eexists.
  - reflexivity.
  - by vm_compute.
  - reflexivity.
  - reflexivity.
  - reflexivity.
  - reflexivity.
Defined.

Lemma contains_empty (s : string) : Str.contains "" s = true.
Proof. by destruct s. Qed.

(** X10.  With an empty make, the make bonus is always granted: every
    domain score is 2 or more, so every candidate scores 2 or more, and a
    best match with such a score is always followed by the download
    prompt. *)
Theorem blank_make_is_close_match (results : list SearchResult) (model : string) :
  (forall url d, domain_score url "" = Ok d -> (2 <= d)%Z)
  /\ (forall scored w w',
        score_results results "" model [] w = (Ok scored, w') ->
        Forall (fun c => (2 <= score_of c)%Q) scored)
  /\ (forall best_score best_title best_url w3,
        (2 <= best_score)%Q ->
        exists tail,
          trace (handle_best (best_score, best_title, best_url) w3).2
          = (trace (best_shown best_title best_url w3)
               ++ EvInput download_prompt :: tail)%list).
Proof.
  assert (Hdom : forall url d, domain_score url "" = Ok d -> (2 <= d)%Z).
  { intros url d. unfold domain_score.
    destruct (Urllib.urlparse url) as [p | e]; [| discriminate].
    change (Str.lower "") with "". rewrite contains_empty.
    destruct (existsb _ TRUSTED_DOMAINS); intros [= <-]; lia. }
  split; [exact Hdom |]. split.
  - intros scored w w' H. apply score_results_inv in H as (new & -> & Hall & _).
    cbn [app]. eapply Forall_impl; [exact Hall |].
    intros c (r & d & _ & _ & _ & _ & Hd & Hs). unfold score_of. rewrite Hs.
    apply Hdom in Hd. destruct (file_score_bounds c.1.2 "" model) as [H0 _].
    assert (Hd' : (inject_Z 2 <= inject_Z d)%Q) by (rewrite <- Zle_Qle; lia).
    apply (Qplus_le_compat 0 _ (inject_Z 2) _ H0 Hd').
  - intros best_score best_title best_url w3 Hs.
    rewrite handle_best_cases.
    assert (Hgt : (best_score ?= 1 # 2)%Q = Gt).
    { apply Qgt_alt. eapply Qlt_le_trans; [| exact Hs]. reflexivity. }
    rewrite Hgt. destruct (stdin w3) as [|line rest]; [by exists [] |].
    destruct (progress_after_confirm best_url line
                (set_stdin rest (log (EvInput download_prompt)
                                   (best_shown best_title best_url w3))))
      as [[tail Htail] _].
    exists tail. rewrite Htail. cbn [trace set_stdin log]. by rewrite <- app_assoc.
Qed.

Lemma blank_make_is_close_match_witness :
  domain_score "https://forum.example.org/thread/77" "" = Ok 2%Z
  /\ (2 <= 2)%Z
  /\ exists tail,
       trace (handle_best ((31 # 14)%Q, "Unrelated Page",
                           "https://forum.example.org/thread/77")
                (sample_world [weak_result] 200 "" ["n"; "n"])).2
       = (trace (best_shown "Unrelated Page" "https://forum.example.org/thread/77"
                   (sample_world [weak_result] 200 "" ["n"; "n"]))
            ++ EvInput download_prompt :: tail)%list.
Proof.
  destruct (blank_make_is_close_match [weak_result] "RTU-1234") as (Hdom & _ & Hbest).
  split; [reflexivity |].
  split; [exact (Hdom "https://forum.example.org/thread/77" 2%Z eq_refl) |].
  apply Hbest. discriminate.
Defined.

(** ** When nothing can be ranked *)

Lemma quiet_refl (w : World) : quiet w w.
Proof. by repeat split. Qed.

Lemma quiet_trans (w1 w2 w3 : World) : quiet w1 w2 -> quiet w2 w3 -> quiet w1 w3.
Proof.
  intros (A1 & B1 & C1 & D1) (A2 & B2 & C2 & D2).
  repeat split; congruence.
Qed.

Ltac quiet_step :=
  first
    [ apply (respects_bind quiet quiet_trans); [| intros ?]
    | apply (respects_ret quiet quiet_refl) ].

Ltac quiet_log :=
  intros ?; unfold quiet, searches, downloads, opened; cbn;
  rewrite ?omap_app; cbn; by rewrite ?app_nil_r.

Lemma quiet_print (text : string) : respects quiet (print text).
Proof. quiet_log. Qed.

Lemma quiet_input (prompt : string) : respects quiet (input prompt).
Proof.
  intros w. unfold input. cbn [stdin log].
  destruct (stdin w); unfold quiet, searches, downloads, opened; cbn;
    rewrite ?omap_app; cbn; by rewrite ?app_nil_r.
Qed.

Lemma quiet_is_accessible_url (url : string) : respects quiet (is_accessible_url url).
Proof.
  intros w. destruct (is_accessible_url_run url w) as (answer & -> & _).
  unfold quiet, searches, downloads, opened. cbn.
  rewrite ?omap_app. cbn. by rewrite ?app_nil_r.
Qed.

Lemma quiet_report_blocked (results : list SearchResult) (make model : option string) :
  respects quiet (report_blocked results make model).
Proof.
  revert make model. induction results as [|r results IH]; intros make model;
    cbn [report_blocked].
  - quiet_step; [apply quiet_print | quiet_step].
  - destruct (negb (Str.truthy_opt (result_url r))); [apply IH |].
    quiet_step; [apply quiet_is_accessible_url |].
    destruct a as [accessible reason]. destruct (negb accessible); [| apply IH].
    quiet_step; [apply quiet_print |].
    quiet_step; [apply quiet_print |].
    quiet_step; [apply quiet_input |].
    destruct (_ =? _)%string; [apply IH | quiet_step].
Qed.

Lemma report_blocked_outcome (results : list SearchResult) (make model : option string)
    (w w' : World) (r : result Step) :
  report_blocked results make model w = (r, w') ->
  r = Ok (Return "❌ No accessible manuals found.")
  \/ r = Ok (Return "⚠️ No accessible manuals found. Exiting.")
  \/ r = Raise "EOF when reading a line".
Proof.
  revert make model w. induction results as [|r0 results IH]; intros make model w;
    cbn [report_blocked].
  - intros [= <- _]. by left.
  - destruct (negb (Str.truthy_opt (result_url r0))); [apply IH |].
    unfold bind at 1.
    destruct (is_accessible_url_run (default "" (result_url r0)) w)
      as ([accessible reason] & -> & _).
    destruct (negb accessible); [| apply IH].
    unfold bind at 1, print at 1. unfold bind at 1, print at 1.
    unfold bind at 1, input at 1. cbn [stdin log tick].
    destruct (stdin w) as [|line rest]; [intros [= <- _]; by right; right |].
    destruct (_ =? _)%string; [apply IH | intros [= <- _]; by right; left].
Qed.

(** X11.  When the search finds results but none of them is ranked,
    [find_manual] ends in that round: with one of its two messages or with
    the end of the input, and without another search, a download or a
    change to a file.  An answer [y] to its retry prompt does not start the
    search again. *)
Theorem find_manual_nothing_accessible (make model : option string) (w w2 w3 : World)
    (mk md : string) (results : list SearchResult) :
  asked make model w mk md w2 ->
  ddgs_text w (clock w) (query_of mk md) = Ok results ->
  results <> [] ->
  score_results results mk md [] (searched mk md w2) = (Ok [], w3) ->
  exists r w',
    find_manual make model w = Some (r, w')
    /\ (r = Ok "❌ No accessible manuals found."
        \/ r = Ok "⚠️ No accessible manuals found. Exiting."
        \/ r = Raise "EOF when reading a line")
    /\ quiet w3 w'.
Proof.
  intros Hasked Hsearch Hres Hscore.
  destruct (round_of_asked _ _ _ _ _ _ Hasked) as (_ & _ & _ & Hround).
  rewrite Hsearch in Hround. destruct results as [|r0 results]; [done |].
  unfold bind at 1 in Hround. rewrite Hscore in Hround.
  pose proof (quiet_report_blocked (r0 :: results) (Some mk) (Some md) w3) as Hq.
  destruct (report_blocked (r0 :: results) (Some mk) (Some md) w3) as [r w'] eqn:Hrun.
  apply report_blocked_outcome in Hrun as Hout.
  cbn [fst snd] in Hq.
  destruct Hout as [-> | [-> | ->]].
  - exists (Ok "❌ No accessible manuals found."), w'.
    split; [by apply find_manual_return | split; [by left | done]].
  - exists (Ok "⚠️ No accessible manuals found. Exiting."), w'.
    split; [by apply find_manual_return | split; [by right; left | done]].
  - exists (Raise "EOF when reading a line"), w'.
    split; [by apply find_manual_raise | split; [by right; right | done]].
Qed.

Lemma find_manual_nothing_accessible_witness :
  exists r w',
    find_manual (Some "Trane") (Some "RTU-1234")
      (sample_world [sample_result] 403 "" ["y"; "Carrier"; "48TC"])
    = Some (r, w')
    /\ (r = Ok "❌ No accessible manuals found."
        \/ r = Ok "⚠️ No accessible manuals found. Exiting."
        \/ r = Raise "EOF when reading a line")
    /\ quiet (score_results [sample_result] "Trane" "RTU-1234" []
                (searched "Trane" "RTU-1234"
                   (sample_world [sample_result] 403 "" ["y"; "Carrier"; "48TC"]))).2
             w'.
Proof.
  eapply (find_manual_nothing_accessible (Some "Trane") (Some "RTU-1234")
            (sample_world [sample_result] 403 "" ["y"; "Carrier"; "48TC"]) _ _
            "Trane" "RTU-1234" [sample_result]).
  - by eexists.
  - reflexivity.
  - discriminate.
  - vm_compute. reflexivity.
Defined.

Lemma score_results_linkless (results : list SearchResult) (make model : string)
    (acc : list Candidate) (w : World) :
  Forall (fun r => probed_url r = None) results ->
  score_results results make model acc w = (Ok acc, w).
Proof.
  induction 1 as [|r results Hr _ IH]; cbn [score_results]; [done |].
  unfold probed_url in Hr.
  destruct (Str.truthy_opt (result_url r)) eqn:E; cbn [negb]; [| exact IH].
  destruct (truthy_url r E) as (u & Hu & _). rewrite Hu in Hr. discriminate.
Qed.

Lemma report_blocked_linkless (results : list SearchResult) (make model : option string)
    (w : World) :
  Forall (fun r => probed_url r = None) results ->
  report_blocked results make model w
  = (Ok (Return "❌ No accessible manuals found."),
     log (EvPrint "❌ No accessible manuals found.") w).
Proof.
  induction 1 as [|r results Hr _ IH]; cbn [report_blocked]; [done |].
  unfold probed_url in Hr.
  destruct (Str.truthy_opt (result_url r)) eqn:E; cbn [negb]; [| exact IH].
  destruct (truthy_url r E) as (u & Hu & _). rewrite Hu in Hr. discriminate.
Qed.

(** X12.  When no result of the search has a link, [find_manual] prints
    and returns ["❌ No accessible manuals found."] right after the search:
    nothing is probed and the user is not asked anything more. *)
Theorem find_manual_linkless_results (make model : option string) (w w2 : World)
    (mk md : string) (results : list SearchResult) :
  asked make model w mk md w2 ->
  ddgs_text w (clock w) (query_of mk md) = Ok results ->
  results <> [] ->
  Forall (fun r => probed_url r = None) results ->
  find_manual make model w
  = Some (Ok "❌ No accessible manuals found.",
          log (EvPrint "❌ No accessible manuals found.") (searched mk md w2)).
Proof.
  intros Hasked Hsearch Hres Hall.
  destruct (round_of_asked _ _ _ _ _ _ Hasked) as (_ & _ & _ & Hround).
  apply find_manual_return. rewrite Hround, Hsearch.
  destruct results as [|r0 results]; [done |].
  unfold bind at 1. rewrite score_results_linkless by done.
  by apply report_blocked_linkless.
Qed.

Lemma find_manual_linkless_results_witness :
  find_manual (Some "Trane") (Some "RTU-1234")
    (sample_world [linkless_result] 200 "" ["y"])
  = Some (Ok "❌ No accessible manuals found.",
          log (EvPrint "❌ No accessible manuals found.")
            (searched "Trane" "RTU-1234"
               (sample_world [linkless_result] 200 "" ["y"]))).
Proof.
  apply (find_manual_linkless_results (Some "Trane") (Some "RTU-1234")
           (sample_world [linkless_result] 200 "" ["y"]) _
           "Trane" "RTU-1234" [linkless_result]).
  - by eexists.
  - reflexivity.
  - discriminate.
  - repeat constructor.
Defined.

(** ** From the confirmation to the result *)

(** The round of a close match whose download the user confirms. *)
Lemma round_confirmed (make model : option string) (w w3 : World) (best_score : Q)
    (best_title best_url line : string) (rest : list string) :
  reaches_best make model w (best_score, best_title, best_url) w3 ->
  (1 # 2 < best_score)%Q ->
  stdin w3 = line :: rest ->
  Str.lower line = "y" ->
  find_manual_round make model w
  = (saved <- download_file best_url None ;;
     if Str.startswith "⚠️" saved then
       line <- input "🔁 Try a different Make/Model? (y/n): " ;;
       if (Str.lower line =? "y")%string then ret (Continue None None)
       else ret (Return saved)
     else
       print ("✅ File saved to: " ++ saved) ;;
       ret (Return saved))
      (answered download_prompt rest (best_shown best_title best_url w3)).
Proof.
  intros (mk & md & w2 & results & scored & others & (w1 & Hmk & Hmd)
          & Hsearch & Hres & Hscore & Hbest) Hgt Hin Hyes.
  rewrite (find_manual_round_best _ _ _ _ _ _ _ _ _ _ _ _
             Hmk Hmd Hsearch Hres Hscore Hbest).
  rewrite handle_best_cases. apply Qgt_alt in Hgt. rewrite Hgt, Hin.
  apply String.eqb_eq in Hyes. by rewrite Hyes.
Qed.

(** X13.  In a round with a close match, when the user confirms the
    download and [download_file] returns a text that does not begin with
    the warning glyph, [find_manual] prints where the file was saved and
    returns that text, which is the path of a file on disk that begins
    with [%PDF]. *)
Theorem find_manual_download_success (make model : option string) (w w3 w4 : World)
    (best_score : Q) (best_title best_url line saved : string) (rest : list string) :
  reaches_best make model w (best_score, best_title, best_url) w3 ->
  (1 # 2 < best_score)%Q ->
  stdin w3 = line :: rest ->
  Str.lower line = "y" ->
  download_file best_url None
    (answered download_prompt rest (best_shown best_title best_url w3))
  = (Ok saved, w4) ->
  Str.startswith "⚠️" saved = false ->
  find_manual make model w
  = Some (Ok saved, log (EvPrint ("✅ File saved to: " ++ saved)) w4)
  /\ Str.startswith "/" saved = true
  /\ exists content, files w4 !! saved = Some ("%PDF" ++ content).
Proof.
  intros Hbest Hgt Hin Hyes Hdl Hok.
  split.
  - apply find_manual_return.
    rewrite (round_confirmed _ _ _ _ _ _ _ _ _ Hbest Hgt Hin Hyes).
    unfold bind at 1. by rewrite Hdl, Hok.
  - destruct (download_file_result best_url None
                (answered download_prompt rest (best_shown best_title best_url w3)))
      as (msg & w' & Hrun & Hcases).
    rewrite Hdl in Hrun. injection Hrun as <- <-.
    destruct Hcases as [[Hwarn _] | (name & _ & Hmsg & _ & Hslash & Hvalid)];
      [congruence |].
    split; [done |]. unfold is_valid_pdf in Hvalid. rewrite <- Hmsg in Hvalid.
    destruct (files w4 !! saved) as [content |]; [| discriminate].
    apply String.eqb_eq, take4_signature in Hvalid as [rest' ->]. by exists rest'.
Qed.

(** X14.  In a round with a close match, when the user confirms the
    download and [download_file] returns a text that begins with the
    warning glyph, the retry prompt follows: on [y] [find_manual] goes on
    as a fresh call without arguments, and on any other answer it returns
    the text of the failure. *)
Theorem find_manual_download_failure (make model : option string) (w w3 w4 : World)
    (best_score : Q) (best_title best_url line saved answer : string)
    (rest rest4 : list string) :
  reaches_best make model w (best_score, best_title, best_url) w3 ->
  (1 # 2 < best_score)%Q ->
  stdin w3 = line :: rest ->
  Str.lower line = "y" ->
  download_file best_url None
    (answered download_prompt rest (best_shown best_title best_url w3))
  = (Ok saved, w4) ->
  Str.startswith "⚠️" saved = true ->
  stdin w4 = answer :: rest4 ->
  (Str.lower answer = "y" ->
   find_manual make model w = find_manual None None (answered retry_prompt rest4 w4))
  /\ (Str.lower answer <> "y" ->
      find_manual make model w = Some (Ok saved, answered retry_prompt rest4 w4)).
Proof.
  intros Hbest Hgt Hin Hyes Hdl Hwarn Hin4.
  assert (Hround : find_manual_round make model w
                   = (if (Str.lower answer =? "y")%string
                      then (Ok (Continue None None), answered retry_prompt rest4 w4)
                      else (Ok (Return saved), answered retry_prompt rest4 w4))).
  { rewrite (round_confirmed _ _ _ _ _ _ _ _ _ Hbest Hgt Hin Hyes).
    unfold bind at 1. rewrite Hdl, Hwarn.
    unfold bind at 1, input at 1. cbn [stdin log]. rewrite Hin4.
    by destruct (Str.lower answer =? "y")%string. }
  split.
  - intros Hy. apply String.eqb_eq in Hy. rewrite Hy in Hround.
    by apply find_manual_continue.
  - intros Hn. apply String.eqb_neq in Hn. rewrite Hn in Hround.
    by apply find_manual_return.
Qed.

Lemma sample_reaches_best (body : string) (lines : list string) :
  let w := sample_world [sample_result] 200 body lines in
  reaches_best (Some "Trane") (Some "RTU-1234") w
    ((203 # 35)%Q, "Trane RTU-1234 manual",
     "https://www.trane.com/docs/RTU-1234%20manual.pdf")
    (tick (log (EvHead "https://www.trane.com/docs/RTU-1234%20manual.pdf")
             (searched "Trane" "RTU-1234" w))).
Proof.
  intros w.
  exists "Trane", "RTU-1234", w, [sample_result],
    [((203 # 35)%Q, "Trane RTU-1234 manual",
      "https://www.trane.com/docs/RTU-1234%20manual.pdf")], [].
  split; [by exists w |]. split; [reflexivity |]. split; [discriminate |].
  split; [| reflexivity]. by vm_compute.
Defined.

Lemma find_manual_download_success_witness :
  let w := sample_world [sample_result] 200 "%PDF-1.7 the manual" ["y"] in
  let url := "https://www.trane.com/docs/RTU-1234%20manual.pdf" in
  let w3 := tick (log (EvHead url) (searched "Trane" "RTU-1234" w)) in
  let w4 := (download_file url None
               (answered download_prompt []
                  (best_shown "Trane RTU-1234 manual" url w3))).2 in
  find_manual (Some "Trane") (Some "RTU-1234") w
  = Some (Ok "/mnt/data/RTU-1234_manual.pdf",
          log (EvPrint ("✅ File saved to: " ++ "/mnt/data/RTU-1234_manual.pdf")) w4)
  /\ Str.startswith "/" "/mnt/data/RTU-1234_manual.pdf" = true
  /\ exists content,
       files w4 !! "/mnt/data/RTU-1234_manual.pdf" = Some ("%PDF" ++ content).
Proof.
  intros w url w3 w4.
  apply (find_manual_download_success (Some "Trane") (Some "RTU-1234") w w3 w4
           (203 # 35)%Q "Trane RTU-1234 manual" url "y"
           "/mnt/data/RTU-1234_manual.pdf" []).
  - apply sample_reaches_best.
  - reflexivity.
  - reflexivity.
  - reflexivity.
  - by vm_compute.
  - reflexivity.
Defined.

Lemma find_manual_download_failure_witness :
  let w := sample_world [sample_result] 200 "<html>Sign in</html>" ["y"; "n"; "n"] in
  let url := "https://www.trane.com/docs/RTU-1234%20manual.pdf" in
  let w3 := tick (log (EvHead url) (searched "Trane" "RTU-1234" w)) in
  let w4 := (download_file url None
               (answered download_prompt ["n"; "n"]
                  (best_shown "Trane RTU-1234 manual" url w3))).2 in
  find_manual (Some "Trane") (Some "RTU-1234") w
  = Some (Ok "⚠️ Invalid PDF content", answered retry_prompt [] w4).
Proof.
  intros w url w3 w4.
  apply (find_manual_download_failure (Some "Trane") (Some "RTU-1234") w w3 w4
           (203 # 35)%Q "Trane RTU-1234 manual" url "y"
           "⚠️ Invalid PDF content" "n" ["n"; "n"] []).
  - apply sample_reaches_best.
  - reflexivity.
  - reflexivity.
  - reflexivity.
  - by vm_compute.
  - reflexivity.
  - by vm_compute.
  - discriminate.
Defined.

(** ** The name a download is saved under *)

Lemma unquote_plain (s : string) :
  Str.has_char "%" s = false -> Urllib.unquote s = s.
Proof.
  induction s as [|c s IH]; [done |]. cbn [Str.has_char]. intros H.
  apply orb_false_iff in H as [Hc Hs].
  cbn [Urllib.unquote]. rewrite Ascii.eqb_sym, Hc. cbn [andb].
  rewrite (IH Hs). by destruct s as [|h [|l s'']].
Qed.

Lemma sanitize_plain (s : string) :
  (forall c, In c [" "; "("; ")"]%char -> Str.has_char c s = false) -> sanitize s = s.
Proof.
  induction s as [|d s IH]; [done |]. intros H. cbn [sanitize]. unfold sanitize_char.
  assert (Hd : forall c, In c [" "; "("; ")"]%char -> Ascii.eqb d c = false).
  { intros c Hc. specialize (H c Hc). cbn [Str.has_char] in H.
    apply orb_false_iff in H as [H _]. by rewrite Ascii.eqb_sym. }
  rewrite !Hd by (cbn; tauto). cbn [orb].
  rewrite append_cons, append_empty_l, IH; [done |].
  intros c Hc. specialize (H c Hc). cbn [Str.has_char] in H.
  by apply orb_false_iff in H as [_ H].
Qed.

Lemma drop_no_slash (n : nat) (p : string) :
  Str.rfind (Ascii.eqb "/") p = None -> Str.has_char "/" (Str.drop n p) = false.
Proof.
  revert n. induction p as [|c p IH]; intros n; [by destruct n |].
  cbn [Str.rfind]. destruct (Str.rfind (Ascii.eqb "/") p) as [i |] eqn:E; [discriminate |].
  destruct (Ascii.eqb "/" c) eqn:Ec; [discriminate |]. intros _.
  destruct n as [|n]; cbn [Str.drop Str.has_char]; [| by apply IH].
  rewrite Ec. cbn [orb]. by apply (IH O).
Qed.

(** The basename of a path has no slash. *)
Lemma basename_no_slash (p : string) :
  Str.has_char "/" (Posixpath.basename p) = false.
Proof.
  unfold Posixpath.basename. induction p as [|c p IH]; [done |].
  cbn [Str.rfind]. destruct (Str.rfind (Ascii.eqb "/") p) as [i |] eqn:E.
  - exact IH.
  - destruct (Ascii.eqb "/" c) eqn:Ec.
    + cbn [Str.drop]. by apply (drop_no_slash O).
    + cbn [Str.drop Str.has_char]. rewrite Ec. cbn [orb]. by apply (drop_no_slash O).
Qed.

(** X15.  When no filename is given and the basename of the URL's path is
    not empty, ["."] or [".."], and has no percent sign, space or
    parenthesis, the download is saved under that very basename, directly
    in the output directory. *)
Theorem safe_filename_plain_basename (url : string) (filename : option string)
    (p : Urllib.ParseResult) :
  Str.truthy_opt filename = false ->
  Urllib.urlparse url = Ok p ->
  let base := Posixpath.basename (Urllib.path p) in
  base <> "" -> base <> "." -> base <> ".." ->
  (forall c, In c ["%"; " "; "("; ")"]%char -> Str.has_char c base = false) ->
  safe_filename url filename = Ok base
  /\ Pathlib.key (Pathlib.joinpath OUTPUT_DIR base) = "/mnt/data/" ++ base.
Proof.
  intros Hfn Hp base Hne Hdot Hdd Hplain.
  split; [| apply plain_name_target; try done; apply basename_no_slash].
  unfold safe_filename. rewrite Hfn, Hp. cbn [negb]. fold base.
  assert (Htruthy : Str.truthy base = true) by (by destruct base).
  rewrite Htruthy, unquote_plain by (apply Hplain; cbn; tauto).
  rewrite replace_sanitize, sanitize_plain; [done |].
  intros c Hc. apply Hplain. cbn in *. tauto.
Qed.

Lemma safe_filename_plain_basename_witness :
  safe_filename "https://www.trane.com/docs/RTU-1234_IOM.pdf?rev=3" None
  = Ok "RTU-1234_IOM.pdf"
  /\ Pathlib.key (Pathlib.joinpath OUTPUT_DIR "RTU-1234_IOM.pdf")
     = "/mnt/data/" ++ "RTU-1234_IOM.pdf".
Proof.
  apply (safe_filename_plain_basename
           "https://www.trane.com/docs/RTU-1234_IOM.pdf?rev=3" None _ eq_refl eq_refl);
    try discriminate.
  intros c Hc. cbn in Hc.
  destruct Hc as [<- | [<- | [<- | [<- | []]]]]; reflexivity.
Defined.

(** X16.  A filename that is given is used without looking at the URL,
    which may even be one that [urlparse] rejects; it is percent-decoded
    and sanitised like a derived name; and an empty filename counts as
    none. *)
Theorem safe_filename_given (url : string) (filename : string) :
  (Str.truthy filename = true ->
   safe_filename url (Some filename) = Ok (sanitize (Urllib.unquote filename)))
  /\ safe_filename url (Some "") = safe_filename url None.
Proof.
  split; [| reflexivity].
  intros H. unfold safe_filename. cbn [Str.truthy_opt]. rewrite H. cbn [negb].
  change (default "" (Some filename)) with filename.
  by rewrite H, replace_sanitize.
Qed.

Lemma safe_filename_given_witness :
  safe_filename "http://[broken/manual.pdf" (Some "Service%20Manual (rev2).pdf")
  = Ok (sanitize (Urllib.unquote "Service%20Manual (rev2).pdf")).
Proof.
  apply (proj1 (safe_filename_given "http://[broken/manual.pdf"
                  "Service%20Manual (rev2).pdf")).
  reflexivity.
Defined.

(** ** When a download is made *)

Lemma downloads_app (t1 t2 : list Event) :
  downloads (t1 ++ t2) = (downloads t1 ++ downloads t2)%list.
Proof. apply omap_app. Qed.

(** What [download_file] does once the file is open makes no request. *)
Lemma validate_downloads (url : string) (path : Pathlib.Path) (w : World) :
  downloads (trace
    ((valid <- (fun w => (Ok (is_valid_pdf path w), w)) ;;
      if negb valid then
        print "❌ File downloaded but is NOT a valid PDF (likely a web page)." ;;
        unlink path ;;
        offer_open_in_browser url ;;
        ret "⚠️ Invalid PDF content"
      else ret (Pathlib.key path)) w).2) = downloads (trace w).
Proof.
  unfold bind at 1. destruct (is_valid_pdf path w); cbn [negb]; [reflexivity |].
  unfold bind at 1, print at 1. unfold bind at 1, unlink at 1.
  destruct (is_dir _ (Pathlib.resolve path)).
  - cbn [snd trace log]. rewrite !downloads_app. cbn. by rewrite !app_nil_r.
  - unfold bind at 1.
    match goal with
    | |- context [offer_open_in_browser url ?w0] =>
        destruct (offer_open_in_browser_frame url w0) as (_ & _ & tail & Ht & Htail);
        destruct (offer_open_in_browser url w0) as [[[] | e] w1]
    end; unfold bind, ret; cbn [snd] in *; rewrite Ht; cbn [trace log set_files];
      rewrite !downloads_app; destruct Htail as [-> | ->]; cbn; by rewrite !app_nil_r.
Qed.

Lemma download_file_requests (url : string) (filename : option string) (w : World) :
  downloads (trace (download_file url filename w).2) = (downloads (trace w) ++ [url])%list.
Proof.
  assert (Hexc : forall (m : M string) (w0 : World),
             (try_except m (fun e => ret ("⚠️ Download failed: " ++ e)) w0).2 = (m w0).2).
  { intros m w0. unfold try_except. by destruct (m w0) as [[a | e] w1]. }
  assert (Hget : downloads (trace (tick (log (EvGet url) w)))
                 = (downloads (trace w) ++ [url])%list).
  { cbn [trace tick log]. by rewrite downloads_app. }
  unfold download_file. rewrite Hexc.
  unfold bind at 1, http_get at 1. cbn [requests_get log clock].
  destruct (requests_get w (clock w) url) as [r | e]; [| exact Hget].
  unfold bind at 1. unfold raise_for_status at 1.
  destruct ((400 <=? status_code r)%Z && (status_code r <? 600)%Z); [exact Hget |].
  unfold ret at 1. unfold bind at 1, lift at 1.
  destruct (safe_filename url filename) as [name | e]; [| exact Hget].
  unfold bind at 1.
  pose proof (mkdir_all_trace OUTPUT_DIR (Pathlib.ancestors OUTPUT_DIR)
                (tick (log (EvGet url) w))) as Hmk.
  fold (mkdir_parents OUTPUT_DIR) in Hmk.
  destruct (mkdir_parents OUTPUT_DIR (tick (log (EvGet url) w))) as [[[] | e] w1];
    cbn [snd] in Hmk; [| cbn [snd]; by rewrite Hmk].
  unfold bind at 1.
  pose proof (open_wb_trace (Pathlib.joinpath OUTPUT_DIR name) w1) as Hop.
  destruct (open_wb (Pathlib.joinpath OUTPUT_DIR name) w1) as [[f | e] w2];
    cbn [snd] in Hop;
    [| cbn [snd]; rewrite Hop, downloads_app, Hmk, Hget; cbn; by rewrite app_nil_r].
  unfold bind at 1.
  pose proof (write_chunks_trace f (chunks r) (stream_error r) w2) as Hwr.
  destruct (write_chunks f (chunks r) (stream_error r) w2) as [[[] | e] w3];
    cbn [snd] in Hwr;
    [| cbn [snd]; rewrite Hwr, Hop, downloads_app, Hmk, Hget; cbn; by rewrite app_nil_r].
  rewrite validate_downloads, Hwr, Hop, downloads_app, Hmk, Hget. cbn.
  by rewrite app_nil_r.
Qed.

(** X17.  Whatever it returns, [download_file] has made exactly one GET
    request, to the URL it was given. *)
Theorem download_file_one_request (url : string) (filename : option string) (w : World) :
  downloads (trace (download_file url filename w).2) = (downloads (trace w) ++ [url])%list
  /\ exists msg, (download_file url filename w).1 = Ok msg.
Proof.
  split; [apply download_file_requests |].
  destruct (download_file_result url filename w) as (msg & w' & -> & _). by exists msg.
Qed.

Lemma lower_char_is_y (c : ascii) :
  Str.lower_char c = "y"%char -> c = "y"%char \/ c = "Y"%char.
Proof.
  destruct c as [[] [] [] [] [] [] [] []]; vm_compute; intros H;
    first [discriminate H | by left | by right].
Qed.

(** The answers that count as yes: the letter y in either case and nothing
    else, not even a blank. *)
Lemma lower_is_y (line : string) :
  Str.lower line = "y" <-> line = "y" \/ line = "Y".
Proof.
  split; [| by intros [-> | ->]].
  destruct line as [|c [|d line]]; cbn [Str.lower]; try discriminate.
  intros [= H]. apply lower_char_is_y in H as [-> | ->]; [by left | by right].
Qed.

Lemma quiet_offer_open_in_browser (url : string) :
  respects quiet (offer_open_in_browser url).
Proof.
  intros w. destruct (offer_open_in_browser_frame url w) as (Hf & _ & tail & Ht & Htail).
  unfold quiet, searches, downloads, opened. rewrite Ht, Hf, !omap_app.
  destruct Htail as [-> | ->]; cbn; by rewrite !app_nil_r.
Qed.

(** X18.  In a round that ranks a candidate, a download is made exactly
    when the best score is above 0.5 and the answer to the download prompt
    is [y] or [Y], with nothing around it: then one GET request goes to the
    best link.  With any other answer, with no answer, or with a best score
    of 0.5 or less, the round makes no request for a download. *)
Theorem find_manual_downloads_on_yes (make model : option string) (w w3 : World)
    (best_score : Q) (best_title best_url : string) :
  reaches_best make model w (best_score, best_title, best_url) w3 ->
  let after := trace (find_manual_round make model w).2 in
  ((1 # 2 < best_score)%Q ->
   forall line rest, stdin w3 = line :: rest ->
     (line = "y" \/ line = "Y" ->
      downloads after = (downloads (trace w3) ++ [best_url])%list)
     /\ (~ (line = "y" \/ line = "Y") -> downloads after = downloads (trace w3)))
  /\ ((1 # 2 < best_score)%Q -> stdin w3 = [] -> downloads after = downloads (trace w3))
  /\ ((best_score <= 1 # 2)%Q -> downloads after = downloads (trace w3)).
Proof.
  intros Hbest after.
  assert (Hround : find_manual_round make model w
                   = handle_best (best_score, best_title, best_url) w3).
  { destruct Hbest as (mk & md & w2 & results & scored & others & (w1 & Hmk & Hmd)
                       & Hsearch & Hres & Hscore & Hsort).
    by eapply find_manual_round_best. }
  assert (Hshown : downloads (trace (best_shown best_title best_url w3))
                   = downloads (trace w3)).
  { cbn [trace best_shown log]. rewrite downloads_app. cbn. by rewrite app_nil_r. }
  assert (Hoffer : forall w0,
             downloads (trace ((offer_open_in_browser best_url ;;
                                ret (Return best_url)) w0).2)
             = downloads (trace w0)).
  { intros w0.
    assert (Hq : respects quiet (offer_open_in_browser best_url ;; ret (Return best_url)))
      by (quiet_step; [apply quiet_offer_open_in_browser | quiet_step]).
    apply (Hq w0). }
  subst after. rewrite Hround, handle_best_cases.
  split; [| split].
  - intros Hgt line rest Hin. apply Qgt_alt in Hgt. rewrite Hgt, Hin.
    set (w4 := set_stdin rest (log (EvInput download_prompt)
                                 (best_shown best_title best_url w3))).
    assert (Hw4 : downloads (trace w4) = downloads (trace w3)).
    { subst w4. cbn [trace set_stdin log]. rewrite downloads_app, Hshown. cbn.
      by rewrite app_nil_r. }
    split.
    + intros Hy. apply lower_is_y, String.eqb_eq in Hy. rewrite Hy.
      unfold bind at 1.
      pose proof (download_file_requests best_url None w4) as Hdl.
      destruct (download_file_result best_url None w4) as (saved & w5 & Hrun & _).
      rewrite Hrun in Hdl |- *. cbn [snd] in Hdl.
      destruct (Str.startswith "⚠️" saved).
      * unfold bind at 1, input at 1. cbn [stdin log].
        destruct (stdin w5) as [|answer rest5].
        -- cbn [snd trace log]. rewrite downloads_app, Hdl, Hw4. cbn.
           by rewrite app_nil_r.
        -- destruct (Str.lower answer =? "y")%string; unfold ret;
             cbn [snd trace log set_stdin];
             rewrite downloads_app, Hdl, Hw4; cbn; by rewrite app_nil_r.
      * unfold bind at 1, print at 1. unfold ret. cbn [snd trace log].
        rewrite downloads_app, Hdl, Hw4. cbn. by rewrite app_nil_r.
    + intros Hn.
      assert (Hne : (Str.lower line =? "y")%string = false)
        by (apply String.eqb_neq; intros H; by apply Hn, lower_is_y).
      rewrite Hne, print_print_offer, Hoffer. cbn [trace log].
      rewrite !downloads_app, Hw4. cbn. by rewrite !app_nil_r.
  - intros Hgt Hin. apply Qgt_alt in Hgt. rewrite Hgt, Hin. cbn [snd trace log].
    rewrite downloads_app, Hshown. cbn. by rewrite app_nil_r.
  - intros Hle. apply Qle_alt in Hle.
    destruct (best_score ?= 1 # 2)%Q eqn:E; [| | exfalso; by apply Hle];
      rewrite Hoffer; cbn [trace log]; rewrite !downloads_app, Hshown; cbn;
      by rewrite !app_nil_r.
Qed.

Lemma find_manual_downloads_on_yes_witness :
  let w := sample_world [sample_result] 200 "%PDF-1.7 the manual" ["Y"] in
  let url := "https://www.trane.com/docs/RTU-1234%20manual.pdf" in
  let w3 := tick (log (EvHead url) (searched "Trane" "RTU-1234" w)) in
  downloads (trace (find_manual_round (Some "Trane") (Some "RTU-1234") w).2)
  = (downloads (trace w3) ++ [url])%list.
Proof.
  intros w url w3.
  refine (proj1 (proj1 (find_manual_downloads_on_yes (Some "Trane") (Some "RTU-1234")
                          w w3 (203 # 35)%Q "Trane RTU-1234 manual" url
                          (sample_reaches_best "%PDF-1.7 the manual" ["Y"]))
                   _ "Y" [] eq_refl) _).
  - reflexivity.
  - by right.
Defined.

(** ** The browser prompt: [offer_open_in_browser] *)

Lemma reverse_app (s t : string) :
  Str.reverse (s ++ t) = Str.reverse t ++ Str.reverse s.
Proof.
  induction s as [|c s IH]; [by rewrite append_empty_l, append_empty_r |].
  rewrite append_cons. cbn [Str.reverse]. by rewrite IH, append_assoc.
Qed.

Lemma reverse_involutive (s : string) : Str.reverse (Str.reverse s) = s.
Proof.
  induction s as [|c s IH]; [done |].
  cbn [Str.reverse]. by rewrite reverse_app, IH.
Qed.

Lemma join_app (ws vs : list string) : Str.join (ws ++ vs) = Str.join ws ++ Str.join vs.
Proof.
  induction ws as [|t ws IH]; [done |].
  cbn [app Str.join foldr]. fold (Str.join (ws ++ vs)). fold (Str.join ws).
  by rewrite IH, append_assoc.
Qed.

Lemma reverse_join (ws : list string) :
  Str.reverse (Str.join ws) = Str.join (map Str.reverse (rev ws)).
Proof.
  induction ws as [|t ws IH]; [done |].
  cbn [Str.join foldr rev]. fold (Str.join ws).
  rewrite reverse_app, IH, map_app, join_app. cbn [map Str.join foldr].
  by rewrite append_empty_r.
Qed.

(** What [drop_white] removes is a run of characters that [white] accepts. *)
Lemma drop_white_split (white : string -> bool) (s : string) :
  exists ws, Forall (fun t => white t = true) ws
             /\ s = Str.join ws ++ Str.drop_white white s.
Proof.
  assert (H : forall n s, (String.length s < n)%nat ->
            exists ws, Forall (fun t => white t = true) ws
                       /\ s = Str.join ws ++ Str.drop_white white s).
  { clear s. induction n as [|n IH]; intros s Hn; [lia |].
    assert (Hstop : exists ws, Forall (fun t => white t = true) ws
                               /\ s = Str.join ws ++ s) by (by exists []).
    destruct s as [|c s1]; [by exists [] |]. cbn [Str.drop_white].
    cbn [String.length] in Hn.
    destruct (white (String c "")) eqn:E1.
    { destruct (IH s1) as (ws & Hws & Hs); [lia |].
      exists (String c "" :: ws). split; [by constructor |].
      cbn [Str.join foldr]. fold (Str.join ws).
      by rewrite append_assoc, append_cons, append_empty_l, <- Hs. }
    destruct s1 as [|d s2]; [exact Hstop |]. cbn [String.length] in Hn.
    destruct (white (String c (String d ""))) eqn:E2.
    { destruct (IH s2) as (ws & Hws & Hs); [lia |].
      exists (String c (String d "") :: ws). split; [by constructor |].
      cbn [Str.join foldr]. fold (Str.join ws).
      by rewrite append_assoc, !append_cons, append_empty_l, <- Hs. }
    destruct s2 as [|e s3]; [exact Hstop |]. cbn [String.length] in Hn.
    destruct (white (String c (String d (String e "")))) eqn:E3; [| exact Hstop].
    destruct (IH s3) as (ws & Hws & Hs); [lia |].
    exists (String c (String d (String e "")) :: ws). split; [by constructor |].
    cbn [Str.join foldr]. fold (Str.join ws).
    by rewrite append_assoc, !append_cons, append_empty_l, <- Hs. }
  apply (H (S (String.length s))). lia.
Qed.

Lemma drop_white_tokens (white : string -> bool) (ws : list string) (s : string) :
  Forall (fun t => forall s', Str.drop_white white (t ++ s') = Str.drop_white white s') ws ->
  Str.drop_white white (Str.join ws ++ s) = Str.drop_white white s.
Proof.
  induction 1 as [|t ws Ht _ IH]; [done |].
  cbn [Str.join foldr]. fold (Str.join ws). by rewrite append_assoc, Ht.
Qed.

Lemma drop_white_stop (white : string -> bool) (c : ascii) (s : string) :
  (forall t, white (String c t) = false) ->
  Str.drop_white white (String c s) = String c s.
Proof.
  intros H. destruct s as [|d [|e s]]; cbn [Str.drop_white]; by rewrite ?H.
Qed.

(** Each white space character is dropped from the front by [lstrip], and
    from the back by [rstrip]. *)
Lemma whitespace_front :
  Forall (fun t => forall s, Str.drop_white Str.is_white (t ++ s)
                             = Str.drop_white Str.is_white s) Str.whitespace.
Proof. repeat constructor; intros s; vm_compute; reflexivity. Qed.

Lemma whitespace_back :
  Forall (fun t => forall s, Str.drop_white Str.is_white_back (Str.reverse t ++ s)
                             = Str.drop_white Str.is_white_back s) Str.whitespace.
Proof. repeat constructor; intros s; vm_compute; reflexivity. Qed.

Lemma has_char_app (c : ascii) (s t : string) :
  Str.has_char c (s ++ t) = Str.has_char c s || Str.has_char c t.
Proof.
  induction s as [|d s IH]; [done |].
  rewrite append_cons. cbn [Str.has_char]. by rewrite IH, orb_assoc.
Qed.

Lemma whitespace_no_letter :
  Forall (fun t => Str.has_char "y" t = false /\ Str.has_char "Y" t = false)
    Str.whitespace.
Proof. repeat constructor. Qed.

Lemma is_white_letter (c : ascii) (t : string) :
  c = "y"%char \/ c = "Y"%char ->
  Str.is_white (String c t) = false /\ Str.is_white_back (String c t) = false.
Proof.
  intros Hc.
  assert (Hno : forall s, Str.has_char c s = true -> Str.is_white s = false).
  { intros s Hs. destruct (Str.is_white s) eqn:E; [| done].
    apply existsb_exists in E as (s' & Hin & ->%String.eqb_eq).
    pose proof whitespace_no_letter as Hall. rewrite Forall_forall in Hall.
    apply list_elem_of_In, Hall in Hin as [Hy HY].
    destruct Hc as [-> | ->]; congruence. }
  split; apply Hno; [| unfold Str.reverse; fold Str.reverse; rewrite has_char_app];
    cbn [Str.has_char]; rewrite Ascii.eqb_refl; [done | by rewrite orb_true_r].
Qed.

(** The lines that [strip] turns into the letter [y], in either case: that
    letter with white space before and after. *)
Lemma strip_letter (line : string) (c : ascii) :
  c = "y"%char \/ c = "Y"%char ->
  Str.strip line = String c ""
  <-> exists pre post, blank pre /\ blank post /\ line = pre ++ String c post.
Proof.
  intros Hc. unfold Str.strip, Str.rstrip_white, Str.lstrip_white. split.
  - intros H.
    destruct (drop_white_split Str.is_white line) as (ws1 & Hws1 & Hline).
    set (m := Str.drop_white Str.is_white line) in *.
    destruct (drop_white_split Str.is_white_back (Str.reverse m)) as (ws2 & Hws2 & Hm).
    apply (f_equal Str.reverse) in H. rewrite reverse_involutive in H.
    rewrite H in Hm. cbn [Str.reverse] in Hm. rewrite append_empty_l in Hm.
    apply (f_equal Str.reverse) in Hm.
    rewrite reverse_involutive, reverse_app, reverse_join in Hm.
    change (Str.reverse (String c "")) with (String c "") in Hm.
    rewrite append_cons, append_empty_l in Hm.
    exists (Str.join ws1), (Str.join (map Str.reverse (rev ws2))). split; [| split].
    + exists ws1. split; [| done]. eapply Forall_impl; [exact Hws1 |].
      intros t Ht. unfold Str.is_white in Ht.
      apply existsb_exists in Ht as (t' & Hin & ->%String.eqb_eq).
      by apply list_elem_of_In.
    + eexists. split; [| reflexivity]. apply Forall_map, Forall_rev.
      eapply Forall_impl; [exact Hws2 |].
      intros t Ht. unfold Str.is_white_back, Str.is_white in Ht.
      apply existsb_exists in Ht as (t' & Hin & ->%String.eqb_eq).
      by apply list_elem_of_In.
    + by rewrite <- Hm.
  - intros (pre & post & (ws1 & Hws1 & ->) & (ws2 & Hws2 & ->) & ->).
    assert (Hfront : Forall (fun t => forall s, Str.drop_white Str.is_white (t ++ s)
                                                = Str.drop_white Str.is_white s) ws1).
    { pose proof whitespace_front as Hall. rewrite Forall_forall in Hall.
      eapply Forall_impl; [exact Hws1 |]. intros t Ht. by apply Hall. }
    assert (Hback : Forall (fun t => forall s, Str.drop_white Str.is_white_back (t ++ s)
                                               = Str.drop_white Str.is_white_back s)
                      (map Str.reverse (rev ws2))).
    { pose proof whitespace_back as Hall. rewrite Forall_forall in Hall.
      apply Forall_map, Forall_rev.
      eapply Forall_impl; [exact Hws2 |]. intros t Ht. by apply Hall. }
    rewrite (drop_white_tokens _ _ _ Hfront).
    rewrite drop_white_stop by (intros t; by apply is_white_letter).
    change (String c (Str.join ws2)) with (String c "" ++ Str.join ws2).
    rewrite reverse_app, reverse_join, (drop_white_tokens _ _ _ Hback).
    change (Str.reverse (String c "")) with (String c "").
    by rewrite drop_white_stop by (intros t; by apply is_white_letter).
Qed.

(** X19.  [offer_open_in_browser] reads one line.  It opens the browser,
    once and on the URL it was given, exactly when the line is the letter
    [y], in either case, with nothing but white space before and after it
    (the characters of [str.isspace], those beyond ASCII included); on any
    other line it does nothing more.  It returns normally in both cases and
    touches no file. *)
Theorem offer_open_in_browser_answer (url line : string) (rest : list string) (w : World) :
  stdin w = line :: rest ->
  let yes := exists pre post c,
               blank pre /\ blank post
               /\ (c = "y"%char \/ c = "Y"%char)
               /\ line = pre ++ String c post in
  exists w',
    offer_open_in_browser url w = (Ok tt, w')
    /\ stdin w' = rest /\ files w' = files w
    /\ (yes -> trace w' = (trace w ++ EvInput browser_prompt :: browser_events url)%list)
    /\ (~ yes -> trace w' = (trace w ++ [EvInput browser_prompt])%list).
Proof.
  intros Hin yes.
  assert (Hyes : Str.lower (Str.strip line) = "y" <-> yes).
  { rewrite lower_is_y. subst yes. split.
    - intros [H | H]; apply strip_letter in H as (pre & post & Hpre & Hpost & Hl);
        try (by left); try (by right); exists pre, post; eexists; eauto.
    - intros (pre & post & c & Hpre & Hpost & [-> | ->] & Hl);
        [left | right]; (apply strip_letter; [by auto |]); by exists pre, post. }
  rewrite offer_open_in_browser_cases, Hin.
  destruct (Str.lower (Str.strip line) =? "y")%string eqn:E.
  - apply String.eqb_eq, Hyes in E. eexists. split; [reflexivity |].
    cbn [stdin files trace log set_stdin].
    split; [reflexivity |]. split; [reflexivity |]. split; [| done].
    intros _. by rewrite <- !app_assoc.
  - apply String.eqb_neq in E. eexists. split; [reflexivity |].
    cbn [stdin files trace log set_stdin].
    split; [reflexivity |]. split; [reflexivity |]. split; [| done].
    intros H. by apply Hyes in H.
Qed.

Lemma offer_open_in_browser_answer_witness :
  let url := "https://www.trane.com/docs/RTU-1234%20manual.pdf" in
  let w := sample_world [] 200 "" [Str.utf8 160 ++ " Y" ++ Str.utf8 12288] in
  exists w',
    offer_open_in_browser url w = (Ok tt, w')
    /\ trace w' = (trace w ++ EvInput browser_prompt :: browser_events url)%list.
Proof.
  intros url w.
  destruct (offer_open_in_browser_answer url (Str.utf8 160 ++ " Y" ++ Str.utf8 12288) [] w
              eq_refl)
    as (w' & Hrun & _ & _ & Hyes & _).
  exists w'. split; [exact Hrun |]. apply Hyes.
  exists (Str.utf8 160 ++ " "), (Str.utf8 12288), "Y"%char.
  split; [| split; [| split]].
  - exists [Str.utf8 160; " "]. split; [| reflexivity].
    repeat constructor; apply list_elem_of_In; vm_compute; tauto.
  - exists [Str.utf8 12288]. split; [| reflexivity].
    repeat constructor; apply list_elem_of_In; vm_compute; tauto.
  - by right.
  - reflexivity.
Defined.
